(** * Vibe Commerce: hybrid product search and batch vectorization

  A shallow embedding of the search core of the backend:

  - [services/vectorize.ts]: cosine similarity, top-K selection, the
    score-proximity filter, normalization, averages, Euclidean distance
    and the text of a product;
  - [utils/ai-validation.ts]: the sanitizer and the request schemas of
    the search endpoints;
  - [services/gemini.ts]: single and batch embedding requests;
  - [routes/search.ts]: the [GET /api/search] handler and the
    [POST /api/search/vectorize] handler;
  - [scripts/vectorize-products.ts]: the batch backfill of embeddings;
  - [middleware/error-handler.ts]: the application error and its status;
  - [middleware/rate-limit.ts]: the rate-limit check and its cleanup.

  A JavaScript [number] is an IEEE 754 binary64 value, which is what
  Rocq's primitive [float] is, so scores, vectors and thresholds are
  [float]s and the arithmetic of the source is kept operation by
  operation.  Quantities that the source only ever uses as integers (the
  result limit, the [k] of top-K) are in [Z].  Strings are ASCII strings.
  A function that can throw returns a [Result].  The embedding provider is
  a function from texts to results, the catalog store a list of rows that
  a query filters in table order (the store itself always answers); both
  are inputs of the handler and of the batch script, which return what
  they leave behind (explicit state passing). *)

From Stdlib Require Import List String Ascii ZArith Lia Bool Floats.
From Stdlib Require Import Sorted Permutation.
Import ListNotations.

Set Warnings "-inexact-float".

(* ===================================================================== *)
(** * JavaScript run-time notions used by the source                      *)
(* ===================================================================== *)

Module Js.

(** What a [throw] (or a rejected promise) carries. *)
Inductive Error : Type :=
| DimensionMismatch                 (* new Error('Vectors must have the same length') *)
| ProviderError (reason : string)   (* a rejected embedContent request *)
| ZodError (issues : list string).  (* thrown by schema.parse *)

Inductive Result (A : Type) : Type :=
| Ok (a : A)
| Throw (e : Error).
Arguments Ok {A} a.
Arguments Throw {A} e.

Definition bind {A B : Type} (r : Result A) (k : A -> Result B) : Result B :=
  match r with
  | Ok a => k a
  | Throw e => Throw e
  end.

(** [Array.prototype.map] with a callback that may throw: the first
    throw aborts the traversal. *)
Fixpoint mapM {A B : Type} (f : A -> Result B) (l : list A) : Result (list B) :=
  match l with
  | [] => Ok []
  | x :: l' =>
      bind (f x) (fun y => bind (mapM f l') (fun ys => Ok (y :: ys)))
  end.

(** [Array.prototype.slice(0, k)] for an integral [k]: a negative end
    counts from the end of the array. *)
Definition slice0 {A : Type} (l : list A) (k : Z) : list A :=
  let len := Z.of_nat (List.length l) in
  let final := if (k <? 0)%Z then Z.max (len + k) 0 else Z.min k len in
  firstn (Z.to_nat final) l.

(** [Array.prototype.slice(i, j)] for [0 <= i <= j]. *)
Definition slice {A : Type} (l : list A) (i j : nat) : list A :=
  firstn (j - i) (skipn i l).

(** [Array.prototype.sort(comparefn)].  The sort is stable, and an element
    [x] is placed behind [y] only when [comparefn(x, y) > 0]; an answer
    that is [NaN] counts as [+0].  For a consistent comparator every
    conforming engine yields this result.  For an inconsistent one (some
    score is [NaN]) the order is left to the engine and need not be the
    order of this insertion sort: what is proved of the order of a
    ranking is proved for scores that are numbers. *)
Section Sort.
Context {A : Type} (comparefn : A -> A -> float).

Fixpoint insert (x : A) (l : list A) : list A :=
  match l with
  | [] => [x]
  | y :: l' =>
      if (0 <? comparefn x y)%float then y :: insert x l' else x :: y :: l'
  end.

Fixpoint sort (l : list A) : list A :=
  match l with
  | [] => []
  | x :: l' => insert x (sort l')
  end.

End Sort.

(** Strings (ASCII). *)
Definition is_upper (c : ascii) : bool :=
  let n := nat_of_ascii c in (65 <=? n)%nat && (n <=? 90)%nat.

Definition lower_char (c : ascii) : ascii :=
  if is_upper c then ascii_of_nat (nat_of_ascii c + 32) else c.

Fixpoint toLowerCase (s : string) : string :=
  match s with
  | EmptyString => EmptyString
  | String c s' => String (lower_char c) (toLowerCase s')
  end.

(** [String.prototype.includes]. *)
Fixpoint includes (s needle : string) : bool :=
  String.prefix needle s ||
  match s with
  | EmptyString => false
  | String _ s' => includes s' needle
  end.

(** [Array.prototype.join(sep)]. *)
Fixpoint join (sep : string) (parts : list string) : string :=
  match parts with
  | [] => EmptyString
  | [p] => p
  | p :: rest => (p ++ sep ++ join sep rest)%string
  end.

(** Truthiness of a string: [''] is falsy. *)
Definition truthy (s : string) : bool :=
  match s with EmptyString => false | _ => true end.

(** White space in the sense of [\s] and of [trim] (ASCII). *)
Definition is_space (c : ascii) : bool :=
  let n := nat_of_ascii c in
  ((9 <=? n)%nat && (n <=? 13)%nat) || (n =? 32)%nat.

(** A word character in the sense of [\w] and [\b]. *)
Definition is_word (c : ascii) : bool :=
  let n := nat_of_ascii c in
  ((48 <=? n)%nat && (n <=? 57)%nat) || ((65 <=? n)%nat && (n <=? 90)%nat)
  || ((97 <=? n)%nat && (n <=? 122)%nat) || (n =? 95)%nat.

Fixpoint trimStart (s : string) : string :=
  match s with
  | String c s' => if is_space c then trimStart s' else s
  | EmptyString => EmptyString
  end.

Fixpoint trimEnd (s : string) : string :=
  match s with
  | String c s' =>
      match trimEnd s' with
      | EmptyString => if is_space c then EmptyString else String c EmptyString
      | t => String c t
      end
  | EmptyString => EmptyString
  end.

Definition trim (s : string) : string := trimEnd (trimStart s).

(** The value of a digit in the given radix, if it is one. *)
Definition digitVal (radix : Z) (c : ascii) : option Z :=
  let n := Z.of_nat (nat_of_ascii c) in
  let v :=
    if (48 <=? n)%Z && (n <=? 57)%Z then Some (n - 48)%Z
    else if (97 <=? n)%Z && (n <=? 122)%Z then Some (n - 87)%Z
    else if (65 <=? n)%Z && (n <=? 90)%Z then Some (n - 55)%Z
    else None in
  match v with
  | Some d => if (d <? radix)%Z then Some d else None
  | None => None
  end.

(** The longest prefix of digits, as a number and a count of digits. *)
Fixpoint digits (radix : Z) (s : string) (acc : Z) (count : nat) : Z * nat * string :=
  match s with
  | String c s' =>
      match digitVal radix c with
      | Some d => digits radix s' (acc * radix + d)%Z (S count)
      | None => (acc, count, s)
      end
  | EmptyString => (acc, count, s)
  end.

Definition signOf (s : string) : bool * string :=
  match s with
  | String "-" r => (true, r)
  | String "+" r => (false, r)
  | _ => (false, s)
  end.

(** [parseInt(s)] without a radix; [None] is [NaN]. *)
Definition parseInt (s : string) : option Z :=
  let '(neg, s) := signOf (trimStart s) in
  let '(radix, s) :=
    match s with
    | String "0" (String "x" r) | String "0" (String "X" r) => (16%Z, r)
    | _ => (10%Z, s)
    end in
  let '(n, count, _) := digits radix s 0 0 in
  match count with
  | O => None
  | _ => Some (if neg then (- n)%Z else n)
  end.

(** The binary64 value nearest to [(-1)^neg * m * 10^e10], ties to even. *)
Definition decimalToFloat (neg : bool) (m e10 : Z) : float :=
  match m with
  | Zpos p =>
      if (0 <=? e10)%Z then
        SF2Prim (binary_normalize prec emax
                   ((if neg then Zneg p else Zpos p) * 10 ^ e10)%Z 0 false)
      else
        SF2Prim (SFdiv prec emax (S754_finite neg p 0)
                   (S754_finite false (Z.to_pos (10 ^ (- e10))) 0))
  | _ => if neg then (-0)%float else 0%float
  end.

(** The exponent part [e[+-]digits] of a decimal literal, when present. *)
Definition exponentPart (s : string) : Z :=
  match s with
  | String "e" r | String "E" r =>
      let '(neg, r) := signOf r in
      let '(n, count, _) := digits 10 r 0 0 in
      match count with
      | O => 0%Z
      | _ => if neg then (- n)%Z else n
      end
  | _ => 0%Z
  end.

(** [parseFloat(s)]: the longest prefix that is a decimal literal. *)
Definition parseFloat (s : string) : float :=
  let '(neg, s) := signOf (trimStart s) in
  if String.prefix "Infinity" s then (if neg then neg_infinity else infinity)
  else
    let '(ipart, icount, s) := digits 10 s 0 0 in
    let '(m, fcount, s) :=
      match s with
      | String "." r =>
          let '(m, fcount, r') := digits 10 r ipart 0 in
          match icount, fcount with
          | O, O => (ipart, O, s)
          | _, _ => (m, fcount, r')
          end
      | _ => (ipart, O, s)
      end in
    match icount, fcount with
    | O, O => nan
    | _, _ => decimalToFloat neg m (exponentPart s - Z.of_nat fcount)
    end.

End Js.

Notation "x <- r ;; k" := (Js.bind r (fun x => k))
(at level 61, r at next level, right associativity).

(* ===================================================================== *)
(** * services/vectorize.ts                                               *)
(* ===================================================================== *)

Module Vectorize.
Import Js.

Definition vector : Type := list float.

(** The body of the [for] loop of [cosineSimilarity]: the three running
    sums, updated index by index. *)
Fixpoint sums (vecA vecB : vector) (acc : float * float * float)
  : float * float * float :=
  match vecA, vecB with
  | a :: vecA', b :: vecB' =>
      let '(dotProduct, normA, normB) := acc in
      sums vecA' vecB' (dotProduct + a * b, normA + a * a, normB + b * b)%float
  | _, _ => acc
  end.

Definition cosineSimilarity (vecA vecB : vector) : Result float :=
  if negb (List.length vecA =? List.length vecB)%nat then Throw DimensionMismatch
  else
    let '(dotProduct, normA, normB) := sums vecA vecB (0, 0, 0)%float in
    let normA := sqrt normA in
    let normB := sqrt normB in
    if (normA =? 0)%float || (normB =? 0)%float then Ok 0%float
    else Ok (dotProduct / (normA * normB))%float.

(** [{ id, vector, data }] and [{ id, similarity, data }]. *)
Record Candidate (D : Type) : Type :=
  { c_id : string; c_vector : vector; c_data : D }.
Arguments c_id {D} _.
Arguments c_vector {D} _.
Arguments c_data {D} _.

Record Scored (D : Type) : Type :=
  { id : string; similarity : float; data : D }.
Arguments Build_Scored {D} _ _ _.
Arguments id {D} _.
Arguments similarity {D} _.
Arguments data {D} _.

Definition score {D : Type} (queryVector : vector) (item : Candidate D)
  : Result (Scored D) :=
  s <- cosineSimilarity queryVector (c_vector item) ;;
  Ok {| id := c_id item; similarity := s; data := c_data item |}.

(** [(a, b) => b.similarity - a.similarity]. *)
Definition bySimilarityDesc {D : Type} (a b : Scored D) : float :=
  (similarity b - similarity a)%float.

Definition defaultK : Z := 10.

Definition findTopKSimilar {D : Type}
  (queryVector : vector) (vectors : list (Candidate D)) (k : Z)
  : Result (list (Scored D)) :=
  similarities <- mapM (score queryVector) vectors ;;
  Ok (slice0 (sort bySimilarityDesc similarities) k).

Definition defaultThreshold : float := 0.95%float.

(** One turn of the [for ... of] loop of [filterSimilarResults]. *)
Definition filterStep {T : Type} (similarity : T -> float) (threshold : float)
  (filtered : list T) (result : T) : list T :=
  let isDuplicate :=
    existsb (fun existing =>
               (abs (similarity existing - similarity result) <? 1 - threshold)%float)
            filtered in
  if isDuplicate then filtered else filtered ++ [result].

Definition filterSimilarResults {T : Type} (similarity : T -> float)
  (results : list T) (threshold : float) : list T :=
  fold_left (filterStep similarity threshold) results [].

(** [[name, brand, category, description || ''].filter(Boolean).join(' ')]. *)
Definition combineProductFields (name description category brand : string) : string :=
  join " " (filter truthy [name; brand; category; description]).

(** [vector.reduce((sum, val) => sum + val * val, 0)]. *)
Definition sumOfSquares (vector : list float) : float :=
  fold_left (fun sum val => (sum + val * val)%float) vector 0%float.

Definition normalizeVector (vector : list float) : list float :=
  let norm := sqrt (sumOfSquares vector) in
  if (norm =? 0)%float then vector
  else map (fun val => (val / norm)%float) vector.

(** The inner loop of [averageVectors]: [avgVector[i] += vector[i]] for
    every index of [avgVector].  Reading past the end of [vector] gives
    [undefined], and a number plus [undefined] is [NaN]. *)
Fixpoint addInto (avgVector vector : list float) : list float :=
  match avgVector with
  | [] => []
  | a :: avgVector' =>
      (a + match vector with v :: _ => v | [] => nan end)%float
      :: addInto avgVector' (tl vector)
  end.

(** A length as a [number]. *)
Definition ofLength (n : nat) : float :=
  SF2Prim (binary_normalize prec emax (Z.of_nat n) 0 false).

Definition averageVectors (vectors : list vector) : vector :=
  match vectors with
  | [] => []
  | first :: _ =>
      let avgVector :=
        fold_left addInto vectors (repeat 0%float (List.length first)) in
      map (fun val => (val / ofLength (List.length vectors))%float) avgVector
  end.

(** The loop of [euclideanDistance]: the running sum of squared
    differences. *)
Fixpoint squaredDifferences (vecA vecB : vector) (sum : float) : float :=
  match vecA, vecB with
  | a :: vecA', b :: vecB' =>
      let diff := (a - b)%float in
      squaredDifferences vecA' vecB' (sum + diff * diff)%float
  | _, _ => sum
  end.

Definition euclideanDistance (vecA vecB : vector) : Result float :=
  if negb (List.length vecA =? List.length vecB)%nat then Throw DimensionMismatch
  else Ok (sqrt (squaredDifferences vecA vecB 0%float)).

End Vectorize.

(* ===================================================================== *)
(** * db/schema.ts: the products table                                    *)
(* ===================================================================== *)

Module Schema.

(** A row of [products].  The columns that the search core neither reads
    nor writes (price, stock quantity, image URLs, [createdAt]) are left
    out.  [vectorEmbedding] is the nullable JSON column typed [number[]],
    [updatedAt] the ISO timestamp that every update of the embedding
    writes as well. *)
Record Product : Type :=
  { id : string;
    name : string;
    description : string;
    category : string;
    brand : string;
    status : string;
    vectorEmbedding : option (list float);
    updatedAt : string }.

(** [text('status', { enum: ['in_stock', 'out_of_stock', 'pre_order'] })]. *)
Definition statusEnum : list string :=
  ["in_stock"; "out_of_stock"; "pre_order"]%string.

Definition statusInEnum (p : Product) : bool :=
  existsb (String.eqb (status p)) statusEnum.

(** [.set({ vectorEmbedding: embedding, updatedAt: ... })] on a row. *)
Definition withEmbedding (p : Product) (embedding : list float) (updatedAt : string)
  : Product :=
  {| id := id p; name := name p; description := description p;
     category := category p; brand := brand p; status := status p;
     vectorEmbedding := Some embedding; updatedAt := updatedAt |}.

End Schema.

(* ===================================================================== *)
(** * The query builder (drizzle-orm) and the store (SQLite)              *)
(* ===================================================================== *)

Module Drizzle.
Import Schema.

Inductive Column : Type := Status | Category | Brand | Name | Description.

Definition column (c : Column) (row : Product) : string :=
  match c with
  | Status => status row
  | Category => category row
  | Brand => brand row
  | Name => name row
  | Description => description row
  end.

(** A condition is rendered as SQL text: comparisons joined by the
    keywords [and] and [OR].  [eq(col, v)] renders [col = ?].
    [and(c1, ..., cn)] renders [(c1 and ... and cn)]: its arguments, as
    they are rendered, with [ and ] between them, inside one pair of
    parentheses; a raw [sql`...`] fragment is inlined as it is written,
    without parentheses of its own.  A rendered condition is kept here as
    its sequence of comparisons and keywords; the outer parentheses do not
    matter to a condition that is the whole [WHERE] clause. *)
Inductive Token : Type :=
| Equals (c : Column) (v : string)
| Like (c : Column) (pattern : string)
| AND
| OR.

Definition SQL : Type := list Token.

Definition eq (c : Column) (v : string) : SQL := [Equals c v].

Fixpoint and_ (conditions : list SQL) : SQL :=
  match conditions with
  | [] => []
  | [c] => c
  | c :: rest => c ++ AND :: and_ rest
  end.

(** The SQLite [LIKE] operator: [%] matches any run of characters, [_]
    any one character, letters compare case-insensitively (ASCII). *)
Fixpoint like (pattern : string) : string -> bool :=
  match pattern with
  | EmptyString => fun s => match s with EmptyString => true | _ => false end
  | String "%" pattern' =>
      fix star (s : string) : bool :=
        like pattern' s ||
        match s with
        | EmptyString => false
        | String _ s' => star s'
        end
  | String "_" pattern' =>
      fun s => match s with
               | EmptyString => false
               | String _ s' => like pattern' s'
               end
  | String c pattern' =>
      fun s => match s with
               | EmptyString => false
               | String d s' =>
                   Ascii.eqb (Js.lower_char c) (Js.lower_char d) && like pattern' s'
               end
  end.

(** SQLite gives [AND] precedence over [OR]: the text reads as a
    disjunction of conjunctions of comparisons.  [disjuncts w []] is the
    list of these conjunctions. *)
Fixpoint disjuncts (w : SQL) (current : list Token) : list (list Token) :=
  match w with
  | [] => [rev current]
  | OR :: w' => rev current :: disjuncts w' []
  | AND :: w' => disjuncts w' current
  | t :: w' => disjuncts w' (t :: current)
  end.

Definition comparison (row : Product) (t : Token) : bool :=
  match t with
  | Equals c v => String.eqb (column c row) v
  | Like c pattern => like pattern (column c row)
  | AND | OR => true
  end.

Definition holds (w : SQL) (row : Product) : bool :=
  existsb (forallb (comparison row)) (disjuncts w []).

(** [db.select().from(products).where(w).all()], in table order, and the
    same with [.limit(n)]. *)
Definition select (w : SQL) (table : list Product) : list Product :=
  filter (holds w) table.

Definition selectLimit (w : SQL) (n : Z) (table : list Product) : list Product :=
  firstn (Z.to_nat n) (select w table).

End Drizzle.

(* ===================================================================== *)
(** * utils/ai-validation.ts                                              *)
(* ===================================================================== *)

Module AiValidation.
Import Js.
Local Open Scope string_scope.

Fixpoint prefix_ci (p s : string) : bool :=
  match p, s with
  | EmptyString, _ => true
  | String a p', String b s' =>
      Ascii.eqb (lower_char a) (lower_char b) && prefix_ci p' s'
  | String _ _, EmptyString => false
  end.

Fixpoint drop (n : nat) (s : string) : string :=
  match n, s with
  | S n', String _ s' => drop n' s'
  | _, _ => s
  end.

Definition startsWithWord (s : string) : bool :=
  match s with
  | String c _ => is_word c
  | EmptyString => false
  end.

(** [replace(/\s+/g, ' ')]. *)
Fixpoint collapseSpaces (inRun : bool) (s : string) : string :=
  match s with
  | EmptyString => EmptyString
  | String c s' =>
      if is_space c then
        if inRun then collapseSpaces true s' else String " " (collapseSpaces true s')
      else String c (collapseSpaces false s')
  end.

Definition sqlKeywords : list string :=
  ["SELECT"; "INSERT"; "UPDATE"; "DELETE"; "DROP"; "CREATE"; "ALTER"].

(** The length of the keyword that [(SELECT|...|ALTER)\b] matches at the
    head of [s], if any. *)
Definition keywordAt (s : string) : option nat :=
  option_map String.length
    (find (fun kw => prefix_ci kw s && negb (startsWithWord (drop (String.length kw) s)))
          sqlKeywords).

(** [replace(/(\b(SELECT|...|ALTER)\b)/gi, '')]: [skip] counts the
    characters of a match still to be dropped, [prevWord] tells whether
    the previous character is a word character. *)
Fixpoint removeKeywords (skip : nat) (prevWord : bool) (s : string) : string :=
  match s with
  | EmptyString => EmptyString
  | String c s' =>
      match skip with
      | S n => removeKeywords n (is_word c) s'
      | O =>
          match (if prevWord then None else keywordAt s) with
          | Some len => removeKeywords (len - 1) (is_word c) s'
          | None => String c (removeKeywords 0 (is_word c) s')
          end
      end
  end.

(** The index of the first [</script>] in [s]. *)
Fixpoint findClose (s : string) (i : nat) : option nat :=
  if prefix_ci "</script>" s then Some i
  else match s with
       | EmptyString => None
       | String _ s' => findClose s' (S i)
       end.

(** The length of the match of the script-tag pattern at the head of [s]:
    [<script], a word boundary, then everything up to and including the
    first closing tag (the pattern cannot step over a closing tag). *)
Definition scriptAt (s : string) : option nat :=
  if prefix_ci "<script" s then
    let r := drop 7 s in
    if startsWithWord r then None
    else option_map (fun i => 7 + i + 9)%nat (findClose r 0)
  else None.

Fixpoint removeScripts (skip : nat) (s : string) : string :=
  match s with
  | EmptyString => EmptyString
  | String c s' =>
      match skip with
      | S n => removeScripts n s'
      | O =>
          match scriptAt s with
          | Some len => removeScripts (len - 1) s'
          | None => String c (removeScripts 0 s')
          end
      end
  end.

Definition sanitizePrompt (text : string) : string :=
  let sanitized := collapseSpaces false (trim text) in
  let sanitized := removeKeywords 0 false sanitized in
  removeScripts 0 sanitized.

(** What the handler hands to [semanticSearchSchema.parse].  An absent
    field is [None]; a [number] field holding [NaN] is [Some None] for the
    integer-valued [limit] and [Some nan] for [minSimilarity]. *)
Record SearchInput : Type :=
  { in_query : string;
    in_limit : option (option Z);
    in_minSimilarity : option float;
    in_category : option string;
    in_brand : option string }.

(** [SemanticSearchRequest], the parsed value. *)
Record SemanticSearchRequest : Type :=
  { query : string;
    limit : Z;
    minSimilarity : float;
    category : option string;
    brand : option string }.

Definition queryIssues (q : string) : list string :=
  ((if (String.length q <? 1)%nat then ["Search query cannot be empty"] else [])
   ++ (if (500 <? String.length q)%nat then ["Search query is too long"] else []))%list.

(** [z.number().int().positive().max(50, ...)]: every value of [Z] is an
    integer, [NaN] is not a number. *)
Definition limitIssues (l : option Z) : list string :=
  match l with
  | None => ["Expected number, received nan"]
  | Some n =>
      ((if (n <=? 0)%Z then ["Number must be greater than 0"] else [])
       ++ (if (50 <? n)%Z then ["Limit cannot exceed 50"] else []))%list
  end.

(** [z.number().min(0).max(1)]. *)
Definition minSimilarityIssues (x : float) : list string :=
  if is_nan x then ["Expected number, received nan"]
  else
    ((if (x <? 0)%float then ["Number must be greater than or equal to 0"] else [])
     ++ (if (1 <? x)%float then ["Number must be less than or equal to 1"] else []))%list.

Definition semanticSearchSchema_parse (input : SearchInput)
  : Result SemanticSearchRequest :=
  let l := match in_limit input with Some l => l | None => Some 10%Z end in
  let m := match in_minSimilarity input with Some m => m | None => 0.5%float end in
  match (queryIssues (in_query input) ++ limitIssues l ++ minSimilarityIssues m)%list, l with
  | [], Some n =>
      Ok {| query := sanitizePrompt (in_query input);
            limit := n;
            minSimilarity := m;
            category := in_category input;
            brand := in_brand input |}
  | issues, _ => Throw (ZodError issues)
  end.

End AiValidation.

(* ===================================================================== *)
(** * services/gemini.ts                                                  *)
(* ===================================================================== *)

Module Gemini.
Import Js.

(** [model.embedContent(text)] of the external provider, with the API key
    it is called with: a vector, or a rejection. *)
Definition Provider : Type := string -> Result (list float).

Definition generateEmbedding (provider : Provider) (text : string)
  : Result (list float) :=
  provider text.

(** [Promise.all(texts.map(embedContent))]: one rejected request rejects
    the whole batch. *)
Definition generateBatchEmbeddings (provider : Provider) (texts : list string)
  : Result (list (list float)) :=
  mapM provider texts.

End Gemini.

(* ===================================================================== *)
(** * routes/search.ts: GET /api/search                                   *)
(* ===================================================================== *)

Module SearchRoute.
Import Js.
Local Open Scope string_scope.

(** [c.req.query()]: the raw query parameters. *)
Record RawQuery : Type :=
  { raw_query : option string;
    raw_limit : option string;
    raw_minSimilarity : option string;
    raw_category : option string;
    raw_brand : option string }.

(** What the handler can reach: the embedding provider and the catalog. *)
Record Env : Type :=
  { provider : Gemini.Provider;
    catalog : list Schema.Product }.

Inductive Method : Type := hybrid | keyword | keyword_fallback.

(** An entry of [products] in the response: the row, with a [similarity]
    field on the main path and without one on the fallback path. *)
Record Item : Type :=
  { product : Schema.Product;
    itemSimilarity : option float }.

(** The [data] of a [{ success: true, data }] response. *)
Record SearchData : Type :=
  { products : list Item;
    total : nat;
    method : Method }.

(** The requests that leave the handler, in order. *)
Inductive Call : Type :=
| EmbedContent (text : string)
| SelectProducts (where_ : Drizzle.SQL) (limit : option Z)
| InsertSearchLog (userId : string) (queryText : string) (relatedProductIds : list string).

(** [x ? f(x) : d] on a query parameter: absent and [''] are falsy. *)
Definition orDefault {A : Type} (x : option string) (f : string -> A) (d : A) : A :=
  match x with
  | Some s => if truthy s then f s else d
  | None => d
  end.

Definition searchInput (q : RawQuery) : AiValidation.SearchInput :=
  {| AiValidation.in_query := orDefault (raw_query q) (fun s => s) "";
     AiValidation.in_limit := Some (orDefault (raw_limit q) parseInt (Some 10%Z));
     AiValidation.in_minSimilarity :=
       Some (orDefault (raw_minSimilarity q) parseFloat 0.5%float);
     AiValidation.in_category := raw_category q;
     AiValidation.in_brand := raw_brand q |}.

(** [if (validated.category) conditions.push(eq(products.category, ...))]. *)
Definition optionalEq (c : Drizzle.Column) (v : option string) : list Drizzle.SQL :=
  match v with
  | Some s => if truthy s then [Drizzle.eq c s] else []
  | None => []
  end.

Definition conditions (validated : AiValidation.SemanticSearchRequest)
  : list Drizzle.SQL :=
  [Drizzle.eq Drizzle.Status "active"]
  ++ optionalEq Drizzle.Category (AiValidation.category validated)
  ++ optionalEq Drizzle.Brand (AiValidation.brand validated).

Definition candidateWhere (validated : AiValidation.SemanticSearchRequest)
  : Drizzle.SQL :=
  Drizzle.and_ (conditions validated).

Definition keywordQuery (validated : AiValidation.SemanticSearchRequest) : string :=
  "%" ++ AiValidation.query validated ++ "%".

(** [and(...conditions, sql`name LIKE q OR description LIKE q`)]: the
    raw fragment is the last argument of [and], so that the text is
    [(status = ? and ... and name LIKE ? OR description LIKE ?)]. *)
Definition fallbackWhere (validated : AiValidation.SemanticSearchRequest)
  : Drizzle.SQL :=
  Drizzle.and_
    (conditions validated
     ++ [[Drizzle.Like Drizzle.Name (keywordQuery validated);
          Drizzle.OR;
          Drizzle.Like Drizzle.Description (keywordQuery validated)]]).

(** [p.vectorEmbedding && Array.isArray(p.vectorEmbedding)]. *)
Definition hasVector (p : Schema.Product) : bool :=
  match Schema.vectorEmbedding p with
  | Some _ => true
  | None => false
  end.

(** [p.vectorEmbedding as number[]]: the stored array. *)
Definition storedVector (p : Schema.Product) : list float :=
  match Schema.vectorEmbedding p with
  | Some v => v
  | None => []
  end.

(** Step 3: the rows that hold an embedding, as candidates. *)
Definition productsWithVectors (allProducts : list Schema.Product)
  : list (Vectorize.Candidate Schema.Product) :=
  map (fun p => {| Vectorize.c_id := Schema.id p;
                   Vectorize.c_vector := storedVector p;
                   Vectorize.c_data := p |})
      (filter hasVector allProducts).

(** [!p.vectorEmbedding]. *)
Definition lacksVector (p : Schema.Product) : bool :=
  match Schema.vectorEmbedding p with
  | Some _ => false
  | None => true
  end.

Definition matchesKeyword (q : string) (p : Schema.Product) : bool :=
  includes (toLowerCase (Schema.name p)) (toLowerCase q)
  || includes (toLowerCase (Schema.description p)) (toLowerCase q)
  || includes (toLowerCase (Schema.category p)) (toLowerCase q)
  || includes (toLowerCase (Schema.brand p)) (toLowerCase q).

(** Step 4. *)
Definition keywordResults (validated : AiValidation.SemanticSearchRequest)
  (allProducts : list Schema.Product) : list Schema.Product :=
  filter (matchesKeyword (AiValidation.query validated))
         (filter lacksVector allProducts).

(** [findTopKSimilar(...).filter(r => r.similarity >= minSimilarity)]. *)
Definition aboveThreshold (validated : AiValidation.SemanticSearchRequest)
  (r : Vectorize.Scored Schema.Product) : bool :=
  (AiValidation.minSimilarity validated <=? Vectorize.similarity r)%float.

(** [vectorProductIds.has(id)] on the [Set] of the vector results' ids. *)
Definition has (ids : list string) (i : string) : bool :=
  existsb (String.eqb i) ids.

Definition keywordScore : float := 0.3%float.

(** [{ ...r.data, similarity: r.similarity }] and [{ ...p, similarity: 0.3 }]. *)
Definition vectorItem (r : Vectorize.Scored Schema.Product) : Item :=
  {| product := Vectorize.data r;
     itemSimilarity := Some (Vectorize.similarity r) |}.

Definition keywordItem (p : Schema.Product) : Item :=
  {| product := p; itemSimilarity := Some keywordScore |}.

(** Step 5. *)
Definition combine (validated : AiValidation.SemanticSearchRequest)
  (vectorResults : list (Vectorize.Scored Schema.Product))
  (keywordResults : list Schema.Product) : list Item :=
  let vectorProductIds := map Vectorize.id vectorResults in
  slice0
    (map vectorItem vectorResults
     ++ map keywordItem
            (filter (fun p => negb (has vectorProductIds (Schema.id p)))
                    keywordResults))%list
    (AiValidation.limit validated).

Definition logCalls (auth : option string)
  (validated : AiValidation.SemanticSearchRequest) (combinedResults : list Item)
  : list Call :=
  match auth with
  | Some userId =>
      [InsertSearchLog userId (AiValidation.query validated)
         (map (fun i => Schema.id (product i)) combinedResults)]
  | None => []
  end.

(** Step 2: the candidate pool, [allProducts] in the source. *)
Definition allProducts (env : Env) (validated : AiValidation.SemanticSearchRequest)
  : list Schema.Product :=
  Drizzle.select (candidateWhere validated) (catalog env).

(** The body of [try]: the calls made, and the response or what is thrown. *)
Definition tryBlock (env : Env) (auth : option string)
  (validated : AiValidation.SemanticSearchRequest)
  : list Call * Result SearchData :=
  let embed := EmbedContent (AiValidation.query validated) in
  match Gemini.generateEmbedding (provider env) (AiValidation.query validated) with
  | Throw e => ([embed], Throw e)
  | Ok queryVector =>
      let selectAll := SelectProducts (candidateWhere validated) None in
      let allProducts := allProducts env validated in
      match Vectorize.findTopKSimilar queryVector (productsWithVectors allProducts)
              (AiValidation.limit validated * 2) with
      | Throw e => ([embed; selectAll], Throw e)
      | Ok top =>
          let vectorResults := filter (aboveThreshold validated) top in
          let combinedResults :=
            combine validated vectorResults (keywordResults validated allProducts) in
          (([embed; selectAll] ++ logCalls auth validated combinedResults)%list,
           Ok {| products := combinedResults;
                 total := List.length combinedResults;
                 method := match vectorResults with [] => keyword | _ => hybrid end |})
      end
  end.

(** The body of [catch]. *)
Definition fallback (env : Env) (validated : AiValidation.SemanticSearchRequest)
  : list Call * SearchData :=
  let fallbackResults :=
    Drizzle.selectLimit (fallbackWhere validated) (AiValidation.limit validated)
      (catalog env) in
  ([SelectProducts (fallbackWhere validated) (Some (AiValidation.limit validated))],
   {| products := map (fun p => {| product := p; itemSimilarity := None |})
                      fallbackResults;
      total := List.length fallbackResults;
      method := keyword_fallback |}).

(** The handler: [auth] is the identity that [optionalAuth] attached, if any. *)
Definition handler (env : Env) (auth : option string) (q : RawQuery)
  : list Call * Result SearchData :=
  match AiValidation.semanticSearchSchema_parse (searchInput q) with
  | Throw e => ([], Throw e)
  | Ok validated =>
      match tryBlock env auth validated with
      | (calls, Ok response) => (calls, Ok response)
      | (calls, Throw _) =>
          let '(calls', response) := fallback env validated in
          ((calls ++ calls')%list, Ok response)
      end
  end.

End SearchRoute.

(* ===================================================================== *)
(** * scripts/vectorize-products.ts                                       *)
(* ===================================================================== *)

Module VectorizeProducts.
Import Js.

Definition batchSize : nat := 10.

(** [db.update(products).set({ vectorEmbedding, updatedAt })
    .where(eq(products.id, id))]. *)
Definition update (db : list Schema.Product) (id : string) (embedding : list float)
  (updatedAt : string) : list Schema.Product :=
  map (fun p => if String.eqb (Schema.id p) id
                then Schema.withEmbedding p embedding updatedAt else p) db.

(** [new Date().toISOString()] during a run: the timestamp that the
    update numbered [n] of the run reads (the first one is numbered 0). *)
Definition Clock : Type := nat -> string.

Record Run : Type :=
  { db : list Schema.Product;
    processedCount : nat }.

(** The loop over [j]: one update per product of the batch.  The count
    of processed products is also the number of updates made so far. *)
Fixpoint persist (clock : Clock) (st : Run) (batchProducts : list Schema.Product)
  (embeddings : list (list float)) : Run :=
  match batchProducts, embeddings with
  | product :: ps, embedding :: es =>
      persist clock
        {| db := update (db st) (Schema.id product) embedding
                   (clock (processedCount st));
           processedCount := S (processedCount st) |} ps es
  | _, _ => st
  end.

(** One turn of the loop over [i]: the [try] and its [catch]. *)
Definition processBatch (clock : Clock) (provider : Gemini.Provider) (st : Run)
  (batch : list string) (batchProducts : list Schema.Product) : Run :=
  match Gemini.generateBatchEmbeddings provider batch with
  | Ok embeddings => persist clock st batchProducts embeddings
  | Throw _ => st
  end.

Definition lacksEmbedding (p : Schema.Product) : bool :=
  match Schema.vectorEmbedding p with
  | Some _ => false
  | None => true
  end.

Definition productText (p : Schema.Product) : string :=
  Vectorize.combineProductFields (Schema.name p) (Schema.description p)
    (Schema.category p) (Schema.brand p).

(** The values of [i] that the loop [for (i = 0; i < n; i += batchSize)]
    takes. *)
Definition batchStarts (n : nat) : list nat :=
  map (fun b => b * batchSize) (seq 0 ((n + batchSize - 1) / batchSize)).

(** What a run reports: the store it leaves, and "Processed: x/y". *)
Record Report : Type :=
  { finalDb : list Schema.Product;
    processed : nat;
    found : nat }.

Definition vectorizeProducts (clock : Clock) (provider : Gemini.Provider)
  (store : list Schema.Product) : Report :=
  let productsToVectorize := filter lacksEmbedding store in
  let productTexts := map productText productsToVectorize in
  let final :=
    fold_left
      (fun st i =>
         processBatch clock provider st
           (slice productTexts i (i + batchSize))
           (slice productsToVectorize i (i + batchSize)))
      (batchStarts (List.length productTexts))
      {| db := store; processedCount := 0 |} in
  {| finalDb := db final;
     processed := processedCount final;
     found := List.length productsToVectorize |}.

End VectorizeProducts.

(* ===================================================================== *)
(** * middleware/error-handler.ts                                         *)
(* ===================================================================== *)

Module ErrorHandler.

Inductive ErrorCode : Type :=
| UNAUTHORIZED
| FORBIDDEN
| NOT_FOUND
| VALIDATION_ERROR
| CONFLICT
| INTERNAL_ERROR
| DATABASE_ERROR
| RATE_LIMIT_EXCEEDED.

Definition ERROR_CODES (code : ErrorCode) : Z :=
  match code with
  | UNAUTHORIZED => 401
  | FORBIDDEN => 403
  | NOT_FOUND => 404
  | VALIDATION_ERROR => 400
  | CONFLICT => 409
  | INTERNAL_ERROR => 500
  | DATABASE_ERROR => 500
  | RATE_LIMIT_EXCEEDED => 429
  end.

(** [new AppError(code, message)]. *)
Record AppError : Type :=
  { code : ErrorCode;
    message : string }.

(** [ERROR_CODES[this.code] || 500]. *)
Definition getStatusCode (err : AppError) : Z :=
  let status := ERROR_CODES (code err) in
  if (status =? 0)%Z then 500%Z else status.

End ErrorHandler.

(* ===================================================================== *)
(** * routes/search.ts: POST /api/search/vectorize                        *)
(* ===================================================================== *)

Module VectorizeRoute.
Import Js.
Local Open Scope string_scope.

(** The JSON body, and [VectorizeProductRequest], the parsed value. *)
Record VectorizeInput : Type :=
  { in_productId : string;
    in_forceRegenerate : option bool }.

Record VectorizeProductRequest : Type :=
  { productId : string;
    forceRegenerate : bool }.

(** What the handler throws: an [AppError] of its own, or the error of a
    call that it does not catch. *)
Inductive Thrown : Type :=
| AppThrown (err : ErrorHandler.AppError)
| Failure (err : Error).

(** The [data] of the two success responses. *)
Inductive VectorizeData : Type :=
| AlreadyVectorized (productId : string)
| Vectorized (productId : string) (vectorLength : nat).

(** What a request leaves behind: the store, the texts sent to the
    provider, and the response or what is thrown. *)
Record Outcome : Type :=
  { store : list Schema.Product;
    embedCalls : list string;
    response : Thrown + VectorizeData }.

Section Route.

(** The test of [z.string().uuid()]. *)
Variable uuid : string -> bool.

Definition vectorizeProductSchema_parse (input : VectorizeInput)
  : Result VectorizeProductRequest :=
  if uuid (in_productId input) then
    Ok {| productId := in_productId input;
          forceRegenerate := match in_forceRegenerate input with
                             | Some b => b
                             | None => false
                             end |}
  else Throw (ZodError ["Invalid product ID"]).

(** [db.select().from(products).where(eq(products.id, id)).get()]. *)
Definition get (id : string) (table : list Schema.Product) : option Schema.Product :=
  find (fun p => String.eqb (Schema.id p) id) table.

(** The handler; [now] is what [new Date().toISOString()] answers. *)
Definition handler (provider : Gemini.Provider) (now : string)
  (catalog : list Schema.Product) (body : VectorizeInput) : Outcome :=
  match vectorizeProductSchema_parse body with
  | Throw e => {| store := catalog; embedCalls := []; response := inl (Failure e) |}
  | Ok validated =>
      match get (productId validated) catalog with
      | None =>
          {| store := catalog; embedCalls := [];
             response := inl (AppThrown {| ErrorHandler.code := ErrorHandler.NOT_FOUND;
                                           ErrorHandler.message := "Product not found" |}) |}
      | Some product =>
          if SearchRoute.hasVector product && negb (forceRegenerate validated) then
            {| store := catalog; embedCalls := [];
               response := inr (AlreadyVectorized (Schema.id product)) |}
          else
            let productText := VectorizeProducts.productText product in
            match Gemini.generateEmbedding provider productText with
            | Throw e =>
                {| store := catalog; embedCalls := [productText];
                   response := inl (Failure e) |}
            | Ok embedding =>
                {| store := VectorizeProducts.update catalog (productId validated)
                              embedding now;
                   embedCalls := [productText];
                   response := inr (Vectorized (Schema.id product)
                                      (List.length embedding)) |}
            end
      end
  end.

End Route.

End VectorizeRoute.

(* ===================================================================== *)
(** * middleware/rate-limit.ts                                            *)
(* ===================================================================== *)

Module RateLimit.
Local Open Scope Z_scope.

Record Entry : Type :=
  { count : Z;
    resetTime : Z }.

(** [rateLimitStore], a [Map] from keys to entries, as what [get]
    answers; [set] and [delete] change the answer for one key. *)
Definition Store : Type := string -> option Entry.

Definition empty : Store := fun _ => None.

Definition set (key : string) (value : Entry) (store : Store) : Store :=
  fun k => if String.eqb k key then Some value else store k.

Record RateLimitConfig : Type :=
  { windowMs : Z;
    maxRequests : Z }.

Definition AI_RATE_LIMIT : RateLimitConfig :=
  {| windowMs := 15 * 60 * 1000; maxRequests := 20 |}.

Definition SEARCH_RATE_LIMIT : RateLimitConfig :=
  {| windowMs := 60 * 1000; maxRequests := 60 |}.

(** [cleanupExpiredEntries], with [now] the value of [Date.now()]. *)
Definition cleanupExpiredEntries (now : Z) (store : Store) : Store :=
  fun k =>
    match store k with
    | Some value => if now >? resetTime value then None else Some value
    | None => None
    end.

(** [{ allowed, remaining, resetTime }]. *)
Record Decision : Type :=
  { allowed : bool;
    remaining : Z;
    reset : Z }.

Definition checkRateLimit (store : Store) (now : Z) (userId : string)
  (config : RateLimitConfig) : Store * Decision :=
  let newWindow :=
    let resetTime := now + windowMs config in
    (set userId {| count := 1; resetTime := resetTime |} store,
     {| allowed := true; remaining := maxRequests config - 1; reset := resetTime |}) in
  match store userId with
  | None => newWindow
  | Some userLimit =>
      if now >? resetTime userLimit then newWindow
      else if count userLimit >=? maxRequests config then
        (store, {| allowed := false; remaining := 0; reset := resetTime userLimit |})
      else
        let userLimit' :=
          {| count := count userLimit + 1; resetTime := resetTime userLimit |} in
        (set userId userLimit' store,
         {| allowed := true;
            remaining := maxRequests config - count userLimit';
            reset := resetTime userLimit |})
  end.

End RateLimit.

(* ===================================================================== *)
(** * Notions used to state the properties                                *)
(* ===================================================================== *)

Module FloatOrder.
Local Open Scope Z_scope.

(** A rounded result that is not zero and has the sign [s]. *)
Definition signed_nonzero (s : bool) (x : spec_float) : Prop :=
  match x with
  | S754_finite s' _ _ | S754_infinity s' => s' = s
  | _ => False
  end.

Definition SFzero : spec_float := S754_zero false.

(** A key whose lexicographic order is the order of the non-NaN values. *)
Definition rank (x : spec_float) : Z * Z * Z :=
  match x with
  | S754_zero _ => (0, 0, 0)
  | S754_infinity false => (2, 0, 0)
  | S754_infinity true => (-2, 0, 0)
  | S754_nan => (0, 0, 0)
  | S754_finite false m e => (1, e, Z.pos m)
  | S754_finite true m e => (-1, - e, Z.neg m)
  end.

Definition lex3 (a b : Z * Z * Z) : comparison :=
  let '(a1, a2, a3) := a in
  let '(b1, b2, b3) := b in
  match a1 ?= b1 with
  | Eq => match a2 ?= b2 with
          | Eq => a3 ?= b3
          | c => c
          end
  | c => c
  end.

Definition is_number (x : spec_float) : bool :=
  match x with S754_nan => false | _ => true end.

Definition lexle (a b : Z * Z * Z) : Prop :=
  let '(a1, a2, a3) := a in
  let '(b1, b2, b3) := b in
  a1 < b1 \/ (a1 = b1 /\ (a2 < b2 \/ (a2 = b2 /\ a3 <= b3))).

Definition lexlt (a b : Z * Z * Z) : Prop :=
  let '(a1, a2, a3) := a in
  let '(b1, b2, b3) := b in
  a1 < b1 \/ (a1 = b1 /\ (a2 < b2 \/ (a2 = b2 /\ a3 < b3))).

End FloatOrder.

Module Ranking.
Import Vectorize.

(** Consecutive entries [a], [b] of a ranking: [b] does not score
    strictly higher than [a]. *)
Definition noAscent {D : Type} (a b : Scored D) : Prop :=
  (similarity a <? similarity b)%float = false.

(** [a] scores at least as high as [b]. *)
Definition atLeast {D : Type} (a b : Scored D) : Prop :=
  (similarity b <=? similarity a)%float = true.

(** The score is a number. *)
Definition numeric {D : Type} (r : Scored D) : Prop :=
  is_nan (similarity r) = false.

(** The Euclidean norm as [cosineSimilarity] computes it: the square root
    of the running sum of squares. *)
Definition euclideanNorm (v : vector) : float :=
  sqrt (fold_left (fun s x => (s + x * x)%float) v 0%float).

(** [isDuplicate] of [filterSimilarResults]: some kept score lies strictly
    within [1 - threshold] of [s]. *)
Definition tooClose (threshold : float) (kept : list float) (s : float) : bool :=
  existsb (fun e => (abs (e - s) <? 1 - threshold)%float) kept.

End Ranking.

Module Requests.
Import Js SearchRoute.

(** The three ways in which a request is invalid: the query is absent or
    empty; the limit that the handler reads is not a positive integer up
    to 50 (it is not positive, or above 50, or not a number at all); the
    threshold that it reads is not within [0, 1]. *)
Definition emptyQuery (q : RawQuery) : Prop :=
  orDefault (raw_query q) (fun s => s) EmptyString = EmptyString.

Definition limitOutOfRange (q : RawQuery) : Prop :=
  forall n, orDefault (raw_limit q) parseInt (Some 10%Z) = Some n ->
            (n <= 0 \/ 50 < n)%Z.

Definition withinUnitInterval (m : float) : bool :=
  (0 <=? m)%float && (m <=? 1)%float.

Definition thresholdOutOfRange (q : RawQuery) : Prop :=
  withinUnitInterval (orDefault (raw_minSimilarity q) parseFloat 0.5%float) = false.

(** The score that an entry of the response carries. *)
Definition scoreOf (i : Item) : float :=
  match itemSimilarity i with
  | Some s => s
  | None => nan
  end.

(** Orders on the entries of a response, as on rankings. *)
Definition itemNoAscent (a b : Item) : Prop :=
  (scoreOf a <? scoreOf b)%float = false.

Definition itemAtLeast (a b : Item) : Prop :=
  (scoreOf b <=? scoreOf a)%float = true.

Definition itemId (i : Item) : string := Schema.id (product i).

(** The pattern of the fallback query matches the name or the description. *)
Definition matchesPattern (validated : AiValidation.SemanticSearchRequest)
  (p : Schema.Product) : bool :=
  Drizzle.like (keywordQuery validated) (Schema.name p)
  || Drizzle.like (keywordQuery validated) (Schema.description p).

End Requests.

Module Selection.
Import Vectorize.

(** [sub] is [l] with some entries left out, the others in their order. *)
Inductive Subsequence {A : Type} : list A -> list A -> Prop :=
| sub_nil : Subsequence [] []
| sub_keep (x : A) (sub l : list A) : Subsequence sub l -> Subsequence (x :: sub) (x :: l)
| sub_drop (x : A) (sub l : list A) : Subsequence sub l -> Subsequence sub (x :: l).

(** The test of [filterSimilarResults] between an earlier entry and a
    later one: their scores are not strictly within [1 - threshold]. *)
Definition apart {T : Type} (similarity : T -> float) (threshold : float)
  (existing result : T) : Prop :=
  (abs (similarity existing - similarity result) <? 1 - threshold)%float = false.

(** Every earlier entry is apart from every later one. *)
Definition separated {T : Type} (similarity : T -> float) (threshold : float)
  (l : list T) : Prop :=
  ForallOrdPairs (apart similarity threshold) l.

(** The entries that score exactly [s]. *)
Definition scoring {D : Type} (s : float) (r : Scored D) : bool :=
  (similarity r =? s)%float.

(** The cosine similarity of the candidate to the query is a number. *)
Definition numericScore {D : Type} (queryVector : vector) (c : Candidate D) : Prop :=
  forall x, cosineSimilarity queryVector (c_vector c) = Js.Ok x -> is_nan x = false.

(** The candidates whose cosine similarity to the query is exactly [s]. *)
Definition candidateScoring {D : Type} (queryVector : vector) (s : float)
  (c : Candidate D) : bool :=
  match cosineSimilarity queryVector (c_vector c) with
  | Js.Ok x => (x =? s)%float
  | Js.Throw _ => false
  end.

End Selection.

Module Traces.
Import Js SearchRoute.

Definition isEmbed (c : Call) : bool :=
  match c with EmbedContent _ => true | _ => false end.

Definition isLog (c : Call) : bool :=
  match c with InsertSearchLog _ _ _ => true | _ => false end.

(** An optional filter of the request accepts the value of a row: an
    absent or empty filter accepts every value. *)
Definition accepts (requested : option string) (actual : string) : bool :=
  match requested with
  | Some s => if truthy s then String.eqb actual s else true
  | None => true
  end.

(** The log entry of a response, for the identity [auth]. *)
Definition expectedLog (auth : option string)
  (validated : AiValidation.SemanticSearchRequest) (response : SearchData)
  : list Call :=
  match method response, auth with
  | keyword_fallback, _ | _, None => []
  | _, Some userId =>
      [InsertSearchLog userId (AiValidation.query validated)
         (map Requests.itemId (products response))]
  end.

End Traces.

Module Patterns.

(** The characters that [LIKE] reads as wild cards. *)
Definition isWildcard (c : ascii) : bool :=
  Ascii.eqb c "%" || Ascii.eqb c "_".

(** A text without wild cards. *)
Fixpoint plain (q : string) : bool :=
  match q with
  | EmptyString => true
  | String c q' => negb (isWildcard c) && plain q'
  end.

End Patterns.

Module Words.
Import Js AiValidation.
Local Open Scope string_scope.

(** The longest prefix of word characters. *)
Fixpoint wordPrefix (s : string) : string :=
  match s with
  | String c s' => if is_word c then String c (wordPrefix s') else EmptyString
  | EmptyString => EmptyString
  end.

(** Equality of two texts, the case of ASCII letters aside. *)
Definition eqb_ci (a b : string) : bool :=
  prefix_ci a b && (String.length b =? String.length a)%nat.

(** The word is one of the seven keywords, in any letter case. *)
Definition isKeyword (w : string) : bool :=
  existsb (fun kw => eqb_ci kw w) sqlKeywords.

(** The text without the words that are keywords: a maximal run of word
    characters is kept as a whole ([keep]) or left out as a whole, every
    other character is kept.  [keep] says what happens to the run that
    the head of [s] is in. *)
Fixpoint dropWords (keep : bool) (s : string) : string :=
  match s with
  | EmptyString => EmptyString
  | String c s' =>
      if is_word c then
        if keep then String c (dropWords keep s') else dropWords keep s'
      else String c (dropWords (negb (isKeyword (wordPrefix s'))) s')
  end.

(** The text consists of word characters. *)
Definition wordChars (kw : string) : Prop :=
  Forall (fun c => is_word c = true) (list_ascii_of_string kw).

Definition withoutKeywords (s : string) : string :=
  dropWords (negb (isKeyword (wordPrefix s))) s.

End Words.

Module Windows.
Import RateLimit.
Local Open Scope Z_scope.

(** Successive calls of [checkRateLimit] for one key, at the given
    values of [Date.now()]: the store they leave and their answers. *)
Fixpoint requests (store : Store) (userId : string) (config : RateLimitConfig)
  (times : list Z) : Store * list Decision :=
  match times with
  | [] => (store, [])
  | now :: times' =>
      let '(store', decision) := checkRateLimit store now userId config in
      let '(final, decisions) := requests store' userId config times' in
      (final, decision :: decisions)
  end.

(** The key has no entry, or an entry whose window is over at [now]. *)
Definition expired (store : Store) (userId : string) (now : Z) : Prop :=
  match store userId with
  | Some entry => resetTime entry < now
  | None => True
  end.

(** The entries of two stores for a key agree from [now] on: they are the
    same, or each of them is absent or expired at [now]. *)
Definition agree (now : Z) (userId : string) (s s' : Store) : Prop :=
  s userId = s' userId \/ (expired s userId now /\ expired s' userId now).

End Windows.

(* ===================================================================== *)
(** * Facts about binary64 arithmetic                                     *)
(* ===================================================================== *)

Module FloatFacts.
Import FloatOrder.
Local Open Scope Z_scope.

Lemma digits2_size (m : positive) : digits2_pos m = Pos.size m.
Proof. induction m; simpl; congruence. Qed.

Lemma digits2_bounds (m : positive) :
  2 ^ (Z.pos (digits2_pos m) - 1) <= Z.pos m < 2 ^ Z.pos (digits2_pos m).
Proof.
  rewrite digits2_size.
  pose proof (Pos.size_gt m) as Hgt. pose proof (Pos.size_le m) as Hle.
  assert (E : Z.pos (2 ^ Pos.size m) = 2 ^ Z.pos (Pos.size m)) by now rewrite Pos2Z.inj_pow.
  split.
  - assert (2 ^ Z.pos (Pos.size m) = 2 * 2 ^ (Z.pos (Pos.size m) - 1)).
    { rewrite <- Z.pow_succ_r by lia. f_equal. lia. }
    lia.
  - lia.
Qed.

(** [shr_1] halves a non-negative mantissa. *)
Lemma shr_1_m (r : shr_record) :
  0 <= shr_m r -> shr_m (shr_1 r) = Z.shiftr (shr_m r) 1.
Proof.
  destruct r as [m b s]; simpl. intros Hm.
  rewrite <- Z.div2_spec.
  destruct m as [|[p|p|]|p]; try reflexivity; lia.
Qed.

Lemma iter_shr_m (p : positive) : forall r,
  0 <= shr_m r ->
  shr_m (iter_pos shr_1 p r) = Z.shiftr (shr_m r) (Z.pos p).
Proof.
  induction p as [p IH|p IH|]; intros r Hr; simpl.
  - assert (H1 : 0 <= shr_m (shr_1 r)) by (rewrite shr_1_m by easy; now apply Z.shiftr_nonneg).
    assert (H2 : 0 <= shr_m (iter_pos shr_1 p (shr_1 r))) by (rewrite IH by easy; now apply Z.shiftr_nonneg).
    rewrite IH, IH, shr_1_m by easy.
    rewrite !Z.shiftr_shiftr by lia. f_equal. lia.
  - assert (H2 : 0 <= shr_m (iter_pos shr_1 p r)) by (rewrite IH by easy; now apply Z.shiftr_nonneg).
    rewrite IH, IH by easy.
    rewrite !Z.shiftr_shiftr by lia. f_equal. lia.
  - now apply shr_1_m.
Qed.

Lemma shr_record_of_loc_m m l : shr_m (shr_record_of_loc m l) = m.
Proof. destruct l as [|[]]; reflexivity. Qed.

(** Rounding a positive mantissa at an exponent not below [emin] never
    reaches zero: the shift removes fewer bits than the mantissa has. *)
Lemma shr_fexp_pos (m e : Z) (l : location) :
  0 < m -> emin <= e ->
  0 < shr_m (fst (shr_fexp prec emax m e l)) /\ emin <= snd (shr_fexp prec emax m e l).
Proof.
  intros Hm He. unfold shr_fexp, shr.
  destruct m as [|p|p]; try lia. simpl Zdigits2.
  pose proof (digits2_bounds p) as [Hlo _].
  set (d := Z.pos (digits2_pos p)) in *.
  unfold fexp. fold emin.
  destruct (Z.max (d + e - prec) emin - e) as [|n|n] eqn:En; simpl;
    rewrite ?shr_record_of_loc_m; try (split; lia).
  rewrite iter_shr_m by (rewrite shr_record_of_loc_m; lia).
  rewrite shr_record_of_loc_m.
  assert (Hn : Z.pos n = d - prec) by (unfold prec, emin, emax in *; lia).
  split; [|lia].
  rewrite Z.shiftr_div_pow2 by lia.
  apply Z.div_str_pos. split; [apply Z.pow_pos_nonneg; lia|].
  eapply Z.le_trans; [|exact Hlo].
  apply Z.pow_le_mono_r; unfold prec in *; lia.
Qed.


Lemma round_nearest_even_pos m l : 0 < m -> 0 < round_nearest_even m l.
Proof. destruct l as [|[]]; simpl; try lia. destruct (Z.even m); lia. Qed.

Lemma binary_round_aux_sign s m e l :
  0 < m -> emin <= e -> signed_nonzero s (binary_round_aux prec emax s m e l).
Proof.
  intros Hm He. unfold binary_round_aux.
  destruct (shr_fexp_pos m e l Hm He) as [H1 H2].
  destruct (shr_fexp prec emax m e l) as [r1 e1]; simpl in H1, H2.
  pose proof (round_nearest_even_pos (shr_m r1) (loc_of_shr_record r1) H1) as H3.
  destruct (shr_fexp_pos _ e1 loc_Exact H3 H2) as [H4 _].
  destruct (shr_fexp prec emax _ e1 loc_Exact) as [r2 e2]; simpl in H4.
  destruct (shr_m r2); try lia.
  destruct (e2 <=? emax - prec); reflexivity.
Qed.

Lemma binary_round_sign s m e :
  emin <= e -> signed_nonzero s (binary_round prec emax s m e).
Proof.
  intros He. unfold binary_round.
  destruct (shl_align m e (fexp prec emax (Z.pos (digits2_pos m) + e))) as [mz ez] eqn:E.
  apply binary_round_aux_sign; [lia|].
  unfold shl_align in E.
  destruct (fexp prec emax (Z.pos (digits2_pos m) + e) - e) eqn:E2; inversion E; subst; try lia.
  unfold fexp. fold emin. lia.
Qed.


Lemma shl_align_value m e e' :
  e' <= e -> Z.pos (fst (shl_align m e e')) = Z.pos m * 2 ^ (e - e').
Proof.
  intros Hle. unfold shl_align.
  destruct (e' - e) as [|d|d] eqn:E; simpl; try lia.
  - replace (e - e') with 0 by lia. simpl. lia.
  - change (Pos.iter xO m d) with (shift_pos d m).
    rewrite shift_pos_correct. replace (e - e') with (Z.pos d) by lia.
    rewrite Z.mul_comm. reflexivity.
Qed.

Lemma canonical_exponent m e :
  canonical_mantissa prec emax m e = true ->
  emin <= e /\ Z.pos (digits2_pos m) <= prec /\ (emin < e -> Z.pos (digits2_pos m) = prec).
Proof.
  unfold canonical_mantissa, fexp. fold emin. intros H. apply Z.eqb_eq in H. lia.
Qed.

(** On canonical mantissas the exponent decides the order of magnitudes. *)
Lemma canonical_lt m1 e1 m2 e2 :
  canonical_mantissa prec emax m1 e1 = true ->
  canonical_mantissa prec emax m2 e2 = true ->
  e1 < e2 -> Z.pos m1 < Z.pos m2 * 2 ^ (e2 - e1).
Proof.
  intros C1 C2 Hlt.
  apply canonical_exponent in C1, C2.
  destruct C1 as (He1 & Hd1 & _), C2 as (_ & _ & Hd2).
  pose proof (digits2_bounds m1) as [_ Hhi]. pose proof (digits2_bounds m2) as [Hlo _].
  rewrite Hd2 in Hlo by lia.
  assert (Hp : 2 ^ Z.pos (digits2_pos m1) <= 2 ^ prec) by (apply Z.pow_le_mono_r; lia).
  assert (Hq : 2 ^ 1 <= 2 ^ (e2 - e1)) by (apply Z.pow_le_mono_r; lia).
  assert (Hr : 2 ^ prec = 2 * 2 ^ (prec - 1)) by reflexivity.
  change (2 ^ 1) with 2 in Hq. nia.
Qed.


Lemma SFltb_zero_signed s x : signed_nonzero s x -> SFltb SFzero x = negb s.
Proof. destruct x as [| | |]; simpl; intros H; try easy; subst; now destruct s. Qed.

Lemma binary_normalize_pos m e :
  emin <= e ->
  SFltb SFzero (binary_normalize prec emax m e false) = (0 <? m).
Proof.
  intros He. destruct m as [|p|p]; simpl binary_normalize.
  - reflexivity.
  - now rewrite (SFltb_zero_signed false) by now apply binary_round_sign.
  - now rewrite (SFltb_zero_signed true) by now apply binary_round_sign.
Qed.

(** The sign of a rounded difference is the sign of the exact difference:
    [y - x] is positive exactly when [x < y]. *)
Lemma SFsub_pos (x y : spec_float) :
  valid_binary x = true -> valid_binary y = true ->
  SFltb SFzero (SF64sub y x) = SFltb x y.
Proof.
  intros Vx Vy.
  destruct x as [sx|sx| |sx mx ex], y as [sy|sy| |sy my ey];
    try (destruct sx; try destruct sy; reflexivity);
    try (destruct sy; try destruct sx; reflexivity).
  all: try reflexivity.
  unfold SF64sub, SFsub.
  simpl in Vx, Vy. unfold bounded in Vx, Vy.
  apply andb_true_iff in Vx, Vy. destruct Vx as [Cx _], Vy as [Cy _].
  pose proof (canonical_exponent _ _ Cx) as (Hex & _).
  pose proof (canonical_exponent _ _ Cy) as (Hey & _).
  rewrite binary_normalize_pos by lia.
  rewrite !shl_align_value by lia.
  unfold SFltb, SFcompare.
  rewrite Pos.compare_cont_spec. unfold Pos.switch_Eq.
  change (mx ?= my)%positive with (Z.pos mx ?= Z.pos my).
  destruct (Z.compare_spec ex ey) as [E|E|E].
  - subst ey. rewrite Z.min_id, Z.sub_diag. simpl (2 ^ 0). rewrite !Z.mul_1_r.
    destruct (Z.compare_spec (Z.pos mx) (Z.pos my)); destruct sx, sy; cbv beta iota delta [cond_Zopp CompOpp];
      try (apply Z.ltb_lt; lia); try (apply Z.ltb_ge; lia).
  - pose proof (canonical_lt _ _ _ _ Cx Cy E) as Hlt.
    rewrite Z.min_r by lia. rewrite Z.sub_diag. simpl (2 ^ 0). rewrite Z.mul_1_r.
    destruct sx, sy; cbv beta iota delta [cond_Zopp CompOpp]; try (apply Z.ltb_lt; lia); try (apply Z.ltb_ge; lia).
  - pose proof (canonical_lt _ _ _ _ Cy Cx E) as Hlt.
    rewrite Z.min_l by lia. rewrite Z.sub_diag. simpl (2 ^ 0). rewrite Z.mul_1_r.
    destruct sx, sy; cbv beta iota delta [cond_Zopp CompOpp]; try (apply Z.ltb_lt; lia); try (apply Z.ltb_ge; lia).
Qed.

Lemma sub_pos_iff (x y : float) : (0 <? y - x)%float = (x <? y)%float.
Proof.
  rewrite !ltb_spec, sub_spec.
  change (Prim2SF 0) with SFzero.
  apply SFsub_pos; apply Prim2SF_valid.
Qed.


(** ** Multiplication commutes *)

Lemma SFmul_comm (x y : spec_float) : SF64mul x y = SF64mul y x.
Proof.
  destruct x as [sx|sx| |sx mx ex], y as [sy|sy| |sy my ey]; simpl;
    rewrite ?(xorb_comm sx sy); try reflexivity.
  unfold SF64mul, SFmul. now rewrite Pos.mul_comm, Z.add_comm, xorb_comm.
Qed.

Lemma mul_comm (x y : float) : (x * y = y * x)%float.
Proof. apply Prim2SF_inj. rewrite !mul_spec. apply SFmul_comm. Qed.

(** ** The order of the numbers *)




Lemma SFcompare_rank (x y : spec_float) :
  SFcompare x y =
  if is_number x && is_number y then Some (lex3 (rank x) (rank y)) else None.
Proof.
  destruct x as [sx|sx| |sx mx ex], y as [sy|sy| |sy my ey];
    try (destruct sx; try destruct sy; reflexivity);
    try (destruct sy; reflexivity); try reflexivity.
  unfold SFcompare, is_number, rank, lex3, andb.
  rewrite Pos.compare_cont_spec. unfold Pos.switch_Eq.
  destruct sx, sy; try reflexivity.
  - rewrite Z.compare_opp, (Z.compare_antisym ex ey).
    change (Z.neg mx ?= Z.neg my) with (CompOpp (mx ?= my)%positive).
    destruct (ex ?= ey), (mx ?= my)%positive; reflexivity.
  - change (Z.pos mx ?= Z.pos my) with (mx ?= my)%positive.
    destruct (ex ?= ey), (mx ?= my)%positive; reflexivity.
Qed.



Lemma lex3_spec (a b : Z * Z * Z) :
  match lex3 a b with
  | Lt => lexlt a b
  | Eq => a = b
  | Gt => lexlt b a
  end.
Proof.
  destruct a as [[a1 a2] a3], b as [[b1 b2] b3]. unfold lex3, lexlt.
  destruct (Z.compare_spec a1 b1); try lia.
  destruct (Z.compare_spec a2 b2); try lia.
  destruct (Z.compare_spec a3 b3); try lia.
  congruence.
Qed.

Lemma SFleb_iff (x y : spec_float) :
  SFleb x y = true <->
  is_number x = true /\ is_number y = true /\ lexle (rank x) (rank y).
Proof.
  unfold SFleb. rewrite SFcompare_rank.
  destruct (is_number x), (is_number y); simpl; try (split; [discriminate|intuition discriminate]).
  pose proof (lex3_spec (rank x) (rank y)) as H.
  destruct (rank x) as [[a1 a2] a3], (rank y) as [[b1 b2] b3].
  destruct (lex3 _ _); unfold lexlt, lexle in *; split; intros G;
    try discriminate; try (injection H as -> -> ->);
    try (repeat split; lia); destruct G as (_ & _ & G); lia.
Qed.

Lemma SFltb_iff (x y : spec_float) :
  SFltb x y = true <->
  is_number x = true /\ is_number y = true /\ lexlt (rank x) (rank y).
Proof.
  unfold SFltb. rewrite SFcompare_rank.
  destruct (is_number x), (is_number y); simpl; try (split; [discriminate|intuition discriminate]).
  pose proof (lex3_spec (rank x) (rank y)) as H.
  destruct (rank x) as [[a1 a2] a3], (rank y) as [[b1 b2] b3].
  destruct (lex3 _ _); unfold lexlt, lexle in *; split; intros G;
    try discriminate; try (injection H as -> -> ->);
    try (repeat split; lia); destruct G as (_ & _ & G); lia.
Qed.

Lemma is_nan_number (x : float) : is_nan x = negb (is_number (Prim2SF x)).
Proof.
  unfold is_nan. rewrite eqb_spec. unfold SFeqb. rewrite SFcompare_rank.
  destruct (is_number (Prim2SF x)); simpl; [|reflexivity].
  pose proof (lex3_spec (rank (Prim2SF x)) (rank (Prim2SF x))) as H.
  destruct (rank (Prim2SF x)) as [[a1 a2] a3].
  destruct (lex3 _ _); try reflexivity; unfold lexlt in H; lia.
Qed.

Lemma leb_trans (x y z : float) :
  (x <=? y)%float = true -> (y <=? z)%float = true -> (x <=? z)%float = true.
Proof.
  rewrite !leb_spec, !SFleb_iff. intros (Hx & _ & H1) (_ & Hz & H2).
  repeat split; try assumption.
  destruct (rank (Prim2SF x)) as [[a1 a2] a3], (rank (Prim2SF y)) as [[b1 b2] b3],
    (rank (Prim2SF z)) as [[c1 c2] c3]. unfold lexle in *. lia.
Qed.

Lemma ltb_asym (x y : float) :
  (x <? y)%float = true -> (y <? x)%float = false.
Proof.
  intros H. apply not_true_is_false. revert H.
  rewrite !ltb_spec, !SFltb_iff. intros (_ & _ & H1) (_ & _ & H2).
  destruct (rank (Prim2SF x)) as [[a1 a2] a3], (rank (Prim2SF y)) as [[b1 b2] b3].
  unfold lexlt in *. lia.
Qed.

(** Among numbers, "not below" is "at least". *)
Lemma not_ltb_leb (x y : float) :
  is_nan x = false -> is_nan y = false ->
  (x <? y)%float = false -> (y <=? x)%float = true.
Proof.
  rewrite !is_nan_number, !negb_false_iff. intros Hx Hy H.
  apply not_true_iff_false in H. rewrite ltb_spec, SFltb_iff in H.
  rewrite leb_spec, SFleb_iff. repeat split; try assumption.
  assert (H' : ~ lexlt (rank (Prim2SF x)) (rank (Prim2SF y))) by (intros G; apply H; auto).
  destruct (rank (Prim2SF x)) as [[a1 a2] a3], (rank (Prim2SF y)) as [[b1 b2] b3].
  unfold lexlt, lexle in *. lia.
Qed.

Lemma leb_number (x y : float) :
  (x <=? y)%float = true -> is_nan x = false /\ is_nan y = false.
Proof.
  rewrite leb_spec, SFleb_iff, !is_nan_number. intros (-> & -> & _). now split.
Qed.

End FloatFacts.

Module Batches.
Import Js VectorizeProducts.

(** The provider embeds the text of the product. *)
Definition embeds (provider : Gemini.Provider) (p : Schema.Product) : bool :=
  match provider (productText p) with
  | Ok _ => true
  | Throw _ => false
  end.

(** The batch that starts at index [i] of the pending products, and
    whether every one of its items embeds. *)
Definition batchAt (pending : list Schema.Product) (i : nat) : list Schema.Product :=
  slice pending i (i + batchSize).

Definition batchSucceeds (provider : Gemini.Provider) (pending : list Schema.Product)
  (i : nat) : bool :=
  forallb (embeds provider) (batchAt pending i).

(** The identifiers and the number of the items of the batches that
    succeed as a whole. *)
Definition persistedIds (provider : Gemini.Provider) (pending : list Schema.Product)
  (starts : list nat) : list string :=
  flat_map (fun i => if batchSucceeds provider pending i
                     then map Schema.id (batchAt pending i) else []) starts.

Definition persistedCount (provider : Gemini.Provider) (pending : list Schema.Product)
  (starts : list nat) : nat :=
  list_sum (map (fun i => if batchSucceeds provider pending i
                          then List.length (batchAt pending i) else 0) starts).

Definition hasEmbedding (p : Schema.Product) : bool := negb (lacksEmbedding p).

(** What is observed of a row: its identifier, and whether it holds an
    embedding. *)
Definition observe (p : Schema.Product) : string * bool :=
  (Schema.id p, hasEmbedding p).

(** The row as observed once the products with the given identifiers have
    been given an embedding. *)
Definition embedded (ids : list string) (o : string * bool) : string * bool :=
  (fst o, snd o || existsb (String.eqb (fst o)) ids).

End Batches.

Module Frames.
Import Schema.

(** What updates of the embeddings of the rows named [ids] do to a row,
    [clock] telling the timestamps that they may write: a named row is
    what it was but for its embedding and its [updatedAt], which hold an
    embedding and a timestamp of the clock; any other row is as it was. *)
Definition updated (clock : nat -> string) (ids : list string) (old new : Product)
  : Prop :=
  (In (id old) ids ->
   exists embedding n, new = withEmbedding old embedding (clock n))
  /\ (~ In (id old) ids -> new = old).

(** A row after a run: as it was, or as it was but for its embedding and
    its [updatedAt]. *)
Definition unchangedOrEmbedded (clock : nat -> string) (old new : Product) : Prop :=
  new = old \/ exists embedding n, new = withEmbedding old embedding (clock n).

End Frames.

Module Examples.
Import Js SearchRoute.
Local Open Scope string_scope.

Definition row (id name description status : string) (embedding : option (list float))
  : Schema.Product :=
  {| Schema.id := id; Schema.name := name; Schema.description := description;
     Schema.category := "home"; Schema.brand := "acme"; Schema.status := status;
     Schema.vectorEmbedding := embedding;
     Schema.updatedAt := "2024-01-01T00:00:00.000Z" |}.

(** A request with a query and, possibly, a threshold. *)
Definition request (query : string) (minSimilarity : option string) : RawQuery :=
  {| raw_query := Some query; raw_limit := None; raw_minSimilarity := minSimilarity;
     raw_category := None; raw_brand := None |}.

Definition validatedLamp (minSimilarity : float) : AiValidation.SemanticSearchRequest :=
  {| AiValidation.query := "lamp"; AiValidation.limit := 10;
     AiValidation.minSimilarity := minSimilarity;
     AiValidation.category := None; AiValidation.brand := None |}.

Definition providerDown : Gemini.Provider :=
  fun _ => Throw (ProviderError "unavailable").

Definition providerUp : Gemini.Provider :=
  fun _ => Ok [1; 0]%float.

(** A row of the schema's status enum whose description has the query. *)
Definition inStockChair : Schema.Product :=
  row "p1" "Chair" "comes with a desk lamp" "in_stock" None.

(** A pool row with a stored vector of one component. *)
Definition shortVectorChair : Schema.Product :=
  row "p1" "Chair" "wooden" "active" (Some [1]%float).

(** A pool row whose vector is orthogonal to the query vector, and a pool
    row without an embedding whose name has the query. *)
Definition orthogonalChair : Schema.Product :=
  row "p1" "Chair" "wooden" "active" (Some [0; 1]%float).

Definition lamp : Schema.Product :=
  row "p2" "Desk lamp" "bright" "active" None.

(** Twelve products without an embedding, and a provider that rejects the
    text of the seventh only. *)
Definition pendingProduct (n : string) : Schema.Product :=
  row ("p" ++ n) ("Item " ++ n) "plain" "in_stock" None.

Definition twelve : list Schema.Product :=
  map pendingProduct ["1"; "2"; "3"; "4"; "5"; "6"; "7"; "8"; "9"; "10"; "11"; "12"].

(** A clock that ticks once per update. *)
Definition clock : VectorizeProducts.Clock :=
  fun n => if Nat.even n then "2024-06-01T00:00:00.000Z" else "2024-06-01T00:00:00.500Z".

(** A pool row whose vector is the query vector of [providerUp]. *)
Definition alignedChair : Schema.Product :=
  row "p1" "Chair" "wooden" "active" (Some [1; 0]%float).

(** Three pool rows of which the second has components so large that its
    dot product with the query vector [[1; 1]] overflows, and a provider
    that answers that query vector. *)
Definition axisRow : Schema.Product :=
  row "a" "Stool" "oak" "active" (Some [1; 0]%float).

Definition hugeRow : Schema.Product :=
  row "n" "Bench" "pine" "active" (Some [1.7e308; 1.7e308]%float).

Definition diagonalRow : Schema.Product :=
  row "b" "Table" "ash" "active" (Some [1; 1]%float).

Definition providerDiagonal : Gemini.Provider :=
  fun _ => Ok [1; 1]%float.

Definition failsOnSeventh : Gemini.Provider :=
  fun text =>
    if String.eqb text (VectorizeProducts.productText (pendingProduct "7"))
    then Throw (ProviderError "provider error")
    else Ok [1; 0]%float.

End Examples.

(* ===================================================================== *)
(** * Arrays: map, sort, slice                                            *)
(* ===================================================================== *)

Module ArrayFacts.
Import Js.

Lemma mapM_Forall2 {A B : Type} (f : A -> Result B) (l : list A) (ys : list B) :
  mapM f l = Ok ys <-> Forall2 (fun x y => f x = Ok y) l ys.
Proof.
  revert ys. induction l as [|x l IH]; intros ys; simpl.
  - split; intros H.
    + injection H as <-. constructor.
    + inversion H. reflexivity.
  - split; intros H.
    + destruct (f x) as [y|e] eqn:Ex; simpl in H; [|discriminate].
      destruct (mapM f l) as [ys'|e] eqn:El; simpl in H; [|discriminate].
      injection H as <-. constructor; [assumption|]. now apply IH.
    + inversion H as [|x' y l' ys' Hx Hl]; subst.
      rewrite Hx. simpl. apply IH in Hl. rewrite Hl. reflexivity.
Qed.

Lemma mapM_total {A B : Type} (f : A -> Result B) (l : list A) :
  Forall (fun x => exists y, f x = Ok y) l -> exists ys, mapM f l = Ok ys.
Proof.
  induction 1 as [|x l [y Hy] _ [ys Hys]]; simpl.
  - now exists [].
  - exists (y :: ys). now rewrite Hy, Hys.
Qed.

Lemma mapM_throw {A B : Type} (f : A -> Result B) (l : list A) :
  Exists (fun x => exists e, f x = Throw e) l -> exists e, mapM f l = Throw e.
Proof.
  induction 1 as [x l [e He]|x l _ [e He]]; simpl.
  - exists e. now rewrite He.
  - destruct (f x) as [y|e']; simpl; [|now exists e'].
    exists e. now rewrite He.
Qed.

Section SortFacts.
Context {A : Type} (comparefn : A -> A -> float).

Lemma insert_perm (x : A) (l : list A) : Permutation (insert comparefn x l) (x :: l).
Proof.
  induction l as [|y l IH]; simpl; [reflexivity|].
  destruct (0 <? comparefn x y)%float; [|reflexivity].
  rewrite IH. apply perm_swap.
Qed.

Lemma sort_perm (l : list A) : Permutation (sort comparefn l) l.
Proof.
  induction l as [|x l IH]; simpl; [reflexivity|].
  rewrite insert_perm. now constructor.
Qed.

Lemma sort_length (l : list A) : List.length (sort comparefn l) = List.length l.
Proof. apply Permutation_length, sort_perm. Qed.

End SortFacts.

Lemma slice0_zero {A : Type} (l : list A) : slice0 l 0 = [].
Proof. unfold slice0. simpl. now rewrite Z.min_l by lia. Qed.

Lemma slice0_all {A : Type} (l : list A) (k : Z) :
  (Z.of_nat (List.length l) <= k)%Z -> slice0 l k = l.
Proof.
  intros H. unfold slice0.
  destruct (Z.ltb_spec k 0); [lia|].
  rewrite Z.min_r by lia. rewrite Nat2Z.id. apply firstn_all.
Qed.

Lemma slice0_firstn {A : Type} (l : list A) (k : Z) :
  exists n, slice0 l k = firstn n l.
Proof. unfold slice0. eauto. Qed.

Lemma slice0_nonneg {A : Type} (l : list A) (k : Z) :
  (0 <= k)%Z -> slice0 l k = firstn (Z.to_nat k) l.
Proof.
  intros H. unfold slice0. destruct (Z.ltb_spec k 0); [lia|].
  destruct (Z.le_ge_cases k (Z.of_nat (List.length l))).
  - now rewrite Z.min_l.
  - rewrite Z.min_r by assumption. rewrite Nat2Z.id, firstn_all.
    symmetry. apply firstn_all2. lia.
Qed.

Lemma firstn_In {A : Type} (x : A) (n : nat) (l : list A) :
  In x (firstn n l) -> In x l.
Proof.
  intros H. rewrite <- (firstn_skipn n l). apply in_or_app. now left.
Qed.

Lemma Sorted_firstn {A : Type} (R : A -> A -> Prop) (l : list A) (n : nat) :
  Sorted R l -> Sorted R (firstn n l).
Proof.
  revert n. induction l as [|x l IH]; intros [|n] H; simpl; try constructor.
  - apply IH. now inversion H.
  - inversion H as [|? ? _ Hd]; subst.
    destruct l as [|y l]; destruct n; simpl; constructor.
    now inversion Hd.
Qed.

Lemma StronglySorted_firstn {A : Type} (R : A -> A -> Prop) (l : list A) (n : nat) :
  StronglySorted R l -> StronglySorted R (firstn n l).
Proof.
  revert n. induction l as [|x l IH]; intros [|n] H; simpl; try constructor.
  - apply IH. now inversion H.
  - inversion H as [|? ? _ Hall]; subst.
    rewrite Forall_forall in *. intros y Hy. apply Hall.
    eapply firstn_In; eassumption.
Qed.

Lemma Sorted_filter {A : Type} (R : A -> A -> Prop) (f : A -> bool) (l : list A) :
  StronglySorted R l -> StronglySorted R (filter f l).
Proof.
  induction 1 as [|x l Hs IH Hall]; simpl; [constructor|].
  destruct (f x); [|assumption].
  constructor; [assumption|].
  rewrite Forall_forall in *. intros y Hy. apply Hall.
  apply filter_In in Hy. tauto.
Qed.

End ArrayFacts.

(* ===================================================================== *)
(** * services/vectorize.ts: properties                                   *)
(* ===================================================================== *)

Module VectorizeFacts.
Import Js Vectorize Ranking ArrayFacts.

Lemma cosineSimilarity_total (a b : vector) :
  List.length a = List.length b -> exists s, cosineSimilarity a b = Ok s.
Proof.
  intros H. unfold cosineSimilarity. rewrite H, Nat.eqb_refl. simpl.
  destruct (sums a b _) as [[d na] nb].
  destruct (_ || _); eauto.
Qed.

Lemma cosineSimilarity_mismatch (a b : vector) :
  List.length a <> List.length b -> cosineSimilarity a b = Throw DimensionMismatch.
Proof.
  intros H. unfold cosineSimilarity. apply Nat.eqb_neq in H. now rewrite H.
Qed.

(** Swapping the arguments swaps the two sums of squares and keeps the
    dot product. *)
Lemma sums_swap (a b : vector) : forall d na nb,
  sums b a (d, nb, na) =
  let '(d', na', nb') := sums a b (d, na, nb) in (d', nb', na').
Proof.
  revert b. induction a as [|x a IH]; intros [|y b] d na nb; simpl; try reflexivity.
  rewrite (FloatFacts.mul_comm y x). apply IH.
Qed.

Lemma sums_norms (a b : vector) : forall d na nb,
  List.length a = List.length b ->
  exists d', sums a b (d, na, nb) =
             (d', fold_left (fun s x => (s + x * x)%float) a na,
                  fold_left (fun s x => (s + x * x)%float) b nb).
Proof.
  revert b. induction a as [|x a IH]; intros [|y b] d na nb H; simpl in *;
    try discriminate; eauto.
Qed.

Lemma insert_noAscent {D : Type} (x : Scored D) (l : list (Scored D)) :
  Sorted noAscent l -> Sorted noAscent (insert bySimilarityDesc x l).
Proof.
  induction l as [|y l IH]; intros H; simpl.
  - repeat constructor.
  - unfold bySimilarityDesc at 1. rewrite FloatFacts.sub_pos_iff.
    destruct (similarity x <? similarity y)%float eqn:E.
    + inversion H as [|? ? Hs Hd]; subst. constructor; [now apply IH|].
      destruct l as [|z l]; simpl.
      * constructor. now apply FloatFacts.ltb_asym.
      * destruct (0 <? bySimilarityDesc x z)%float; constructor.
        -- now inversion Hd.
        -- now apply FloatFacts.ltb_asym.
    + constructor; [assumption|]. constructor. exact E.
Qed.

Lemma sort_noAscent {D : Type} (l : list (Scored D)) :
  Sorted noAscent (sort bySimilarityDesc l).
Proof.
  induction l as [|x l IH]; simpl; [constructor|]. now apply insert_noAscent.
Qed.

(** Among numeric scores a ranking without ascent is descending pairwise. *)
Lemma descending_of_noAscent {D : Type} (l : list (Scored D)) :
  Forall numeric l -> Sorted noAscent l -> StronglySorted atLeast l.
Proof.
  intros Hn Hs. apply Sorted_StronglySorted.
  - intros a b c Hab Hbc. unfold atLeast in *. eapply FloatFacts.leb_trans; eassumption.
  - induction Hs as [|x l Hs IH Hd]; constructor.
    + apply IH. now inversion Hn.
    + inversion Hn as [|? ? Hx Hl]; subst.
      destruct Hd as [|y l Hxy]; constructor.
      inversion Hl; subst. now apply FloatFacts.not_ltb_leb.
Qed.

Lemma score_total {D : Type} (q : vector) (c : Candidate D) :
  List.length (c_vector c) = List.length q -> exists r, score q c = Ok r.
Proof.
  intros H. unfold score.
  destruct (cosineSimilarity_total q (c_vector c)) as [s Hs]; [easy|].
  rewrite Hs. simpl. eauto.
Qed.

Lemma score_inv {D : Type} (q : vector) (c : Candidate D) (r : Scored D) :
  score q c = Ok r ->
  id r = c_id c /\ data r = c_data c /\ cosineSimilarity q (c_vector c) = Ok (similarity r).
Proof.
  unfold score. destruct (cosineSimilarity q (c_vector c)) as [s|e]; simpl; [|discriminate].
  intros H. injection H as <-. auto.
Qed.

(** When no score is [NaN] the ranking is in descending order. *)
Lemma scored_numeric {D : Type} (q : vector) (candidates : list (Candidate D))
  (scored : list (Scored D)) :
  Forall2 (fun c r => score q c = Ok r) candidates scored ->
  Forall (Selection.numericScore q) candidates -> Forall numeric scored.
Proof.
  induction 1 as [|c r cs rs Hc _ IH]; intros Hn; constructor;
    inversion Hn as [|? ? Hx Hrest]; subst.
  - apply score_inv in Hc as (_ & _ & Hs). exact (Hx _ Hs).
  - now apply IH.
Qed.

Lemma ranking_descending {D : Type} (q : vector) (candidates : list (Candidate D))
  (k : Z) (ranking : list (Scored D)) :
  Forall (Selection.numericScore q) candidates ->
  findTopKSimilar q candidates k = Ok ranking ->
  StronglySorted atLeast ranking.
Proof.
  intros Hn. unfold findTopKSimilar.
  destruct (mapM (score q) candidates) as [scored|e] eqn:E; simpl; [|discriminate].
  intros H. injection H as <-. apply mapM_Forall2 in E.
  pose proof (scored_numeric _ _ _ E Hn) as Hs.
  destruct (slice0_firstn (sort bySimilarityDesc scored) k) as [n ->].
  apply descending_of_noAscent.
  - apply Forall_forall. intros r Hr. apply firstn_In in Hr.
    eapply Permutation_in in Hr; [|apply sort_perm].
    rewrite Forall_forall in Hs. now apply Hs.
  - apply Sorted_firstn, sort_noAscent.
Qed.

(** C6, as the code has it.  For every query vector and candidate list
    whose vectors have the query's length, [findTopKSimilar] returns (does
    not throw) a ranking; when no candidate's score is [NaN] the ranking
    is in descending order of similarity; when [k] is at least the number
    of candidates the ranking has an entry for every candidate; and
    [k = 0] yields the empty sequence. *)
Theorem findTopKSimilar_descending_complete {D : Type}
  (q : vector) (candidates : list (Candidate D)) (k : Z) :
  Forall (fun c => List.length (c_vector c) = List.length q) candidates ->
  exists ranking,
    findTopKSimilar q candidates k = Ok ranking
    /\ (Forall (Selection.numericScore q) candidates ->
        StronglySorted atLeast ranking)
    /\ ((Z.of_nat (List.length candidates) <= k)%Z ->
        List.length ranking = List.length candidates
        /\ Forall (fun c => exists r, In r ranking /\ id r = c_id c /\ data r = c_data c
                                      /\ cosineSimilarity q (c_vector c) = Ok (similarity r))
                  candidates)
    /\ (k = 0%Z -> ranking = []).
Proof.
  intros Hlen.
  destruct (mapM_total (score q) candidates) as [scored Hscored].
  { eapply Forall_impl; [|exact Hlen]. intros c Hc. now apply score_total. }
  exists (slice0 (sort bySimilarityDesc scored) k).
  assert (Hok : findTopKSimilar q candidates k
                = Ok (slice0 (sort bySimilarityDesc scored) k)).
  { unfold findTopKSimilar. now rewrite Hscored. }
  split; [exact Hok|split; [|split]].
  - intros Hnum. exact (ranking_descending _ _ _ _ Hnum Hok).
  - intros Hk. apply mapM_Forall2 in Hscored.
    pose proof (Forall2_length Hscored) as Hl.
    rewrite slice0_all by (rewrite sort_length; lia).
    split; [rewrite sort_length; lia|].
    clear Hok Hlen Hk Hl. induction Hscored as [|c r cs rs Hc _ IH]; constructor.
    + exists r. split; [|now apply score_inv].
      eapply Permutation_in; [symmetry; apply sort_perm|]. now left.
    + eapply Forall_impl; [|exact IH]. intros c' (r' & Hin & H').
      exists r'. split; [|exact H'].
      eapply Permutation_in; [symmetry; apply sort_perm|].
      right. eapply Permutation_in; [apply sort_perm|exact Hin].
  - intros ->. apply slice0_zero.
Qed.

(** Witness: a query and two candidates of its length whose scores are
    numbers, [k = 2]. *)
Lemma findTopKSimilar_descending_complete_witness :
  exists ranking,
    findTopKSimilar [1; 0]%float
      [ {| c_id := "a"; c_vector := [0; 1]%float; c_data := tt |};
        {| c_id := "b"; c_vector := [1; 0]%float; c_data := tt |} ] 2 = Ok ranking
    /\ StronglySorted atLeast ranking
    /\ List.length ranking = 2.
Proof.
  destruct (findTopKSimilar_descending_complete [1; 0]%float
      [ {| c_id := "a"; c_vector := [0; 1]%float; c_data := tt |};
        {| c_id := "b"; c_vector := [1; 0]%float; c_data := tt |} ] 2)
    as (ranking & H1 & H2 & H3 & _).
  - repeat constructor.
  - exists ranking. split; [exact H1|]. split.
    + apply H2.
      repeat constructor; intros x H; vm_compute in H; injection H as <-; reflexivity.
    + apply H3. simpl. lia.
Defined.

(** C6 as stated fails: the second of three candidates of the query's
    length has components so large that the dot product overflows and its
    score is [NaN]; every comparison with it answers [NaN], the sort
    leaves the three where they are, and the third scores higher than the
    first. *)
Lemma findTopKSimilar_nan_score_not_descending :
  Forall (fun c => List.length (c_vector c) = List.length [1; 1]%float)
    [ {| c_id := "a"; c_vector := [1; 0]%float; c_data := tt |};
      {| c_id := "n"; c_vector := [1.7e308; 1.7e308]%float; c_data := tt |};
      {| c_id := "b"; c_vector := [1; 1]%float; c_data := tt |} ]
  /\ exists ra rn rb,
       findTopKSimilar [1; 1]%float
         [ {| c_id := "a"; c_vector := [1; 0]%float; c_data := tt |};
           {| c_id := "n"; c_vector := [1.7e308; 1.7e308]%float; c_data := tt |};
           {| c_id := "b"; c_vector := [1; 1]%float; c_data := tt |} ] 3
       = Ok [ra; rn; rb]
       /\ map id [ra; rn; rb] = ["a"; "n"; "b"]%string
       /\ is_nan (similarity rn) = true
       /\ (similarity ra <? similarity rb)%float = true
       /\ ~ StronglySorted atLeast [ra; rn; rb].
Proof.
  split; [repeat constructor|].
  do 3 eexists. split; [vm_compute; reflexivity|].
  split; [reflexivity|]. split; [vm_compute; reflexivity|].
  split; [vm_compute; reflexivity|].
  intros H. inversion H as [|? ? _ Hall]; subst.
  inversion Hall as [|? ? Hn _]; subst. vm_compute in Hn. discriminate.
Qed.

(** C7. For vectors [a], [b] of equal length, [cosineSimilarity a b] and
    [cosineSimilarity b a] are the same result; and if the Euclidean norm
    of either is exactly zero the result is [0], not an error. *)
Theorem cosineSimilarity_symmetric_zero_norm (a b : vector) :
  List.length a = List.length b ->
  cosineSimilarity a b = cosineSimilarity b a
  /\ ((euclideanNorm a =? 0)%float = true \/ (euclideanNorm b =? 0)%float = true ->
      cosineSimilarity a b = Ok 0%float).
Proof.
  intros H. split.
  - unfold cosineSimilarity. rewrite H, Nat.eqb_refl. simpl.
    rewrite (sums_swap a b).
    destruct (sums a b _) as [[d na] nb].
    rewrite (FloatFacts.mul_comm (sqrt nb) (sqrt na)), orb_comm. reflexivity.
  - intros Hz. unfold cosineSimilarity. rewrite H, Nat.eqb_refl. simpl.
    destruct (sums_norms a b 0%float 0%float 0%float H) as [d ->].
    fold (euclideanNorm a). fold (euclideanNorm b).
    destruct Hz as [-> | ->]; [reflexivity|now rewrite orb_true_r].
Qed.

Lemma cosineSimilarity_symmetric_zero_norm_witness :
  cosineSimilarity [3; 4]%float [0; 0]%float = cosineSimilarity [0; 0]%float [3; 4]%float
  /\ cosineSimilarity [3; 4]%float [0; 0]%float = Ok 0%float.
Proof.
  destruct (cosineSimilarity_symmetric_zero_norm [3; 4]%float [0; 0]%float eq_refl)
    as [H1 H2].
  split; [exact H1|]. apply H2. right. reflexivity.
Defined.


Lemma filterStep_spec {T : Type} (sim : T -> float) (threshold : float)
  (kept : list T) (r : T) :
  filterStep sim threshold kept r =
  if tooClose threshold (map sim kept) (sim r) then kept else kept ++ [r].
Proof.
  unfold filterStep, tooClose.
  replace (existsb _ (map sim kept)) with
    (existsb (fun existing => (abs (sim existing - sim r) <? 1 - threshold)%float) kept);
    [reflexivity|].
  induction kept as [|e kept IH]; simpl; [reflexivity|]. now rewrite IH.
Qed.

Lemma filter_extends {T : Type} (sim : T -> float) (threshold : float)
  (post : list T) : forall kept,
  exists rest, fold_left (filterStep sim threshold) post kept = kept ++ rest.
Proof.
  induction post as [|r post IH]; intros kept; simpl.
  - exists []. now rewrite app_nil_r.
  - rewrite filterStep_spec. destruct (tooClose _ _ _).
    + apply IH.
    + destruct (IH (kept ++ [r])) as [rest ->]. exists (r :: rest).
      now rewrite <- app_assoc.
Qed.

Lemma tooClose_false (threshold : float) (kept : list float) (s : float) :
  tooClose threshold kept s = false <->
  Forall (fun e => (abs (e - s) <? 1 - threshold)%float = false) kept.
Proof.
  unfold tooClose. induction kept as [|e kept IH]; simpl.
  - split; [constructor|reflexivity].
  - rewrite orb_false_iff, IH. split.
    + intros [H1 H2]. now constructor.
    + intros H. inversion H. now split.
Qed.

(** C8. [filterSimilarResults] goes through the results in input order,
    never drops what it has kept, and keeps a result if and only if no
    result kept before it has a score strictly within [1 - threshold] of
    its score; the outcome depends on the scores alone, not on what the
    results are (no vector is looked at). *)
Theorem filterSimilarResults_greedy_on_scores {T : Type}
  (sim : T -> float) (threshold : float) :
  filterSimilarResults sim [] threshold = []
  /\ (forall pre r post,
        let kept := filterSimilarResults sim pre threshold in
        (exists rest,
           filterSimilarResults sim (pre ++ r :: post) threshold
           = filterSimilarResults sim (pre ++ [r]) threshold ++ rest)
        /\ (filterSimilarResults sim (pre ++ [r]) threshold = kept ++ [r] <->
            Forall (fun e => (abs (sim e - sim r) <? 1 - threshold)%float = false) kept)
        /\ (filterSimilarResults sim (pre ++ [r]) threshold = kept \/
            filterSimilarResults sim (pre ++ [r]) threshold = kept ++ [r]))
  /\ (forall results,
        map sim (filterSimilarResults sim results threshold)
        = filterSimilarResults (fun s => s) (map sim results) threshold).
Proof.
  split; [reflexivity|split].
  - intros pre r post kept. unfold filterSimilarResults in *.
    assert (Hstep : fold_left (filterStep sim threshold) (pre ++ [r]) []
                    = if tooClose threshold (map sim kept) (sim r)
                      then kept else kept ++ [r]).
    { rewrite fold_left_app. simpl. apply filterStep_spec. }
    split; [|split].
    + replace (pre ++ r :: post) with ((pre ++ [r]) ++ post)
        by now rewrite <- app_assoc.
      rewrite (fold_left_app _ (pre ++ [r])). apply filter_extends.
    + rewrite Hstep.
      destruct (tooClose threshold (map sim kept) (sim r)) eqn:E; split.
      * intros H. apply (f_equal (@List.length T)) in H.
        rewrite length_app in H. simpl in H. lia.
      * intros H. assert (E' : tooClose threshold (map sim kept) (sim r) = false).
        { apply tooClose_false. rewrite Forall_map. exact H. }
        congruence.
      * intros _. apply tooClose_false in E. now rewrite Forall_map in E.
      * reflexivity.
    + rewrite Hstep. destruct (tooClose _ _ _); auto.
  - intros results. unfold filterSimilarResults.
    change (@nil float) with (map sim []).
    generalize (@nil T) as kept.
    induction results as [|r results IH]; intros kept; simpl; [reflexivity|].
    rewrite IH. f_equal.
    rewrite !filterStep_spec, map_id.
    destruct (tooClose _ _ _); [reflexivity|]. now rewrite map_app.
Qed.

Lemma slice0_empty {A : Type} (l : list A) (k : Z) :
  k = 0%Z \/ (k <= - Z.of_nat (List.length l))%Z -> slice0 l k = [].
Proof.
  intros [->|H]; [apply slice0_zero|]. unfold slice0.
  destruct (Z.ltb_spec k 0).
  - now rewrite Z.max_r by lia.
  - replace k with 0%Z by lia. now rewrite Z.min_l by lia.
Qed.

(** C5, as the code has it.  For every query vector and every candidate
    list whose vectors have the query's length, [findTopKSimilar] returns
    the empty sequence when [k] is 0, and when [k] is negative and its
    absolute value is at least the number of candidates. *)
Theorem findTopKSimilar_empty_ranking {D : Type}
  (q : vector) (candidates : list (Candidate D)) (k : Z) :
  Forall (fun c => List.length (c_vector c) = List.length q) candidates ->
  k = 0%Z \/ (k <= - Z.of_nat (List.length candidates))%Z ->
  findTopKSimilar q candidates k = Ok [].
Proof.
  intros Hlen Hk.
  destruct (mapM_total (score q) candidates) as [scored Hscored].
  { eapply Forall_impl; [|exact Hlen]. intros c Hc. now apply score_total. }
  unfold findTopKSimilar. rewrite Hscored. simpl. f_equal.
  apply slice0_empty. rewrite sort_length.
  apply mapM_Forall2, Forall2_length in Hscored. now rewrite <- Hscored.
Qed.

Lemma findTopKSimilar_empty_ranking_witness :
  findTopKSimilar [1; 0]%float
    [ {| c_id := "a"; c_vector := [1; 0]%float; c_data := tt |};
      {| c_id := "b"; c_vector := [0; 1]%float; c_data := tt |} ] (-2)
  = Ok [].
Proof.
  apply findTopKSimilar_empty_ranking.
  - repeat constructor.
  - right. simpl. lia.
Defined.

(** C5 as stated fails twice: with two candidates and [k = -1] the
    ranking is cut to its first entry instead of being empty, and with a
    candidate of another length [findTopKSimilar] throws, whatever [k]. *)
Lemma findTopKSimilar_nonpositive_k_not_empty :
  findTopKSimilar [1; 0]%float
    [ {| c_id := "a"; c_vector := [1; 0]%float; c_data := tt |};
      {| c_id := "b"; c_vector := [0; 1]%float; c_data := tt |} ] (-1)
  = Ok [ {| id := "a"; similarity := 1%float; data := tt |} ]
  /\ findTopKSimilar [1; 0]%float
       [ {| c_id := "a"; c_vector := [1]%float; c_data := tt |} ] 0
     = Throw DimensionMismatch.
Proof. split; vm_compute; reflexivity. Qed.

End VectorizeFacts.

(* ===================================================================== *)
(** * routes/search.ts: properties                                        *)
(* ===================================================================== *)

Module SearchFacts.
Import Js Requests SearchRoute ArrayFacts.
Local Open Scope string_scope.

Lemma slice0_nil {A : Type} (k : Z) : slice0 (@nil A) k = [].
Proof. destruct (slice0_firstn (@nil A) k) as [n ->]. apply firstn_nil. Qed.

(** ** Validation *)

Lemma parse_throws_issues (input : AiValidation.SearchInput) (e : Error) :
  AiValidation.semanticSearchSchema_parse input = Throw e ->
  exists issues, e = ZodError issues /\ issues <> [].
Proof.
  unfold AiValidation.semanticSearchSchema_parse.
  set (l := match AiValidation.in_limit input with Some l => l | None => Some 10%Z end).
  set (m := match AiValidation.in_minSimilarity input with Some m => m | None => 0.5%float end).
  destruct (_ ++ _ ++ _)%list as [|i issues] eqn:E.
  - destruct l as [n|] eqn:El; [discriminate|].
    apply app_eq_nil in E as [_ E]. apply app_eq_nil in E as [E _]. discriminate.
  - intros H. injection H as <-. eexists. split; [reflexivity|discriminate].
Qed.

Lemma parse_ok_inv (input : AiValidation.SearchInput) (l : option Z) (m : float)
  (validated : AiValidation.SemanticSearchRequest) :
  AiValidation.in_limit input = Some l ->
  AiValidation.in_minSimilarity input = Some m ->
  AiValidation.semanticSearchSchema_parse input = Ok validated ->
  AiValidation.queryIssues (AiValidation.in_query input) = []
  /\ l = Some (AiValidation.limit validated)
  /\ AiValidation.limitIssues l = []
  /\ AiValidation.minSimilarity validated = m
  /\ AiValidation.minSimilarityIssues m = []
  /\ AiValidation.query validated = AiValidation.sanitizePrompt (AiValidation.in_query input)
  /\ AiValidation.category validated = AiValidation.in_category input
  /\ AiValidation.brand validated = AiValidation.in_brand input.
Proof.
  unfold AiValidation.semanticSearchSchema_parse. intros -> -> H.
  destruct (_ ++ _ ++ _)%list as [|i issues] eqn:E; [|discriminate].
  apply app_eq_nil in E as [E1 E]. apply app_eq_nil in E as [E2 E3].
  destruct l as [n|] eqn:El; [|discriminate].
  injection H as <-. simpl. repeat split; assumption.
Qed.

Lemma search_parse_inv (q : RawQuery) (validated : AiValidation.SemanticSearchRequest) :
  AiValidation.semanticSearchSchema_parse (searchInput q) = Ok validated ->
  AiValidation.queryIssues (orDefault (raw_query q) (fun s => s) "") = []
  /\ orDefault (raw_limit q) parseInt (Some 10%Z) = Some (AiValidation.limit validated)
  /\ (0 < AiValidation.limit validated <= 50)%Z
  /\ AiValidation.minSimilarity validated = orDefault (raw_minSimilarity q) parseFloat 0.5%float
  /\ AiValidation.minSimilarityIssues (AiValidation.minSimilarity validated) = []
  /\ AiValidation.category validated = raw_category q
  /\ AiValidation.brand validated = raw_brand q.
Proof.
  intros H.
  eapply parse_ok_inv in H as (Hq & Hl & Hi & Hm & Hmi & _ & Hc & Hb);
    [|reflexivity|reflexivity].
  rewrite Hm. repeat split; try assumption.
  - rewrite Hl in Hi. simpl in Hi. apply app_eq_nil in Hi as [H1 H2].
    destruct (Z.leb_spec (AiValidation.limit validated) 0); [discriminate|]. lia.
  - rewrite Hl in Hi. simpl in Hi. apply app_eq_nil in Hi as [H1 H2].
    destruct (Z.ltb_spec 50 (AiValidation.limit validated)); [discriminate|]. lia.
Qed.

Lemma minSimilarity_in_range (m : float) :
  AiValidation.minSimilarityIssues m = [] -> withinUnitInterval m = true.
Proof.
  unfold AiValidation.minSimilarityIssues, withinUnitInterval.
  destruct (is_nan m) eqn:En; [discriminate|]. intros H.
  apply app_eq_nil in H as [H1 H2].
  destruct (m <? 0)%float eqn:E0; [discriminate|].
  destruct (1 <? m)%float eqn:E1; [discriminate|].
  rewrite (FloatFacts.not_ltb_leb m 0), (FloatFacts.not_ltb_leb 1 m); auto.
Qed.

(** C10. A request with an empty query, with a limit that is not positive
    or is above 50, or with a threshold outside [0, 1] fails with the
    schema's validation error before the handler has called the embedding
    provider or the catalog; and an absent [limit] or [minSimilarity]
    parameter is read as 10 or 0.5. *)
Theorem invalid_request_fails_before_any_call
  (env : Env) (auth : option string) (q : RawQuery) :
  (emptyQuery q \/ limitOutOfRange q \/ thresholdOutOfRange q ->
   exists issues, issues <> [] /\ handler env auth q = ([], Throw (ZodError issues)))
  /\ (raw_limit q = None ->
      AiValidation.in_limit (searchInput q) = Some (Some 10%Z))
  /\ (raw_minSimilarity q = None ->
      AiValidation.in_minSimilarity (searchInput q) = Some 0.5%float)
  /\ (forall validated,
        AiValidation.semanticSearchSchema_parse (searchInput q) = Ok validated ->
        (raw_limit q = None -> AiValidation.limit validated = 10%Z)
        /\ (raw_minSimilarity q = None ->
            AiValidation.minSimilarity validated = 0.5%float)).
Proof.
  split; [|split; [|split]].
  - intros Hbad. unfold handler.
    destruct (AiValidation.semanticSearchSchema_parse (searchInput q)) as [v|e] eqn:E.
    + exfalso. apply search_parse_inv in E as (Hq & Hl & Hr & Hm & Hmi & _).
      destruct Hbad as [Hb|[Hb|Hb]].
      * unfold emptyQuery in Hb. rewrite Hb in Hq. discriminate.
      * specialize (Hb _ Hl). lia.
      * unfold thresholdOutOfRange in Hb. rewrite <- Hm in Hb.
        rewrite (minSimilarity_in_range _ Hmi) in Hb. discriminate.
    + apply parse_throws_issues in E as (issues & -> & Hne). now exists issues.
  - intros H. unfold searchInput. simpl. now rewrite H.
  - intros H. unfold searchInput. simpl. now rewrite H.
  - intros validated E. apply search_parse_inv in E as (_ & Hl & _ & Hm & _).
    split; intros H; rewrite H in *; simpl in *; congruence.
Qed.


Lemma invalid_request_fails_before_any_call_witness :
  exists issues,
    issues <> []
    /\ handler {| provider := Examples.providerUp; catalog := [Examples.lamp] |} None
         (Examples.request "" (Some "1.5"))
       = ([], Throw (ZodError issues)).
Proof.
  apply (invalid_request_fails_before_any_call
           {| provider := Examples.providerUp; catalog := [Examples.lamp] |} None
           (Examples.request "" (Some "1.5"))).
  left. reflexivity.
Defined.

(** ** The two where-clauses *)

(** The candidate query keeps the rows whose status is ['active'] (and
    whose category and brand are the requested ones). *)
Lemma candidateWhere_status (validated : AiValidation.SemanticSearchRequest)
  (row : Schema.Product) :
  Drizzle.holds (candidateWhere validated) row = true ->
  Schema.status row = "active".
Proof.
  unfold candidateWhere, conditions, optionalEq.
  destruct (AiValidation.category validated) as [[|c cs]|],
           (AiValidation.brand validated) as [[|b bs]|];
    unfold Drizzle.holds; simpl; rewrite ?orb_false_r, ?andb_true_r;
    intros H; repeat (apply andb_prop in H as [H ?]); now apply String.eqb_eq.
Qed.



(** No status of the schema's enum is ['active']. *)
Lemma statusInEnum_not_active (p : Schema.Product) :
  Schema.statusInEnum p = true -> Schema.status p <> "active".
Proof.
  unfold Schema.statusInEnum, Schema.statusEnum. simpl. intros H E. rewrite E in H.
  discriminate.
Qed.

Lemma candidate_pool_empty (validated : AiValidation.SemanticSearchRequest)
  (table : list Schema.Product) :
  Forall (fun p => Schema.statusInEnum p = true) table ->
  Drizzle.select (candidateWhere validated) table = [].
Proof.
  unfold Drizzle.select. induction 1 as [|p table Hp _ IH]; simpl; [reflexivity|].
  destruct (Drizzle.holds (candidateWhere validated) p) eqn:E; [|exact IH].
  apply candidateWhere_status in E. now apply statusInEnum_not_active in Hp.
Qed.

(** ** The handler *)

Lemma handler_valid (env : Env) (auth : option string) (q : RawQuery)
  (validated : AiValidation.SemanticSearchRequest) :
  AiValidation.semanticSearchSchema_parse (searchInput q) = Ok validated ->
  handler env auth q =
  match tryBlock env auth validated with
  | (calls, Ok response) => (calls, Ok response)
  | (calls, Throw _) =>
      ((calls ++ fst (fallback env validated))%list, Ok (snd (fallback env validated)))
  end.
Proof.
  intros H. unfold handler. rewrite H.
  destruct (tryBlock env auth validated) as [calls [r|e]]; reflexivity.
Qed.

(** On the main path of a catalog that respects the schema's status enum
    there is no candidate, and the response lists nothing. *)
Lemma main_path_empty (env : Env) (auth : option string) (q : RawQuery)
  (validated : AiValidation.SemanticSearchRequest) (queryVector : list float) :
  Forall (fun p => Schema.statusInEnum p = true) (catalog env) ->
  AiValidation.semanticSearchSchema_parse (searchInput q) = Ok validated ->
  provider env (AiValidation.query validated) = Ok queryVector ->
  Drizzle.select (candidateWhere validated) (catalog env) = []
  /\ snd (handler env auth q) = Ok {| products := []; total := 0; method := keyword |}.
Proof.
  intros Hs Hp Hq. pose proof (candidate_pool_empty validated _ Hs) as Hpool.
  split; [exact Hpool|].
  rewrite (handler_valid _ _ _ _ Hp). unfold tryBlock, Gemini.generateEmbedding, allProducts.
  rewrite Hq, Hpool. simpl.
  unfold Vectorize.findTopKSimilar. simpl.
  unfold combine, keywordResults. simpl.
  rewrite !slice0_nil. simpl. now rewrite slice0_nil.
Qed.




(** C1, at an input where it fails: a catalog whose only row has a status
    of the schema's enum and a description that contains the query, and a
    provider that rejects the embedding request.  The fallback query
    returns the row. *)
Theorem fallback_query_returns_rows_outside_the_pool :
  Forall (fun p => Schema.statusInEnum p = true) [Examples.inStockChair]
  /\ allProducts {| provider := Examples.providerDown;
                    catalog := [Examples.inStockChair] |}
       (Examples.validatedLamp 0.5%float) = []
  /\ snd (handler {| provider := Examples.providerDown;
                     catalog := [Examples.inStockChair] |} None
            (Examples.request "lamp" None))
     = Ok {| products := [ {| product := Examples.inStockChair;
                              itemSimilarity := None |} ];
             total := 1;
             method := keyword_fallback |}.
Proof.
  split; [|split].
  - repeat constructor.
  - vm_compute. reflexivity.
  - vm_compute. reflexivity.
Qed.

(** ** Candidates and scoring *)

Lemma productsWithVectors_spec (pool : list Schema.Product) :
  map Vectorize.c_data (productsWithVectors pool) = filter hasVector pool
  /\ Forall (fun c => Vectorize.c_id c = Schema.id (Vectorize.c_data c)
                      /\ Schema.vectorEmbedding (Vectorize.c_data c)
                         = Some (Vectorize.c_vector c))
            (productsWithVectors pool).
Proof.
  unfold productsWithVectors. split.
  - rewrite map_map. simpl. apply map_id.
  - rewrite Forall_map. simpl. apply Forall_forall. intros p Hp.
    apply filter_In in Hp as [_ Hp]. unfold hasVector, storedVector in *.
    destruct (Schema.vectorEmbedding p); [auto|discriminate].
Qed.

Lemma score_cases {D : Type} (q : Vectorize.vector) (c : Vectorize.Candidate D) :
  (List.length (Vectorize.c_vector c) = List.length q /\ exists r, Vectorize.score q c = Ok r)
  \/ (List.length (Vectorize.c_vector c) <> List.length q
      /\ Vectorize.score q c = Throw DimensionMismatch).
Proof.
  destruct (Nat.eq_dec (List.length (Vectorize.c_vector c)) (List.length q)) as [E|E].
  - left. split; [assumption|]. now apply VectorizeFacts.score_total.
  - right. split; [assumption|]. unfold Vectorize.score.
    rewrite VectorizeFacts.cosineSimilarity_mismatch by congruence. reflexivity.
Qed.

Lemma findTopKSimilar_mismatch {D : Type} (q : Vectorize.vector)
  (candidates : list (Vectorize.Candidate D)) (k : Z) :
  Exists (fun c => List.length (Vectorize.c_vector c) <> List.length q) candidates ->
  Vectorize.findTopKSimilar q candidates k = Throw DimensionMismatch.
Proof.
  intros H. unfold Vectorize.findTopKSimilar.
  assert (E : mapM (Vectorize.score q) candidates = Throw DimensionMismatch).
  { induction H as [c l Hc|c l _ IH]; simpl.
    - destruct (score_cases q c) as [[Hl _]|[_ ->]]; [contradiction|reflexivity].
    - destruct (score_cases q c) as [[_ [r ->]]|[_ ->]]; simpl; [|reflexivity].
      now rewrite IH. }
  now rewrite E.
Qed.

(** C4, as the code has it.  The handler hands to [findTopKSimilar] the
    rows of the candidate pool that hold an embedding, each with the stored
    vector as it is (a row without an embedding is left out, a stored
    vector of another length is not).  When a stored vector's length
    differs from the query vector's, scoring throws the dimension-mismatch
    error of [cosineSimilarity], and the handler answers with the
    keyword-fallback response. *)
Theorem stored_vectors_are_scored_unchecked
  (env : Env) (auth : option string) (q : RawQuery)
  (validated : AiValidation.SemanticSearchRequest) (queryVector : list float) :
  AiValidation.semanticSearchSchema_parse (searchInput q) = Ok validated ->
  provider env (AiValidation.query validated) = Ok queryVector ->
  map Vectorize.c_data
      (productsWithVectors (allProducts env validated))
  = filter hasVector (allProducts env validated)
  /\ Forall (fun c => Schema.vectorEmbedding (Vectorize.c_data c)
                      = Some (Vectorize.c_vector c))
            (productsWithVectors (allProducts env validated))
  /\ (Exists (fun c => List.length (Vectorize.c_vector c) <> List.length queryVector)
             (productsWithVectors (allProducts env validated)) ->
      Vectorize.findTopKSimilar queryVector
        (productsWithVectors (allProducts env validated))
        (AiValidation.limit validated * 2) = Throw DimensionMismatch
      /\ exists response,
           snd (handler env auth q) = Ok response
           /\ method response = keyword_fallback).
Proof.
  intros Hp Hq.
  destruct (productsWithVectors_spec (allProducts env validated)) as [H1 H2].
  split; [exact H1|]. split.
  - eapply Forall_impl; [|exact H2]. now intros c [_ H].
  - intros Hex. pose proof (findTopKSimilar_mismatch _ _
                              (AiValidation.limit validated * 2) Hex) as Hthrow.
    split; [exact Hthrow|].
    rewrite (handler_valid _ _ _ _ Hp). unfold tryBlock, Gemini.generateEmbedding.
    rewrite Hq, Hthrow. simpl. eexists. split; reflexivity.
Qed.

Lemma stored_vectors_are_scored_unchecked_witness :
  exists response,
    snd (handler {| provider := Examples.providerUp;
                    catalog := [Examples.shortVectorChair] |} None
           (Examples.request "lamp" None)) = Ok response
    /\ method response = keyword_fallback.
Proof.
  apply (stored_vectors_are_scored_unchecked
           {| provider := Examples.providerUp;
              catalog := [Examples.shortVectorChair] |} None
           (Examples.request "lamp" None)
           (Examples.validatedLamp 0.5%float) [1; 0]%float eq_refl eq_refl).
  left. simpl. discriminate.
Defined.

(** C4 as stated fails: a pool row with a stored vector of length 1 and a
    query vector of length 2.  The candidate is handed to
    [findTopKSimilar] all the same, and scoring it reaches the
    dimension-mismatch error. *)
Lemma mismatched_vector_reaches_scoring :
  ~ Forall (fun c => List.length (Vectorize.c_vector c) = List.length [1; 0]%float)
      (productsWithVectors
         (allProducts {| provider := Examples.providerUp;
                         catalog := [Examples.shortVectorChair] |}
            (Examples.validatedLamp 0.5%float)))
  /\ Vectorize.findTopKSimilar [1; 0]%float
       (productsWithVectors
          (allProducts {| provider := Examples.providerUp;
                          catalog := [Examples.shortVectorChair] |}
             (Examples.validatedLamp 0.5%float)))
       (AiValidation.limit (Examples.validatedLamp 0.5%float) * 2)
     = Throw DimensionMismatch
  /\ handler {| provider := Examples.providerUp;
                catalog := [Examples.shortVectorChair] |} None
       (Examples.request "lamp" None)
     = ([ EmbedContent "lamp";
          SelectProducts (candidateWhere (Examples.validatedLamp 0.5%float)) None;
          SelectProducts (fallbackWhere (Examples.validatedLamp 0.5%float)) (Some 10%Z) ],
        Ok {| products := []; total := 0; method := keyword_fallback |}).
Proof.
  split; [|split].
  - intros H. inversion H as [|? ? Hl _]; subst. simpl in Hl. discriminate.
  - vm_compute. reflexivity.
  - vm_compute. reflexivity.
Qed.

(** ** The merge step *)

Lemma NoDup_map_filter {A B : Type} (f : A -> B) (g : A -> bool) (l : list A) :
  NoDup (map f l) -> NoDup (map f (filter g l)).
Proof.
  induction l as [|x l IH]; simpl; intros H; [constructor|].
  inversion H as [|? ? Hx Hl]; subst.
  destruct (g x); simpl; [|now apply IH].
  constructor; [|now apply IH].
  intros Hin. apply Hx. apply in_map_iff in Hin as (y & Hy & Hin).
  apply filter_In in Hin as [Hin _]. apply in_map_iff. eauto.
Qed.

Lemma NoDup_firstn {A : Type} (n : nat) (l : list A) : NoDup l -> NoDup (firstn n l).
Proof.
  intros H. rewrite <- (firstn_skipn n l) in H. eapply NoDup_app_remove_r. exact H.
Qed.

Lemma NoDup_map_inj {A B : Type} (f : A -> B) (l : list A) (x y : A) :
  NoDup (map f l) -> In x l -> In y l -> f x = f y -> x = y.
Proof.
  induction l as [|z l IH]; simpl; intros H Hx Hy E; [contradiction|].
  inversion H as [|? ? Hz Hl]; subst.
  destruct Hx as [->|Hx], Hy as [->|Hy]; auto.
  - exfalso. apply Hz. rewrite E. now apply in_map.
  - exfalso. apply Hz. rewrite <- E. now apply in_map.
Qed.

Lemma StronglySorted_app {A : Type} (R : A -> A -> Prop) (l1 l2 : list A) :
  StronglySorted R l1 -> StronglySorted R l2 ->
  (forall a b, In a l1 -> In b l2 -> R a b) ->
  StronglySorted R (l1 ++ l2).
Proof.
  induction 1 as [|x l1 Hs IH Hall]; intros H2 Hc; simpl; [assumption|].
  constructor.
  - apply IH; [assumption|]. intros a b Ha Hb. apply Hc; [now right|assumption].
  - apply Forall_app. split; [assumption|].
    apply Forall_forall. intros b Hb. apply Hc; [now left|assumption].
Qed.

Lemma StronglySorted_map {A B : Type} (R : A -> A -> Prop) (S : B -> B -> Prop)
  (f : A -> B) (l : list A) :
  (forall a b, R a b -> S (f a) (f b)) ->
  StronglySorted R l -> StronglySorted S (map f l).
Proof.
  intros Hf. induction 1 as [|x l Hs IH Hall]; simpl; constructor; [assumption|].
  rewrite Forall_map. eapply Forall_impl; [|exact Hall]. intros a. apply Hf.
Qed.

Lemma has_In (ids : list string) (i : string) : has ids i = true <-> In i ids.
Proof.
  unfold has. rewrite existsb_exists. split.
  - intros (x & Hx & E). apply String.eqb_eq in E. now subst.
  - intros H. exists i. split; [assumption|apply String.eqb_refl].
Qed.

Lemma Forall2_In_r {A B : Type} (R : A -> B -> Prop) (l : list A) (l' : list B) (y : B) :
  Forall2 R l l' -> In y l' -> exists x, In x l /\ R x y.
Proof.
  induction 1 as [|a b l l' Hab _ IH]; simpl; intros Hy; [contradiction|].
  destruct Hy as [->|Hy].
  - exists a. auto.
  - destruct (IH Hy) as (x & Hx & Hr). exists x. auto.
Qed.

(** What [findTopKSimilar] returns is a prefix of the stable sort of the
    scored candidates. *)
Lemma findTopKSimilar_inv {D : Type} (q : Vectorize.vector)
  (candidates : list (Vectorize.Candidate D)) (k : Z)
  (top : list (Vectorize.Scored D)) :
  Vectorize.findTopKSimilar q candidates k = Ok top ->
  exists scored n,
    Forall2 (fun c r => Vectorize.score q c = Ok r) candidates scored
    /\ top = firstn n (sort Vectorize.bySimilarityDesc scored).
Proof.
  unfold Vectorize.findTopKSimilar.
  destruct (mapM (Vectorize.score q) candidates) as [scored|e] eqn:E; simpl; [|discriminate].
  intros H. injection H as <-.
  destruct (slice0_firstn (sort Vectorize.bySimilarityDesc scored) k) as [n Hn].
  exists scored, n. split; [now apply mapM_Forall2|exact Hn].
Qed.

Lemma scored_ids {D : Type} (q : Vectorize.vector)
  (candidates : list (Vectorize.Candidate D)) (scored : list (Vectorize.Scored D)) :
  Forall2 (fun c r => Vectorize.score q c = Ok r) candidates scored ->
  map Vectorize.id scored = map Vectorize.c_id candidates
  /\ map Vectorize.data scored = map Vectorize.c_data candidates.
Proof.
  induction 1 as [|c r cs rs Hc _ [IH1 IH2]]; simpl; [now split|].
  apply VectorizeFacts.score_inv in Hc as (-> & -> & _). now rewrite IH1, IH2.
Qed.

Lemma ranking_ids (q : Vectorize.vector) (pool : list Schema.Product) (k : Z)
  (top : list (Vectorize.Scored Schema.Product)) :
  NoDup (map Schema.id pool) ->
  Vectorize.findTopKSimilar q (productsWithVectors pool) k = Ok top ->
  NoDup (map Vectorize.id top)
  /\ Forall (fun r => Vectorize.id r = Schema.id (Vectorize.data r)
                      /\ In (Vectorize.data r) pool
                      /\ hasVector (Vectorize.data r) = true) top.
Proof.
  intros Hnd H. apply findTopKSimilar_inv in H as (scored & n & Hsc & ->).
  destruct (productsWithVectors_spec pool) as [Hdata Hcand].
  destruct (scored_ids _ _ _ Hsc) as [Hid Hd].
  assert (Hids : map Vectorize.c_id (productsWithVectors pool)
                 = map Schema.id (filter hasVector pool)).
  { rewrite <- Hdata, map_map. apply map_ext_in. intros c Hc.
    rewrite Forall_forall in Hcand. now apply Hcand. }
  split.
  - rewrite <- firstn_map. apply NoDup_firstn.
    eapply Permutation_NoDup.
    + apply Permutation_map. symmetry. apply sort_perm.
    + rewrite Hid, Hids. now apply NoDup_map_filter.
  - apply Forall_forall. intros r Hr. apply firstn_In in Hr.
    eapply Permutation_in in Hr; [|apply sort_perm].
    destruct (Forall2_In_r _ _ _ _ Hsc Hr) as (c & Hc & Hs).
    apply VectorizeFacts.score_inv in Hs as (-> & -> & _).
    rewrite Forall_forall in Hcand. destruct (Hcand c Hc) as [H1 _].
    assert (Hin : In (Vectorize.c_data c) (filter hasVector pool)).
    { rewrite <- Hdata. now apply in_map. }
    apply filter_In in Hin. tauto.
Qed.


(** C9, as the code has it.  The merged list is the vector results above
    the threshold (in the order of the ranking, each with its vector
    score) followed by the keyword matches whose identifier is not among
    them (each with the score 0.3), cut to the requested limit: no item
    appears twice, and an entry for an item of the vector results carries
    the vector score.  When the threshold is at least 0.3 and no
    candidate's score is [NaN], the list is in descending order of
    score. *)
Theorem merge_gives_priority_to_vector_results
  (env : Env) (auth : option string) (q : RawQuery)
  (validated : AiValidation.SemanticSearchRequest) (queryVector : list float)
  (top : list (Vectorize.Scored Schema.Product)) :
  NoDup (map Schema.id (catalog env)) ->
  AiValidation.semanticSearchSchema_parse (searchInput q) = Ok validated ->
  provider env (AiValidation.query validated) = Ok queryVector ->
  Vectorize.findTopKSimilar queryVector (productsWithVectors (allProducts env validated))
    (AiValidation.limit validated * 2) = Ok top ->
  exists response kept,
    snd (handler env auth q) = Ok response
    /\ (forall p, In p kept <->
                  In p (keywordResults validated (allProducts env validated))
                  /\ ~ In (Schema.id p)
                          (map Vectorize.id (filter (aboveThreshold validated) top)))
    /\ products response
       = firstn (Z.to_nat (AiValidation.limit validated))
           (map vectorItem (filter (aboveThreshold validated) top)
            ++ map keywordItem kept)
    /\ NoDup (map itemId (products response))
    /\ (forall i r, In i (products response) ->
                    In r (filter (aboveThreshold validated) top) ->
                    itemId i = Vectorize.id r ->
                    itemSimilarity i = Some (Vectorize.similarity r))
    /\ (Z.of_nat (List.length (products response)) <= AiValidation.limit validated)%Z
    /\ ((keywordScore <=? AiValidation.minSimilarity validated)%float = true ->
        Forall (Selection.numericScore queryVector)
               (productsWithVectors (allProducts env validated)) ->
        StronglySorted itemAtLeast (products response)).
Proof.
  intros Hnd Hp Hq Htop.
  pose proof (search_parse_inv _ _ Hp) as (_ & _ & Hlim & _).
  set (pool := allProducts env validated) in *.
  set (V := filter (aboveThreshold validated) top).
  set (kw := keywordResults validated pool).
  set (K := filter (fun p => negb (has (map Vectorize.id V) (Schema.id p))) kw).
  assert (Hpool : NoDup (map Schema.id pool)) by now apply NoDup_map_filter.
  destruct (ranking_ids _ _ _ _ Hpool Htop) as [HndTop Hall].
  assert (HV : Forall (fun r => Vectorize.id r = Schema.id (Vectorize.data r)) V).
  { apply Forall_forall. intros r Hr. apply filter_In in Hr as [Hr _].
    rewrite Forall_forall in Hall. now apply Hall. }
  assert (HndV : NoDup (map Vectorize.id V)) by now apply NoDup_map_filter.
  assert (HndK : NoDup (map Schema.id K)).
  { unfold K, kw, keywordResults. now repeat apply NoDup_map_filter. }
  assert (HK : forall p, In p K <-> In p kw /\ ~ In (Schema.id p) (map Vectorize.id V)).
  { intros p. unfold K. rewrite filter_In, negb_true_iff, <- has_In.
    now rewrite not_true_iff_false. }
  assert (Hids : map itemId (map vectorItem V ++ map keywordItem K)%list
                 = (map Vectorize.id V ++ map Schema.id K)%list).
  { rewrite map_app, !map_map. f_equal.
    apply map_ext_in. intros r Hr. rewrite Forall_forall in HV.
    symmetry. now apply HV. }
  exists {| products := combine validated V kw;
            total := List.length (combine validated V kw);
            method := match V with [] => keyword | _ => hybrid end |}, K.
  assert (Hcombine : combine validated V kw
                     = firstn (Z.to_nat (AiValidation.limit validated))
                         (map vectorItem V ++ map keywordItem K)).
  { unfold combine. now rewrite slice0_nonneg by lia. }
  simpl. rewrite Hcombine.
  split; [|split; [exact HK|split; [reflexivity|split; [|split; [|split]]]]].
  - rewrite (handler_valid _ _ _ _ Hp). unfold tryBlock, Gemini.generateEmbedding.
    rewrite Hq. fold pool. rewrite Htop. simpl. fold V kw. now rewrite Hcombine.
  - rewrite <- firstn_map. apply NoDup_firstn. rewrite Hids.
    apply NoDup_app; try assumption.
    intros a Ha Hk. apply in_map_iff in Hk as (p & <- & Hk).
    apply HK in Hk as [_ Hk]. contradiction.
  - intros i r Hi Hr E. apply firstn_In in Hi. apply in_app_or in Hi as [Hi|Hi].
    + apply in_map_iff in Hi as (r' & <- & Hr'). simpl. do 2 f_equal.
      apply (NoDup_map_inj Vectorize.id V); try assumption.
      rewrite <- E. unfold itemId. simpl.
      rewrite Forall_forall in HV. now apply HV.
    + exfalso. apply in_map_iff in Hi as (p & <- & Hk).
      apply HK in Hk as [_ Hk]. apply Hk. unfold itemId in E. simpl in E.
      rewrite E. now apply in_map.
  - pose proof (firstn_le_length (Z.to_nat (AiValidation.limit validated))
                  (map vectorItem V ++ map keywordItem K)). lia.
  - intros Hmin Hnum.
    pose proof (VectorizeFacts.ranking_descending _ _ _ _ Hnum Htop) as Hdesc.
    apply StronglySorted_firstn. apply StronglySorted_app.
    + apply (StronglySorted_map Ranking.atLeast).
      * intros a b H. exact H.
      * now apply Sorted_filter.
    + apply (StronglySorted_map (fun _ _ : Schema.Product => True)).
      * intros a b _. reflexivity.
      * clear. induction K; constructor; [assumption|]. now apply Forall_forall.
    + intros a b Ha Hb.
      apply in_map_iff in Ha as (r & <- & Hr). apply in_map_iff in Hb as (p & <- & _).
      apply filter_In in Hr as [_ Hr]. unfold aboveThreshold in Hr.
      unfold itemAtLeast, scoreOf. simpl.
      eapply FloatFacts.leb_trans; eassumption.
Qed.


Lemma merge_gives_priority_to_vector_results_witness :
  exists response,
    snd (handler {| provider := Examples.providerUp;
                    catalog := [Examples.alignedChair; Examples.lamp] |} None
           (Examples.request "lamp" None)) = Ok response
    /\ NoDup (map itemId (products response))
    /\ StronglySorted itemAtLeast (products response).
Proof.
  destruct (merge_gives_priority_to_vector_results
              {| provider := Examples.providerUp;
                 catalog := [Examples.alignedChair; Examples.lamp] |} None
              (Examples.request "lamp" None)
              (Examples.validatedLamp 0.5%float) [1; 0]%float
              [ {| Vectorize.id := "p1"; Vectorize.similarity := 1%float;
                   Vectorize.data := Examples.alignedChair |} ])
    as (response & kept & H1 & _ & _ & H2 & _ & _ & H3).
  - simpl. repeat constructor; simpl; intuition discriminate.
  - reflexivity.
  - reflexivity.
  - vm_compute. reflexivity.
  - exists response. split; [exact H1|]. split; [exact H2|]. apply H3.
    + vm_compute. reflexivity.
    + apply Forall_forall. intros c Hc. vm_compute in Hc. destruct Hc as [<-|[]].
      intros x H. vm_compute in H. injection H as <-. reflexivity.
Defined.

(** C9 as stated fails.  With the threshold 0 a vector result that scores
    0 stands before a keyword result, which scores 0.3.  And with the
    default threshold, when the score of a candidate is [NaN] the ranking
    is not in descending order, and the merged list is not either: the
    entry of the row [a] stands before the entry of the row [b], which
    scores higher. *)
Lemma merged_list_can_ascend :
  (exists response,
     snd (handler {| provider := Examples.providerUp;
                     catalog := [Examples.orthogonalChair; Examples.lamp] |} None
            (Examples.request "lamp" (Some "0"))) = Ok response
     /\ map scoreOf (products response) = [0; 0.3]%float
     /\ ~ Sorted itemNoAscent (products response))
  /\ (exists response,
        snd (handler {| provider := Examples.providerDiagonal;
                        catalog := [Examples.axisRow; Examples.hugeRow;
                                    Examples.diagonalRow] |} None
               (Examples.request "lamp" None)) = Ok response
        /\ map itemId (products response) = ["a"; "b"]
        /\ ~ Sorted itemNoAscent (products response)).
Proof.
  split.
  - eexists. split; [vm_compute; reflexivity|]. split; [vm_compute; reflexivity|].
    intros H. inversion H as [|? ? _ Hd]; subst. inversion Hd as [|? ? Hr]; subst.
    vm_compute in Hr. discriminate.
  - eexists. split; [vm_compute; reflexivity|]. split; [vm_compute; reflexivity|].
    intros H. inversion H as [|? ? _ Hd]; subst. inversion Hd as [|? ? Hr]; subst.
    vm_compute in Hr. discriminate.
Qed.

End SearchFacts.

(* ===================================================================== *)
(** * scripts/vectorize-products.ts: properties                           *)
(* ===================================================================== *)

Module BatchFacts.
Import Js VectorizeProducts Batches ArrayFacts.

Lemma slice_map {A B : Type} (f : A -> B) (l : list A) (i j : nat) :
  slice (map f l) i j = map f (slice l i j).
Proof. unfold slice. now rewrite skipn_map, firstn_map. Qed.

(** The batch request succeeds exactly when every text embeds. *)
Lemma generateBatchEmbeddings_spec (provider : Gemini.Provider)
  (batch : list Schema.Product) :
  if forallb (embeds provider) batch
  then exists embeddings,
         Gemini.generateBatchEmbeddings provider (map productText batch) = Ok embeddings
         /\ List.length embeddings = List.length batch
  else exists e,
         Gemini.generateBatchEmbeddings provider (map productText batch) = Throw e.
Proof.
  unfold Gemini.generateBatchEmbeddings.
  induction batch as [|p batch IH]; simpl.
  - now exists [].
  - unfold embeds at 1. destruct (provider (productText p)) as [v|e]; simpl.
    + destruct (forallb (embeds provider) batch).
      * destruct IH as (vs & -> & Hl). exists (v :: vs). simpl. now rewrite Hl.
      * destruct IH as (e & ->). now exists e.
    + now exists e.
Qed.

Lemma observe_update (store : list Schema.Product) (i : string) (v : list float)
  (t : string) :
  map observe (update store i v t) = map (embedded [i]) (map observe store).
Proof.
  unfold update. rewrite !map_map. apply map_ext. intros p.
  unfold observe, embedded, hasEmbedding, lacksEmbedding. simpl.
  rewrite orb_false_r.
  destruct (String.eqb (Schema.id p) i); simpl.
  - now rewrite orb_true_r.
  - now rewrite orb_false_r.
Qed.

Lemma embedded_embedded (ids ids' : list string) (os : list (string * bool)) :
  map (embedded ids') (map (embedded ids) os) = map (embedded (ids ++ ids')) os.
Proof.
  rewrite map_map. apply map_ext. intros [x b]. unfold embedded. simpl.
  now rewrite existsb_app, orb_assoc.
Qed.

Lemma embedded_nil (os : list (string * bool)) : map (embedded []) os = os.
Proof.
  rewrite <- (map_id os) at 2. apply map_ext. intros [x b]. unfold embedded. simpl.
  now rewrite orb_false_r.
Qed.

(** The loop over [j] gives an embedding to every product of the batch
    and counts each of them. *)
Lemma persist_spec (clock : Clock) (batchProducts : list Schema.Product) :
  forall (embeddings : list (list float)) (st : Run),
    List.length embeddings = List.length batchProducts ->
    processedCount (persist clock st batchProducts embeddings)
    = processedCount st + List.length batchProducts
    /\ map observe (db (persist clock st batchProducts embeddings))
       = map (embedded (map Schema.id batchProducts)) (map observe (db st)).
Proof.
  induction batchProducts as [|p ps IH]; intros [|v vs] st Hl; simpl in *;
    try discriminate.
  - split; [lia|]. now rewrite embedded_nil.
  - destruct (IH vs {| db := update (db st) (Schema.id p) v (clock (processedCount st));
                       processedCount := S (processedCount st) |}) as [H1 H2]; [lia|].
    rewrite H1, H2. simpl. split; [lia|].
    rewrite observe_update. apply (embedded_embedded [Schema.id p]).
Qed.

(** One turn of the loop over [i]: the whole batch, or nothing. *)
Lemma processBatch_spec (clock : Clock) (provider : Gemini.Provider) (pending : list Schema.Product)
  (st : Run) (i : nat) :
  let st' := processBatch clock provider st
               (slice (map productText pending) i (i + batchSize))
               (slice pending i (i + batchSize)) in
  if batchSucceeds provider pending i
  then processedCount st' = processedCount st + List.length (batchAt pending i)
       /\ map observe (db st')
          = map (embedded (map Schema.id (batchAt pending i))) (map observe (db st))
  else st' = st.
Proof.
  unfold batchSucceeds, batchAt, processBatch. rewrite slice_map.
  pose proof (generateBatchEmbeddings_spec provider (slice pending i (i + batchSize))) as H.
  destruct (forallb (embeds provider) (slice pending i (i + batchSize))).
  - destruct H as (vs & -> & Hl). now apply persist_spec.
  - destruct H as (e & ->). reflexivity.
Qed.

Lemma run_spec (clock : Clock) (provider : Gemini.Provider) (pending : list Schema.Product)
  (starts : list nat) : forall st : Run,
  let final :=
    fold_left (fun st i =>
                 processBatch clock provider st
                   (slice (map productText pending) i (i + batchSize))
                   (slice pending i (i + batchSize)))
              starts st in
  processedCount final = processedCount st + persistedCount provider pending starts
  /\ map observe (db final)
     = map (embedded (persistedIds provider pending starts)) (map observe (db st)).
Proof.
  induction starts as [|i starts IH]; intros st; simpl.
  - split; [unfold persistedCount; simpl; lia|]. now rewrite embedded_nil.
  - destruct (IH (processBatch clock provider st
                    (slice (map productText pending) i (i + batchSize))
                    (slice pending i (i + batchSize)))) as [H1 H2].
    rewrite H1, H2. clear IH H1 H2.
    pose proof (processBatch_spec clock provider pending st i) as H. simpl in H.
    unfold persistedCount, persistedIds in *. simpl.
    destruct (batchSucceeds provider pending i).
    + destruct H as [-> ->]. split; [lia|]. apply embedded_embedded.
    + rewrite H. simpl. split; reflexivity.
Qed.

(** The scenario of twelve pending items: the first batch has the ten
    first of them, the second the two last. *)
Lemma twelve_pending (provider : Gemini.Provider) (pending : list Schema.Product)
  (p7 p11 p12 : Schema.Product) :
  List.length pending = 12 ->
  nth_error pending 6 = Some p7 ->
  nth_error pending 10 = Some p11 ->
  nth_error pending 11 = Some p12 ->
  embeds provider p7 = false ->
  embeds provider p11 = true ->
  embeds provider p12 = true ->
  persistedCount provider pending (batchStarts 12) = 2
  /\ persistedIds provider pending (batchStarts 12) = [Schema.id p11; Schema.id p12].
Proof.
  intros Hl H7 H11 H12 E7 E11 E12.
  do 12 (destruct pending as [|? pending]; [discriminate|]).
  destruct pending; [|discriminate].
  simpl in H7, H11, H12. injection H7 as ->. injection H11 as ->. injection H12 as ->.
  change (batchStarts 12) with [0; 10].
  unfold persistedCount, persistedIds, batchSucceeds, batchAt, slice. simpl.
  rewrite E7, E11, E12. rewrite !andb_false_r. simpl. now split.
Qed.

(** C2, as the code has it.  The pending products are embedded batch by
    batch, and a batch is persisted as a whole or not at all: a batch with
    an item that fails to embed leaves the store and the count as they
    were, and the run goes on; the run reports the number of items of the
    batches all of whose items embed, and a row of the store holds an
    embedding afterwards exactly when it held one before or belongs to
    such a batch.  In the scenario of twelve pending items where the
    seventh fails to embed (and the two last embed), the first batch is
    lost: items 11 and 12 alone are embedded, and the run reports 2 of
    12. *)
Theorem batches_are_persisted_as_a_whole
  (clock : Clock) (provider : Gemini.Provider) (store : list Schema.Product) :
  (forall (st : Run) (i : nat),
     batchSucceeds provider (filter lacksEmbedding store) i = false ->
     processBatch clock provider st
       (slice (map productText (filter lacksEmbedding store)) i (i + batchSize))
       (slice (filter lacksEmbedding store) i (i + batchSize)) = st)
  /\ found (vectorizeProducts clock provider store)
     = List.length (filter lacksEmbedding store)
  /\ processed (vectorizeProducts clock provider store)
     = persistedCount provider (filter lacksEmbedding store)
         (batchStarts (List.length (filter lacksEmbedding store)))
  /\ map observe (finalDb (vectorizeProducts clock provider store))
     = map (embedded (persistedIds provider (filter lacksEmbedding store)
                        (batchStarts (List.length (filter lacksEmbedding store)))))
           (map observe store)
  /\ (forall p7 p11 p12,
        List.length (filter lacksEmbedding store) = 12 ->
        nth_error (filter lacksEmbedding store) 6 = Some p7 ->
        nth_error (filter lacksEmbedding store) 10 = Some p11 ->
        nth_error (filter lacksEmbedding store) 11 = Some p12 ->
        embeds provider p7 = false ->
        embeds provider p11 = true ->
        embeds provider p12 = true ->
        processed (vectorizeProducts clock provider store) = 2
        /\ found (vectorizeProducts clock provider store) = 12
        /\ map observe (finalDb (vectorizeProducts clock provider store))
           = map (embedded [Schema.id p11; Schema.id p12]) (map observe store)).
Proof.
  assert (Hrun : processed (vectorizeProducts clock provider store)
                 = persistedCount provider (filter lacksEmbedding store)
                     (batchStarts (List.length (filter lacksEmbedding store)))
                 /\ map observe (finalDb (vectorizeProducts clock provider store))
                    = map (embedded (persistedIds provider (filter lacksEmbedding store)
                                       (batchStarts (List.length (filter lacksEmbedding store)))))
                          (map observe store)).
  { unfold vectorizeProducts. simpl. rewrite length_map.
    destruct (run_spec clock provider (filter lacksEmbedding store)
                (batchStarts (List.length (filter lacksEmbedding store)))
                {| db := store; processedCount := 0 |}) as [H1 H2].
    simpl in H1, H2. now rewrite H1, H2. }
  destruct Hrun as [Hcount Hdb].
  split; [|split; [reflexivity|split; [exact Hcount|split; [exact Hdb|]]]].
  - intros st i H.
    pose proof (processBatch_spec clock provider (filter lacksEmbedding store) st i) as Hs.
    simpl in Hs. now rewrite H in Hs.
  - intros p7 p11 p12 Hl H7 H11 H12 E7 E11 E12.
    rewrite Hcount, Hdb, Hl.
    destruct (twelve_pending provider _ p7 p11 p12 Hl H7 H11 H12 E7 E11 E12) as [-> ->].
    repeat split. unfold found, vectorizeProducts. exact Hl.
Qed.

(** Witness: the twelve products of the scenario, the provider rejecting
    the text of the seventh. *)
Lemma batches_are_persisted_as_a_whole_witness :
  processed (vectorizeProducts Examples.clock Examples.failsOnSeventh Examples.twelve) = 2
  /\ found (vectorizeProducts Examples.clock Examples.failsOnSeventh Examples.twelve) = 12
  /\ map observe (finalDb (vectorizeProducts Examples.clock Examples.failsOnSeventh Examples.twelve))
     = map (embedded ["p11"; "p12"]%string) (map observe Examples.twelve).
Proof.
  apply (batches_are_persisted_as_a_whole Examples.clock Examples.failsOnSeventh Examples.twelve)
    with (p7 := Examples.pendingProduct "7")
         (p11 := Examples.pendingProduct "11")
         (p12 := Examples.pendingProduct "12"); reflexivity.
Defined.

(** C2 as stated fails on the scenario: of the twelve pending items only
    two are reported, and the first item, which embeds, is not persisted. *)
Lemma failing_item_discards_its_batch :
  processed (vectorizeProducts Examples.clock Examples.failsOnSeventh Examples.twelve) <> 11
  /\ embeds Examples.failsOnSeventh (Examples.pendingProduct "1") = true
  /\ map observe (finalDb (vectorizeProducts Examples.clock Examples.failsOnSeventh Examples.twelve))
     = [ ("p1", false); ("p2", false); ("p3", false); ("p4", false); ("p5", false);
         ("p6", false); ("p7", false); ("p8", false); ("p9", false); ("p10", false);
         ("p11", true); ("p12", true) ]%string.
Proof.
  split; [|split].
  - vm_compute. discriminate.
  - vm_compute. reflexivity.
  - vm_compute. reflexivity.
Qed.

End BatchFacts.

(* ===================================================================== *)
(** * More facts about binary64 arithmetic *)
(* ===================================================================== *)

Module FloatSignFacts.
Import FloatOrder.
Local Open Scope Z_scope.

Lemma binary_round_aux_opp (s : bool) (m e : Z) (l : location) :
  binary_round_aux prec emax (negb s) m e l
  = SFopp (binary_round_aux prec emax s m e l).
Proof.
  unfold binary_round_aux.
  destruct (shr_fexp prec emax m e l) as [mrs' e'].
  destruct (shr_fexp prec emax _ e' loc_Exact) as [mrs'' e''].
  destruct (shr_m mrs''); try reflexivity.
  destruct (e'' <=? emax - prec); reflexivity.
Qed.

Lemma SFabs_opp (x : spec_float) : SFabs (SFopp x) = SFabs x.
Proof. destruct x; reflexivity. Qed.

Lemma binary_normalize_abs (m e : Z) :
  SFabs (binary_normalize prec emax (- m) e false)
  = SFabs (binary_normalize prec emax m e false).
Proof.
  destruct m as [|p|p]; simpl; [reflexivity| |]; unfold binary_round;
    destruct (shl_align _ _ _) as [mz ez].
  - change true with (negb false). now rewrite binary_round_aux_opp, SFabs_opp.
  - change true with (negb false). now rewrite binary_round_aux_opp, SFabs_opp.
Qed.

Lemma SFsub_swap (x y : spec_float) :
  SFabs (SF64sub x y) = SFabs (SF64sub y x).
Proof.
  destruct x as [sx|sx| |sx mx ex], y as [sy|sy| |sy my ey];
    try (destruct sx; try destruct sy; reflexivity);
    try (destruct sy; reflexivity); try reflexivity.
  unfold SF64sub, SFsub. rewrite (Z.min_comm ey ex).
  rewrite <- binary_normalize_abs. f_equal. f_equal. lia.
Qed.

Lemma SFmul_abs (z : spec_float) : SF64mul z z = SF64mul (SFabs z) (SFabs z).
Proof. destruct z as [s|s| |s m e]; try destruct s; reflexivity. Qed.

(** The square of a difference does not depend on its direction. *)
Lemma square_diff_comm (a b : float) :
  ((a - b) * (a - b) = (b - a) * (b - a))%float.
Proof.
  apply Prim2SF_inj. rewrite !mul_spec, !sub_spec.
  rewrite SFmul_abs, (SFsub_swap (Prim2SF a)), <- SFmul_abs. reflexivity.
Qed.

Lemma binary_round_aux_nonneg (m e : Z) (l : location) :
  match binary_round_aux prec emax false m e l with
  | S754_zero s | S754_infinity s | S754_finite s _ _ => s = false
  | S754_nan => True
  end.
Proof.
  unfold binary_round_aux.
  destruct (shr_fexp prec emax m e l) as [mrs' e'].
  destruct (shr_fexp prec emax _ e' loc_Exact) as [mrs'' e''].
  destruct (shr_m mrs''); try exact I; try reflexivity.
  destruct (e'' <=? emax - prec); reflexivity.
Qed.

(** A square root is [NaN] or at least zero. *)
Lemma sqrt_sign (x : float) :
  is_nan (sqrt x) = true \/ (0 <=? sqrt x)%float = true.
Proof.
  rewrite FloatFacts.is_nan_number, leb_spec, sqrt_spec.
  change (Prim2SF 0) with (S754_zero false). unfold SF64sqrt, SFsqrt.
  destruct (Prim2SF x) as [s|s| |s m e]; try (destruct s); simpl; auto.
  destruct (SFsqrt_core_binary prec emax (Z.pos m) e) as [[mz ez] lz].
  pose proof (binary_round_aux_nonneg mz ez lz) as H.
  destruct (binary_round_aux prec emax false mz ez lz) as [s|s| |s m' e'];
    try subst s; simpl; auto.
Qed.

Lemma nan_spec : Prim2SF nan = S754_nan.
Proof. reflexivity. Qed.

Lemma add_nan_r (x : float) : (x + nan)%float = nan.
Proof.
  apply Prim2SF_inj. rewrite add_spec, nan_spec.
  destruct (Prim2SF x) as [s|s| |s m e]; try destruct s; reflexivity.
Qed.

Lemma add_nan_l (x : float) : (nan + x)%float = nan.
Proof. apply Prim2SF_inj. now rewrite add_spec, nan_spec. Qed.

Lemma div_nan_l (x : float) : (nan / x)%float = nan.
Proof. apply Prim2SF_inj. now rewrite div_spec, nan_spec. Qed.

(** What [is_finite] and a comparison with zero say of the value. *)
Lemma is_finite_spec (x : float) :
  is_finite x = true ->
  match Prim2SF x with
  | S754_zero _ | S754_finite _ _ _ => True
  | _ => False
  end.
Proof.
  unfold is_finite, is_infinity. rewrite negb_true_iff, orb_false_iff.
  rewrite FloatFacts.is_nan_number, eqb_spec, abs_spec. intros [Hn Hi].
  destruct (Prim2SF x) as [s|s| |s m e]; try exact I; discriminate.
Qed.

Lemma eqb_zero_spec (x : float) :
  (x =? 0)%float = true -> exists s, Prim2SF x = S754_zero s.
Proof.
  rewrite eqb_spec. change (Prim2SF 0) with (S754_zero false).
  destruct (Prim2SF x) as [s|s| |s m e]; try destruct s; try discriminate; eauto.
Qed.

Lemma SFsub_diag (x : spec_float) :
  match x with S754_zero _ | S754_finite _ _ _ => True | _ => False end ->
  SF64sub x x = S754_zero false.
Proof.
  destruct x as [s|s| |s m e]; try contradiction; intros _.
  - destruct s; reflexivity.
  - unfold SF64sub, SFsub. now rewrite Z.sub_diag.
Qed.

Lemma sub_diag (x : float) : is_finite x = true -> (x - x)%float = 0%float.
Proof.
  intros H. apply Prim2SF_inj. rewrite sub_spec.
  now apply SFsub_diag, is_finite_spec.
Qed.

End FloatSignFacts.

Module FloatUnitFacts.
Import FloatOrder.
Local Open Scope Z_scope.

Lemma div_eucl_eq (a b : Z) : Z.div_eucl a b = (a / b, a mod b).
Proof. unfold Z.div, Z.modulo. now destruct (Z.div_eucl a b). Qed.

(** Rounding a canonical mantissa leaves it as it is. *)
Lemma binary_round_aux_canonical (s : bool) (m : positive) (e : Z) :
  bounded prec emax m e = true ->
  binary_round_aux prec emax s (Z.pos m) e loc_Exact = S754_finite s m e.
Proof.
  unfold bounded. intros H. apply andb_prop in H as [Hc He].
  unfold canonical_mantissa in Hc. apply Z.eqb_eq in Hc.
  unfold binary_round_aux, shr_fexp. cbn [Zdigits2 shr_record_of_loc].
  rewrite Hc, Z.sub_diag. cbn [shr shr_m loc_of_shr_record round_nearest_even].
  cbn [Zdigits2 shr_record_of_loc]. rewrite Hc, Z.sub_diag. cbn [shr shr_m].
  now rewrite He.
Qed.

(** The same for twice the mantissa, one exponent below. *)
Lemma binary_round_aux_doubled (s : bool) (m : positive) (e : Z) :
  bounded prec emax m e = true ->
  fexp prec emax (Z.pos (digits2_pos m) + e - 1) = e - 1 ->
  binary_round_aux prec emax s (Z.pos m~0) (e - 1) loc_Exact = S754_finite s m e.
Proof.
  unfold bounded. intros H Hf. apply andb_prop in H as [Hc He].
  unfold canonical_mantissa in Hc. apply Z.eqb_eq in Hc.
  unfold binary_round_aux, shr_fexp. cbn [Zdigits2 shr_record_of_loc digits2_pos].
  replace (fexp prec emax (Z.pos (Pos.succ (digits2_pos m)) + (e - 1)) - (e - 1)) with 1
    by (rewrite Pos2Z.inj_succ;
        replace (Z.succ (Z.pos (digits2_pos m)) + (e - 1)) with (Z.pos (digits2_pos m) + e)
          by lia; lia).
  cbn [shr iter_pos shr_1 shr_m shr_r shr_s loc_of_shr_record round_nearest_even orb].
  replace (e - 1 + 1) with e by lia.
  cbn [Zdigits2 shr_record_of_loc]. rewrite Hc, Z.sub_diag. cbn [shr shr_m].
  now rewrite He.
Qed.

Lemma SFdiv_one (x : spec_float) :
  valid_binary x = true -> SF64div x (Prim2SF 1) = x.
Proof.
  change (Prim2SF 1) with (S754_finite false 4503599627370496 (-52)).
  destruct x as [s|s| |s m e]; try (destruct s; reflexivity); [reflexivity|].
  cbn [SpecFloat.valid_binary]. intros Hb.
  pose proof Hb as Hb'. unfold bounded in Hb'. apply andb_prop in Hb' as [Hc _].
  pose proof (FloatFacts.canonical_exponent m e Hc) as (Hmin & Hd & Hnorm).
  unfold canonical_mantissa in Hc. apply Z.eqb_eq in Hc.
  unfold SF64div, SFdiv, SFdiv_core_binary. rewrite xorb_false_r.
  cbn [Zdigits2]. change (digits2_pos 4503599627370496) with 53%positive.
  replace (Z.pos (digits2_pos m) + e - (53 + -52)) with (Z.pos (digits2_pos m) + e - 1)
    by lia.
  destruct (Z.eq_dec (fexp prec emax (Z.pos (digits2_pos m) + e - 1)) (e - 1)) as [Hf|Hf].
  - rewrite Hf. replace (Z.min (e - 1) (e - -52)) with (e - 1) by lia.
    replace (e - -52 - (e - 1)) with 53 by lia.
    rewrite div_eucl_eq.
    replace (Z.shiftl (Z.pos m) 53) with (Z.pos m~0 * 4503599627370496)
      by (rewrite Z.shiftl_mul_pow2 by lia; change (2 ^ 53) with 9007199254740992; lia).
    rewrite Z.div_mul, Z.mod_mul by lia.
    change (new_location 4503599627370496 0) with loc_Exact.
    now apply binary_round_aux_doubled.
  - assert (Hf' : fexp prec emax (Z.pos (digits2_pos m) + e - 1) = e).
    { unfold fexp in *. fold emin in *. unfold prec in *. lia. }
    rewrite Hf'. replace (Z.min e (e - -52)) with e by lia.
    replace (e - -52 - e) with 52 by lia.
    rewrite div_eucl_eq.
    replace (Z.shiftl (Z.pos m) 52) with (Z.pos m * 4503599627370496)
      by (rewrite Z.shiftl_mul_pow2 by lia; change (2 ^ 52) with 4503599627370496; lia).
    rewrite Z.div_mul, Z.mod_mul by lia.
    change (new_location 4503599627370496 0) with loc_Exact.
    now apply binary_round_aux_canonical.
Qed.

Lemma div_one (x : float) : (x / 1)%float = x.
Proof.
  apply Prim2SF_inj. rewrite div_spec. apply SFdiv_one, Prim2SF_valid.
Qed.

Lemma add_zero_l (x : float) : x <> (-0)%float -> (0 + x)%float = x.
Proof.
  intros H. apply Prim2SF_inj. rewrite add_spec.
  change (Prim2SF 0) with (S754_zero false).
  destruct (Prim2SF x) as [s|s| |s m e] eqn:E; try reflexivity.
  destruct s; [|reflexivity].
  exfalso. apply H. apply Prim2SF_inj. now rewrite E.
Qed.

End FloatUnitFacts.

(* ===================================================================== *)
(** * services/vectorize.ts: ranking and filtering, further properties *)
(* ===================================================================== *)

Module TopKFacts.
Import Js Vectorize Ranking Selection ArrayFacts FloatOrder.

Lemma eqb_ltb_excl (x y s : float) :
  (x <? y)%float = true -> (x =? s)%float = true -> (y =? s)%float = false.
Proof.
  rewrite ltb_spec, !eqb_spec. unfold SFltb, SFeqb. rewrite !FloatFacts.SFcompare_rank.
  destruct (is_number (Prim2SF x)), (is_number (Prim2SF y)), (is_number (Prim2SF s));
    simpl; try discriminate; try reflexivity.
  pose proof (FloatFacts.lex3_spec (rank (Prim2SF x)) (rank (Prim2SF y))) as H1.
  pose proof (FloatFacts.lex3_spec (rank (Prim2SF x)) (rank (Prim2SF s))) as H2.
  pose proof (FloatFacts.lex3_spec (rank (Prim2SF y)) (rank (Prim2SF s))) as H3.
  destruct (lex3 (rank (Prim2SF x)) (rank (Prim2SF y))); try discriminate.
  destruct (lex3 (rank (Prim2SF x)) (rank (Prim2SF s))); try discriminate.
  destruct (lex3 (rank (Prim2SF y)) (rank (Prim2SF s))); try reflexivity.
  intros _ _. rewrite H2, H3 in H1.
  destruct (rank (Prim2SF s)) as [[a b] c]. unfold lexlt in H1. lia.
Qed.

Lemma insert_scoring {D : Type} (s : float) (x : Scored D) (l : list (Scored D)) :
  filter (scoring s) (insert bySimilarityDesc x l) = filter (scoring s) (x :: l).
Proof.
  induction l as [|y l IH]; [reflexivity|].
  cbn [insert]. unfold bySimilarityDesc at 1. rewrite FloatFacts.sub_pos_iff.
  destruct (similarity x <? similarity y)%float eqn:E; [|reflexivity].
  cbn [filter]. rewrite IH. cbn [filter].
  assert (Hx : scoring s x = (similarity x =? s)%float) by reflexivity.
  assert (Hy : scoring s y = (similarity y =? s)%float) by reflexivity.
  destruct (scoring s x) eqn:Ex; [|reflexivity].
  rewrite Hy, (eqb_ltb_excl _ _ _ E (eq_sym Hx)). reflexivity.
Qed.

Lemma sort_scoring {D : Type} (s : float) (l : list (Scored D)) :
  filter (scoring s) (sort bySimilarityDesc l) = filter (scoring s) l.
Proof.
  induction l as [|x l IH]; [reflexivity|].
  cbn [sort]. rewrite insert_scoring. cbn [filter]. now rewrite IH.
Qed.

Lemma scored_scoring {D : Type} (q : vector) (s : float)
  (candidates : list (Candidate D)) (scored : list (Scored D)) :
  Forall2 (fun c r => score q c = Ok r) candidates scored ->
  map id (filter (scoring s) scored)
  = map c_id (filter (candidateScoring q s) candidates).
Proof.
  induction 1 as [|c r cs rs Hc _ IH]; [reflexivity|].
  apply VectorizeFacts.score_inv in Hc as (Hid & _ & Hs).
  cbn [filter]. unfold scoring at 1, candidateScoring at 1. rewrite Hs.
  destruct (similarity r =? s)%float; cbn [map]; now rewrite IH, ?Hid.
Qed.

Lemma filter_firstn_prefix {A : Type} (f : A -> bool) (n : nat) (l : list A) :
  exists rest, filter f l = filter f (firstn n l) ++ rest.
Proof.
  exists (filter f (skipn n l)).
  now rewrite <- filter_app, firstn_skipn.
Qed.

(** X1.  Entries with equal scores keep the order of the candidates.  For
    candidates whose scores are numbers (the comparator is then
    consistent) and every score [s], the identifiers of the ranking's
    entries that score [s] are an initial part of the identifiers of the
    candidates that score [s], in the order of the candidate list, and all
    of them when [k] is at least the number of candidates. *)
Theorem findTopKSimilar_ties_keep_input_order {D : Type}
  (q : vector) (candidates : list (Candidate D)) (k : Z)
  (ranking : list (Scored D)) (s : float) :
  Forall (numericScore q) candidates ->
  findTopKSimilar q candidates k = Ok ranking ->
  exists rest,
    map c_id (filter (candidateScoring q s) candidates)
    = map id (filter (scoring s) ranking) ++ rest
    /\ ((Z.of_nat (List.length candidates) <= k)%Z -> rest = []).
Proof.
  intros _. unfold findTopKSimilar.
  destruct (mapM (score q) candidates) as [scored|e] eqn:E; [|discriminate].
  simpl. intros H. injection H as <-.
  apply mapM_Forall2 in E.
  rewrite <- (scored_scoring _ _ _ _ E), <- (sort_scoring s scored).
  destruct (Z_le_gt_dec (Z.of_nat (List.length candidates)) k) as [Hk|Hk].
  - exists []. rewrite slice0_all.
    + now rewrite app_nil_r.
    + rewrite sort_length, <- (Forall2_length E). exact Hk.
  - destruct (slice0_firstn (sort bySimilarityDesc scored) k) as [n ->].
    destruct (filter_firstn_prefix (scoring s) n (sort bySimilarityDesc scored))
      as [rest ->].
    exists (map id rest). split; [now rewrite map_app|lia].
Qed.

Lemma findTopKSimilar_ties_keep_input_order_witness :
  exists rest,
    map c_id (filter (candidateScoring [1; 0]%float 1%float)
                [ {| c_id := "a"; c_vector := [2; 0]%float; c_data := tt |};
                  {| c_id := "b"; c_vector := [0; 1]%float; c_data := tt |};
                  {| c_id := "c"; c_vector := [3; 0]%float; c_data := tt |} ])
    = map id (filter (scoring 1%float)
                [ {| id := "a"; similarity := 1%float; data := tt |};
                  {| id := "c"; similarity := 1%float; data := tt |};
                  {| id := "b"; similarity := 0%float; data := tt |} ]) ++ rest
    /\ ((3 <= 5)%Z -> rest = []).
Proof.
  apply (findTopKSimilar_ties_keep_input_order [1; 0]%float
           [ {| c_id := "a"; c_vector := [2; 0]%float; c_data := tt |};
             {| c_id := "b"; c_vector := [0; 1]%float; c_data := tt |};
             {| c_id := "c"; c_vector := [3; 0]%float; c_data := tt |} ] 5).
  - repeat constructor; intros x H; vm_compute in H; injection H as <-; reflexivity.
  - vm_compute. reflexivity.
Defined.

(** X2.  [findTopKSimilar] throws exactly when the vector of some candidate has
    another length than the query, whatever [k] is; when it returns, every
    entry of the ranking stems from a candidate (its identifier, its data
    and its cosine similarity to the query), and for [k >= 0] the ranking
    has [min k n] entries, [n] the number of candidates. *)
Theorem findTopKSimilar_throws_iff_length_differs {D : Type}
  (q : vector) (candidates : list (Candidate D)) (k : Z) :
  (findTopKSimilar q candidates k = Throw DimensionMismatch <->
   Exists (fun c => List.length (c_vector c) <> List.length q) candidates)
  /\ (forall ranking,
        findTopKSimilar q candidates k = Ok ranking ->
        Forall (fun c => List.length (c_vector c) = List.length q) candidates
        /\ Forall (fun r => exists c,
                     In c candidates /\ id r = c_id c /\ data r = c_data c
                     /\ cosineSimilarity q (c_vector c) = Ok (similarity r)) ranking
        /\ ((0 <= k)%Z ->
            Z.of_nat (List.length ranking)
            = Z.min k (Z.of_nat (List.length candidates)))).
Proof.
  assert (Hok : forall ranking,
            findTopKSimilar q candidates k = Ok ranking ->
            exists scored,
              Forall2 (fun c r => score q c = Ok r) candidates scored
              /\ ranking = slice0 (sort bySimilarityDesc scored) k).
  { unfold findTopKSimilar. intros ranking.
    destruct (mapM (score q) candidates) as [scored|e] eqn:E; [|discriminate].
    simpl. intros H. injection H as <-. exists scored.
    split; [now apply mapM_Forall2|reflexivity]. }
  split.
  - split; [|apply SearchFacts.findTopKSimilar_mismatch].
    intros Hthrow. apply Exists_Forall_neg.
    + intros c. destruct (Nat.eq_dec (List.length (c_vector c)) (List.length q)); auto.
    + intros Hall.
      destruct (mapM_total (score q) candidates) as [scored Hs].
      { eapply Forall_impl; [|exact Hall]. intros c. apply VectorizeFacts.score_total. }
      unfold findTopKSimilar in Hthrow. rewrite Hs in Hthrow. discriminate.
  - intros ranking H. destruct (Hok _ H) as (scored & Hs & ->). split; [|split].
    + clear H Hok. induction Hs as [|c r cs rs Hc _ IH]; constructor; [|exact IH].
      destruct (SearchFacts.score_cases q c) as [[Hl _]|[_ Hl]]; [exact Hl|congruence].
    + apply Forall_forall. intros r Hr.
      destruct (slice0_firstn (sort bySimilarityDesc scored) k) as [n Hn].
      rewrite Hn in Hr. apply firstn_In in Hr.
      eapply Permutation_in in Hr; [|apply sort_perm].
      clear H Hn Hok. induction Hs as [|c r' cs rs Hc _ IH]; [contradiction|].
      destruct Hr as [->|Hr].
      * exists c. split; [now left|]. now apply VectorizeFacts.score_inv.
      * destruct (IH Hr) as (c' & Hin & Hrest). exists c'. split; [now right|exact Hrest].
    + intros Hk. rewrite slice0_nonneg by exact Hk.
      rewrite length_firstn, sort_length, <- (Forall2_length Hs). lia.
Qed.

End TopKFacts.

Module FilterFacts.
Import Js Vectorize Ranking Selection ArrayFacts FloatOrder.

Section Filter.
Context {T : Type} (sim : T -> float) (threshold : float).

Lemma isDuplicate_false (kept : list T) (r : T) :
  existsb (fun existing => (abs (sim existing - sim r) <? 1 - threshold)%float) kept = false
  <-> Forall (fun e => apart sim threshold e r) kept.
Proof.
  induction kept as [|e kept IH]; simpl.
  - split; [constructor|reflexivity].
  - rewrite orb_false_iff, IH. split.
    + intros [H1 H2]. now constructor.
    + intros H. inversion H; subst. now split.
Qed.

Lemma separated_snoc (kept : list T) (r : T) :
  separated sim threshold kept ->
  Forall (fun e => apart sim threshold e r) kept ->
  separated sim threshold (kept ++ [r]).
Proof.
  unfold separated. induction 1 as [|e kept He Hk IH]; intros Hr; simpl.
  - repeat constructor.
  - inversion Hr; subst. constructor; [|now apply IH].
    apply Forall_app. split; [assumption|]. now constructor.
Qed.

Lemma separated_app_inv (kept : list T) (r : T) (l : list T) :
  separated sim threshold (kept ++ r :: l) ->
  Forall (fun e => apart sim threshold e r) kept
  /\ separated sim threshold ((kept ++ [r]) ++ l).
Proof.
  intros H. split.
  - unfold separated in H. induction kept as [|e kept IH]; [constructor|].
    simpl in H. inversion H as [|? ? He Hk]; subst. constructor.
    + apply Forall_app in He as [_ He]. now inversion He.
    + now apply IH.
  - now rewrite <- app_assoc.
Qed.

Lemma fold_separated (l : list T) : forall kept,
  separated sim threshold kept ->
  separated sim threshold (fold_left (filterStep sim threshold) l kept).
Proof.
  induction l as [|r l IH]; intros kept Hk; simpl; [exact Hk|].
  apply IH. unfold filterStep.
  destruct (existsb _ kept) eqn:E; [exact Hk|].
  apply separated_snoc; [exact Hk|]. now apply isDuplicate_false.
Qed.

Lemma fold_fixed (l : list T) : forall kept,
  separated sim threshold (kept ++ l) ->
  fold_left (filterStep sim threshold) l kept = kept ++ l.
Proof.
  induction l as [|r l IH]; intros kept H; simpl; [now rewrite app_nil_r|].
  apply separated_app_inv in H as [Hr H].
  unfold filterStep at 2. apply isDuplicate_false in Hr. rewrite Hr.
  rewrite IH by exact H. now rewrite <- app_assoc.
Qed.

Lemma fold_subsequence (l : list T) : forall kept,
  exists rest,
    fold_left (filterStep sim threshold) l kept = kept ++ rest
    /\ Subsequence rest l.
Proof.
  induction l as [|r l IH]; intros kept; simpl.
  - exists []. split; [now rewrite app_nil_r|constructor].
  - destruct (IH (filterStep sim threshold kept r)) as (rest & -> & Hs).
    unfold filterStep. destruct (existsb _ kept).
    + exists rest. split; [reflexivity|now constructor].
    + exists (r :: rest). split; [now rewrite <- app_assoc|now constructor].
Qed.

End Filter.

(** X3.  The result of [filterSimilarResults] is the input with some entries
    left out (order kept), it begins with the first entry of the input,
    and in it every earlier entry is apart from every later one: no two
    of its scores are strictly within [1 - threshold] of each other. *)
Theorem filterSimilarResults_separated_subsequence {T : Type}
  (sim : T -> float) (threshold : float) (results : list T) :
  Subsequence (filterSimilarResults sim results threshold) results
  /\ separated sim threshold (filterSimilarResults sim results threshold)
  /\ (forall r rest, results = r :: rest ->
        exists kept, filterSimilarResults sim results threshold = r :: kept).
Proof.
  unfold filterSimilarResults. split; [|split].
  - destruct (fold_subsequence sim threshold results []) as (rest & -> & H).
    exact H.
  - apply fold_separated. constructor.
  - intros r rest ->. simpl.
    destruct (fold_subsequence sim threshold rest (filterStep sim threshold [] r))
      as (kept & -> & _).
    exists kept. reflexivity.
Qed.

(** X4.  Filtering is idempotent, and a list that is already separated is
    returned as it is. *)
Theorem filterSimilarResults_idempotent {T : Type}
  (sim : T -> float) (threshold : float) (results : list T) :
  filterSimilarResults sim (filterSimilarResults sim results threshold) threshold
  = filterSimilarResults sim results threshold
  /\ (separated sim threshold results ->
      filterSimilarResults sim results threshold = results).
Proof.
  assert (H : forall l, separated sim threshold l ->
                        filterSimilarResults sim l threshold = l).
  { intros l Hl. unfold filterSimilarResults. now rewrite fold_fixed. }
  split; [|apply H].
  apply H. unfold filterSimilarResults. apply fold_separated. constructor.
Qed.

Lemma filterSimilarResults_idempotent_witness :
  filterSimilarResults (fun s : float => s)
    (filterSimilarResults (fun s => s) [0.9; 0.89; 0.5]%float 0.95%float) 0.95%float
  = filterSimilarResults (fun s => s) [0.9; 0.89; 0.5]%float 0.95%float
  /\ filterSimilarResults (fun s : float => s) [0.9; 0.5]%float 0.95%float
     = [0.9; 0.5]%float.
Proof.
  split.
  - apply (proj1 (filterSimilarResults_idempotent (fun s : float => s) 0.95%float
                    [0.9; 0.89; 0.5]%float)).
  - apply (proj2 (filterSimilarResults_idempotent (fun s : float => s) 0.95%float
                    [0.9; 0.5]%float)).
    unfold separated.
    repeat first [apply FOP_nil | apply FOP_cons | apply Forall_nil | apply Forall_cons];
      vm_compute; reflexivity.
Defined.

(** A distance that is below a bound makes the bound positive. *)
Lemma abs_ltb_pos (z w : float) :
  (abs z <? w)%float = true -> (0 <? w)%float = true.
Proof.
  rewrite !ltb_spec, !FloatFacts.SFltb_iff, abs_spec.
  intros (Hz & Hw & H). repeat split; try assumption.
  change (Prim2SF 0) with (S754_zero false).
  destruct (Prim2SF z) as [s|s| |s m e]; try discriminate;
    destruct (rank (Prim2SF w)) as [[a b] c]; simpl in *; lia.
Qed.

(** X5.  With a threshold that is not below 1 (a [NaN] included) nothing counts
    as a duplicate: the input is returned as it is. *)
Theorem filterSimilarResults_threshold_one_keeps_all {T : Type}
  (sim : T -> float) (threshold : float) (results : list T) :
  (threshold <? 1)%float = false ->
  filterSimilarResults sim results threshold = results.
Proof.
  intros Ht.
  assert (Hap : forall e r, apart sim threshold e r).
  { intros e r. unfold apart.
    destruct (abs (sim e - sim r) <? 1 - threshold)%float eqn:E; [|reflexivity].
    apply abs_ltb_pos in E. rewrite FloatFacts.sub_pos_iff in E. congruence. }
  unfold filterSimilarResults. rewrite <- (app_nil_l results) at 2.
  apply fold_fixed. simpl.
  unfold separated. induction results as [|r l IH]; constructor; [|exact IH].
  apply Forall_forall. intros; apply Hap.
Qed.

Lemma filterSimilarResults_threshold_one_keeps_all_witness :
  filterSimilarResults (fun s : float => s) [0.9; 0.9; 0.9]%float 1%float
  = [0.9; 0.9; 0.9]%float.
Proof.
  apply (filterSimilarResults_threshold_one_keeps_all (fun s : float => s) 1%float).
  vm_compute. reflexivity.
Defined.

End FilterFacts.

(* ===================================================================== *)
(** * services/vectorize.ts: distances, normalization and averages *)
(* ===================================================================== *)

Module VectorOpsFacts.
Import Js Vectorize FloatSignFacts FloatUnitFacts.

Lemma squaredDifferences_comm (vecA vecB : vector) : forall sum,
  squaredDifferences vecA vecB sum = squaredDifferences vecB vecA sum.
Proof.
  revert vecB. induction vecA as [|a vecA IH]; intros [|b vecB] sum; try reflexivity.
  simpl. rewrite (square_diff_comm a b). apply IH.
Qed.

Lemma squaredDifferences_diag (vec : vector) :
  Forall (fun x => is_finite x = true) vec ->
  squaredDifferences vec vec 0%float = 0%float.
Proof.
  induction 1 as [|x vec Hx _ IH]; [reflexivity|].
  simpl. rewrite (sub_diag x Hx).
  change (0 + 0 * 0)%float with 0%float. exact IH.
Qed.

(** X6.  [euclideanDistance] throws exactly when the lengths differ, does not
    depend on the order of its arguments, and what it returns is [NaN] or
    at least zero: never a negative number. *)
Theorem euclideanDistance_symmetric_not_negative (vecA vecB : vector) :
  euclideanDistance vecA vecB = euclideanDistance vecB vecA
  /\ (euclideanDistance vecA vecB = Throw DimensionMismatch <->
      List.length vecA <> List.length vecB)
  /\ (forall d, euclideanDistance vecA vecB = Ok d ->
                List.length vecA = List.length vecB
                /\ (is_nan d = true \/ (0 <=? d)%float = true)).
Proof.
  unfold euclideanDistance. rewrite (Nat.eqb_sym (List.length vecB)).
  destruct (Nat.eqb_spec (List.length vecA) (List.length vecB)) as [E|E]; simpl.
  - split; [now rewrite squaredDifferences_comm|]. split.
    + split; [discriminate|contradiction].
    + intros d H. injection H as <-. split; [exact E|apply sqrt_sign].
  - split; [reflexivity|]. split; [tauto|discriminate].
Qed.

(** X7.  The distance of a vector of finite numbers to itself is zero. *)
Theorem euclideanDistance_to_itself (vec : vector) :
  Forall (fun x => is_finite x = true) vec ->
  euclideanDistance vec vec = Ok 0%float.
Proof.
  intros H. unfold euclideanDistance. rewrite Nat.eqb_refl. simpl.
  now rewrite squaredDifferences_diag.
Qed.

Lemma euclideanDistance_to_itself_witness :
  euclideanDistance [0.1; -2.5; 0]%float [0.1; -2.5; 0]%float = Ok 0%float.
Proof.
  apply (euclideanDistance_to_itself [0.1; -2.5; 0]%float).
  repeat constructor.
Defined.

Lemma sumOfSquares_zero (vec : list float) : forall sum,
  Prim2SF sum = S754_zero false ->
  Forall (fun x => (x =? 0)%float = true) vec ->
  Prim2SF (fold_left (fun sum val => (sum + val * val)%float) vec sum) = S754_zero false.
Proof.
  induction vec as [|x vec IH]; intros sum Hs H; [exact Hs|].
  inversion H as [|? ? Hx Hv]; subst. simpl. apply IH; [|exact Hv].
  rewrite add_spec, mul_spec, Hs.
  destruct (eqb_zero_spec x Hx) as [s ->]. destruct s; reflexivity.
Qed.

(** X8.  [normalizeVector] returns a vector of the length of its argument; it
    returns the argument itself when its norm is zero, so that a vector
    whose components are all zero (of either sign) is not divided by zero;
    and a vector whose norm is exactly 1 is returned component for
    component. *)
Theorem normalizeVector_length_and_zero (vec : list float) :
  List.length (normalizeVector vec) = List.length vec
  /\ (Forall (fun x => (x =? 0)%float = true) vec -> normalizeVector vec = vec)
  /\ (sqrt (sumOfSquares vec) = 1%float -> normalizeVector vec = vec).
Proof.
  unfold normalizeVector. split; [|split].
  - destruct (sqrt (sumOfSquares vec) =? 0)%float; [reflexivity|apply length_map].
  - intros H.
    assert (E : sumOfSquares vec = 0%float).
    { apply Prim2SF_inj. now apply sumOfSquares_zero. }
    rewrite E. reflexivity.
  - intros ->. change (1 =? 0)%float with false. cbv iota.
    rewrite <- (map_id vec) at 2. apply map_ext. intros x. apply div_one.
Qed.

Lemma normalizeVector_length_and_zero_witness :
  List.length (normalizeVector [0; -0; 0]%float) = List.length [0; -0; 0]%float
  /\ normalizeVector [0; -0; 0]%float = [0; -0; 0]%float
  /\ normalizeVector [0; 1; 0]%float = [0; 1; 0]%float.
Proof.
  split; [|split].
  - apply (proj1 (normalizeVector_length_and_zero [0; -0; 0]%float)).
  - apply (proj1 (proj2 (normalizeVector_length_and_zero [0; -0; 0]%float))).
    repeat constructor.
  - apply (proj2 (proj2 (normalizeVector_length_and_zero [0; 1; 0]%float))).
    vm_compute. reflexivity.
Defined.

Lemma addInto_length (vec : list float) : forall avgVector,
  List.length (addInto avgVector vec) = List.length avgVector.
Proof.
  intros avgVector. revert vec.
  induction avgVector as [|a avgVector IH]; intros vec; simpl; [reflexivity|].
  now rewrite IH.
Qed.

Lemma addInto_nth (avgVector : list float) : forall vec i,
  (i < List.length avgVector)%nat ->
  nth i (addInto avgVector vec) 0%float = (nth i avgVector 0 + nth i vec nan)%float.
Proof.
  induction avgVector as [|a avgVector IH]; intros vec i Hi; simpl in Hi; [lia|].
  destruct i as [|i]; simpl.
  - destruct vec; reflexivity.
  - rewrite IH by lia. destruct vec; simpl; [|reflexivity]. now destruct i.
Qed.

Lemma addInto_firstn (avgVector : list float) : forall vec,
  addInto avgVector (firstn (List.length avgVector) vec) = addInto avgVector vec.
Proof.
  induction avgVector as [|a avgVector IH]; intros vec; simpl; [reflexivity|].
  destruct vec as [|v vec]; simpl; [reflexivity|]. now rewrite IH.
Qed.

Lemma fold_addInto_length (vectors : list vector) : forall avgVector,
  List.length (fold_left addInto vectors avgVector) = List.length avgVector.
Proof.
  induction vectors as [|v vectors IH]; intros avgVector; simpl; [reflexivity|].
  now rewrite IH, addInto_length.
Qed.

Lemma fold_addInto_nan (vectors : list vector) : forall avgVector i,
  (i < List.length avgVector)%nat ->
  nth i avgVector 0%float = nan ->
  nth i (fold_left addInto vectors avgVector) 0%float = nan.
Proof.
  induction vectors as [|v vectors IH]; intros avgVector i Hi Hn; simpl; [exact Hn|].
  apply IH; [now rewrite addInto_length|].
  rewrite addInto_nth by exact Hi. rewrite Hn. apply add_nan_l.
Qed.

Lemma fold_addInto_short (vectors : list vector) (w : vector) : forall avgVector i,
  In w vectors ->
  (List.length w <= i < List.length avgVector)%nat ->
  nth i (fold_left addInto vectors avgVector) 0%float = nan.
Proof.
  induction vectors as [|v vectors IH]; intros avgVector i Hw Hi; [contradiction|].
  simpl. destruct Hw as [->|Hw].
  - apply fold_addInto_nan; [rewrite addInto_length; lia|].
    rewrite addInto_nth by lia. rewrite (nth_overflow w) by lia. apply add_nan_r.
  - apply IH; [exact Hw|]. rewrite addInto_length. exact Hi.
Qed.

Lemma fold_addInto_firstn (n : nat) (vectors : list vector) : forall avgVector,
  List.length avgVector = n ->
  fold_left addInto (map (firstn n) vectors) avgVector
  = fold_left addInto vectors avgVector.
Proof.
  induction vectors as [|v vectors IH]; intros avgVector Hn; simpl; [reflexivity|].
  subst n. rewrite addInto_firstn. apply IH. apply addInto_length.
Qed.

(** X9.  [averageVectors] never throws.  Of no vectors it is the empty vector;
    otherwise the result has the length of the first vector: what the
    other vectors have beyond that length is ignored, and a position that
    one of the vectors lacks holds [NaN] in the result. *)
Theorem averageVectors_follows_first_vector (first : vector) (rest : list vector) :
  averageVectors [] = []
  /\ List.length (averageVectors (first :: rest)) = List.length first
  /\ averageVectors (first :: map (firstn (List.length first)) rest)
     = averageVectors (first :: rest)
  /\ (forall w i, In w rest ->
        (List.length w <= i < List.length first)%nat ->
        nth i (averageVectors (first :: rest)) 0%float = nan).
Proof.
  split; [reflexivity|]. unfold averageVectors. split; [|split].
  - now rewrite length_map, fold_addInto_length, repeat_length.
  - cbn [fold_left List.length]. rewrite length_map.
    rewrite fold_addInto_firstn by (rewrite addInto_length; apply repeat_length).
    reflexivity.
  - intros w i Hw Hi.
    set (n := ofLength (List.length (first :: rest))).
    rewrite (nth_indep _ 0%float ((fun val => val / n) 0)%float)
      by (rewrite length_map, fold_addInto_length, repeat_length; lia).
    rewrite (map_nth (fun val => (val / n)%float)).
    rewrite (fold_addInto_short (first :: rest) w);
      [apply div_nan_l|now right|now rewrite repeat_length].
Qed.

Lemma addInto_zero (vec : list float) :
  ~ In (-0)%float vec ->
  addInto (repeat 0%float (List.length vec)) vec = vec.
Proof.
  induction vec as [|x vec IH]; intros H; [reflexivity|].
  simpl. rewrite add_zero_l by (intros E; apply H; now left).
  f_equal. apply IH. intros G. apply H. now right.
Qed.

(** X10.  The average of a single vector is that vector (given that it has no
    negative zero, which the sum turns into a positive zero). *)
Theorem averageVectors_single (vec : vector) :
  ~ In (-0)%float vec -> averageVectors [vec] = vec.
Proof.
  intros H. unfold averageVectors. cbn [fold_left List.length].
  rewrite (addInto_zero vec H).
  change (ofLength 1) with 1%float.
  rewrite <- (map_id vec) at 2. apply map_ext. intros x. apply div_one.
Qed.

Lemma averageVectors_single_witness :
  averageVectors [[0.25; -3; 0]%float] = [0.25; -3; 0]%float.
Proof.
  apply (averageVectors_single [0.25; -3; 0]%float).
  intros [H|[H|[H|[]]]]; revert H; vm_compute; discriminate.
Defined.

End VectorOpsFacts.

Module CombineFacts.
Import Js Vectorize.
Local Open Scope string_scope.

Lemma includes_unfold (s needle : string) :
  includes s needle
  = String.prefix needle s
    || match s with
       | EmptyString => false
       | String _ s' => includes s' needle
       end.
Proof. destruct s; reflexivity. Qed.

Lemma prefix_app (a b : string) : String.prefix a (a ++ b) = true.
Proof.
  induction a as [|c a IH]; simpl; [now destruct b|].
  destruct (ascii_dec c c); [exact IH|contradiction].
Qed.

Lemma prefix_refl (a : string) : String.prefix a a = true.
Proof.
  induction a as [|c a IH]; simpl; [reflexivity|].
  destruct (ascii_dec c c); [exact IH|contradiction].
Qed.

Lemma includes_refl (a : string) : includes a a = true.
Proof. now rewrite includes_unfold, prefix_refl. Qed.

Lemma includes_app_l (a b : string) : includes (a ++ b) a = true.
Proof. now rewrite includes_unfold, prefix_app. Qed.

Lemma includes_app_r (a b x : string) :
  includes b x = true -> includes (a ++ b) x = true.
Proof.
  intros H. induction a as [|c a IH]; [exact H|].
  change (String c a ++ b) with (String c (a ++ b)).
  rewrite includes_unfold, IH. apply orb_true_r.
Qed.

Lemma join_includes (sep f : string) (parts : list string) :
  In f parts -> includes (join sep parts) f = true.
Proof.
  induction parts as [|p parts IH]; [contradiction|].
  intros [->|H].
  - destruct parts as [|q parts]; [apply includes_refl|apply includes_app_l].
  - destruct parts as [|q parts]; [contradiction|].
    change (join sep (p :: q :: parts)) with (p ++ sep ++ join sep (q :: parts)).
    apply includes_app_r, includes_app_r, IH, H.
Qed.

(** X11.  The text that is embedded for a product has each of the four fields
    in it, and is empty only when all four are. *)
Theorem combineProductFields_includes_every_field
  (name description category brand : string) :
  includes (combineProductFields name description category brand) name = true
  /\ includes (combineProductFields name description category brand) brand = true
  /\ includes (combineProductFields name description category brand) category = true
  /\ includes (combineProductFields name description category brand) description = true
  /\ (combineProductFields name description category brand = ""
      <-> name = "" /\ brand = "" /\ category = "" /\ description = "").
Proof.
  assert (H : forall f, In f [name; brand; category; description] ->
                        includes (combineProductFields name description category brand) f
                        = true).
  { intros f Hf. destruct f as [|c f].
    - now destruct (combineProductFields name description category brand).
    - apply join_includes. apply filter_In. split; [exact Hf|reflexivity]. }
  repeat split; try (apply H; simpl; tauto);
    destruct name, description, category, brand; try discriminate; try reflexivity;
    intros (? & ? & ? & ?); discriminate.
Qed.

End CombineFacts.

(* ===================================================================== *)
(** * utils/ai-validation.ts: the sanitizer and the bounds of the schema *)
(* ===================================================================== *)

Module SanitizeFacts.
Import Js AiValidation.
Local Open Scope string_scope.

Lemma trimStart_length (s : string) : String.length (trimStart s) <= String.length s.
Proof.
  induction s as [|c s IH]; simpl; [lia|]. destruct (is_space c); simpl; lia.
Qed.

Lemma trimEnd_length (s : string) : String.length (trimEnd s) <= String.length s.
Proof.
  induction s as [|c s IH]; simpl; [lia|].
  destruct (trimEnd s); [destruct (is_space c)|]; simpl in *; lia.
Qed.

Lemma collapseSpaces_length (s : string) (inRun : bool) :
  String.length (collapseSpaces inRun s) <= String.length s.
Proof.
  revert inRun. induction s as [|c s IH]; intros inRun; simpl; [lia|].
  destruct (is_space c); [destruct inRun|]; simpl;
    try (pose proof (IH true)); try (pose proof (IH false)); lia.
Qed.

Lemma removeKeywords_length (s : string) (skip : nat) (prevWord : bool) :
  String.length (removeKeywords skip prevWord s) <= String.length s.
Proof.
  revert skip prevWord. induction s as [|c s IH]; intros skip prevWord; [simpl; lia|].
  cbn [removeKeywords String.length]. destruct skip as [|n].
  - destruct (if prevWord then None else keywordAt (String c s)) as [len|].
    + pose proof (IH (len - 1)%nat (is_word c)). lia.
    + pose proof (IH 0%nat (is_word c)). simpl. lia.
  - pose proof (IH n (is_word c)). lia.
Qed.

Lemma removeScripts_length (s : string) (skip : nat) :
  String.length (removeScripts skip s) <= String.length s.
Proof.
  revert skip. induction s as [|c s IH]; intros skip; [simpl; lia|].
  cbn [removeScripts String.length]. destruct skip as [|n].
  - destruct (scriptAt (String c s)) as [len|].
    + pose proof (IH (len - 1)%nat). lia.
    + pose proof (IH 0%nat). simpl. lia.
  - pose proof (IH n). lia.
Qed.

Lemma sanitizePrompt_length (text : string) :
  String.length (sanitizePrompt text) <= String.length text.
Proof.
  unfold sanitizePrompt, trim.
  pose proof (removeScripts_length
                (removeKeywords 0 false (collapseSpaces false (trimEnd (trimStart text)))) 0).
  pose proof (removeKeywords_length (collapseSpaces false (trimEnd (trimStart text))) 0 false).
  pose proof (collapseSpaces_length (trimEnd (trimStart text)) false).
  pose proof (trimEnd_length (trimStart text)).
  pose proof (trimStart_length text).
  lia.
Qed.

(** The characters of the result are characters of the argument. *)
Lemma removeKeywords_In (c : ascii) (s : string) (skip : nat) (prevWord : bool) :
  In c (list_ascii_of_string (removeKeywords skip prevWord s)) ->
  In c (list_ascii_of_string s).
Proof.
  revert skip prevWord. induction s as [|d s IH]; intros skip prevWord; [easy|].
  cbn [removeKeywords list_ascii_of_string]. destruct skip as [|n].
  - destruct (if prevWord then None else keywordAt (String d s)) as [len|].
    + intros H. right. eapply IH, H.
    + cbn [list_ascii_of_string]. intros [H|H]; [now left|]. right. eapply IH, H.
  - intros H. right. eapply IH, H.
Qed.

Lemma removeScripts_In (c : ascii) (s : string) (skip : nat) :
  In c (list_ascii_of_string (removeScripts skip s)) ->
  In c (list_ascii_of_string s).
Proof.
  revert skip. induction s as [|d s IH]; intros skip; [easy|].
  cbn [removeScripts list_ascii_of_string]. destruct skip as [|n].
  - destruct (scriptAt (String d s)) as [len|].
    + intros H. right. eapply IH, H.
    + cbn [list_ascii_of_string]. intros [H|H]; [now left|]. right. eapply IH, H.
  - intros H. right. eapply IH, H.
Qed.

Lemma collapseSpaces_In (c : ascii) (s : string) (inRun : bool) :
  In c (list_ascii_of_string (collapseSpaces inRun s)) ->
  is_space c = true -> c = " "%char.
Proof.
  revert inRun. induction s as [|d s IH]; intros inRun; [easy|].
  cbn [collapseSpaces]. destruct (is_space d) eqn:E.
  - destruct inRun; [apply IH|].
    cbn [list_ascii_of_string]. intros [<-|H]; [reflexivity|]. eapply IH, H.
  - cbn [list_ascii_of_string]. intros [<-|H]; [congruence|]. eapply IH, H.
Qed.

(** X12.  [sanitizePrompt] never lengthens its argument, and the only white
    space left in its result is the space character: tabs and line breaks
    are gone. *)
Theorem sanitizePrompt_shrinks_and_normalises_space (text : string) :
  String.length (sanitizePrompt text) <= String.length text
  /\ Forall (fun c => is_space c = true -> c = " "%char)
            (list_ascii_of_string (sanitizePrompt text)).
Proof.
  split; [apply sanitizePrompt_length|].
  apply Forall_forall. intros c Hc. unfold sanitizePrompt in Hc.
  apply removeScripts_In, removeKeywords_In in Hc.
  eapply collapseSpaces_In, Hc.
Qed.

Lemma queryIssues_nil (q : string) :
  queryIssues q = [] -> 1 <= String.length q <= 500.
Proof.
  unfold queryIssues.
  destruct (Nat.ltb_spec (String.length q) 1), (Nat.ltb_spec 500 (String.length q));
    simpl; try discriminate. lia.
Qed.

Lemma limitIssues_nil (l : option Z) :
  limitIssues l = [] -> exists n, l = Some n /\ (0 < n <= 50)%Z.
Proof.
  destruct l as [n|]; simpl; [|discriminate].
  destruct (Z.leb_spec n 0), (Z.ltb_spec 50 n); simpl; try discriminate.
  intros _. exists n. split; [reflexivity|lia].
Qed.

(** X13.  Whatever is handed to [semanticSearchSchema.parse], a value that it
    returns is within the bounds of the schema: the (sanitized) query has
    at most 500 characters, the limit is between 1 and 50, the threshold
    between 0 and 1; an absent limit is 10, an absent threshold 0.5. *)
Theorem semanticSearchSchema_parse_bounds (input : SearchInput)
  (validated : SemanticSearchRequest) :
  semanticSearchSchema_parse input = Ok validated ->
  String.length (query validated) <= 500
  /\ (0 < limit validated <= 50)%Z
  /\ Requests.withinUnitInterval (minSimilarity validated) = true
  /\ (in_limit input = None -> limit validated = 10%Z)
  /\ (in_minSimilarity input = None -> minSimilarity validated = 0.5%float).
Proof.
  unfold semanticSearchSchema_parse.
  set (l := match in_limit input with Some l => l | None => Some 10%Z end).
  set (m := match in_minSimilarity input with Some m => m | None => 0.5%float end).
  destruct (queryIssues (in_query input) ++ limitIssues l ++ minSimilarityIssues m)%list
    as [|i is_] eqn:E; [|destruct l; discriminate].
  apply app_eq_nil in E as [Eq E]. apply app_eq_nil in E as [El Em].
  destruct l as [n|] eqn:Hl; [|discriminate].
  intros H. injection H as <-. simpl.
  apply queryIssues_nil in Eq. apply limitIssues_nil in El as (n' & Hn & Hr).
  injection Hn as <-.
  split; [pose proof (sanitizePrompt_length (in_query input)); lia|].
  split; [exact Hr|]. split; [now apply SearchFacts.minSimilarity_in_range|].
  split.
  - intros Hnone. subst l. rewrite Hnone in Hl. congruence.
  - intros Hnone. subst m. now rewrite Hnone.
Qed.

Lemma semanticSearchSchema_parse_bounds_witness :
  String.length "lamp" <= 500
  /\ (0 < 10 <= 50)%Z
  /\ Requests.withinUnitInterval 0.5%float = true
  /\ (@None (option Z) = None -> 10%Z = 10%Z)
  /\ (@None float = None -> 0.5%float = 0.5%float).
Proof.
  apply (semanticSearchSchema_parse_bounds
           {| in_query := "  lamp "; in_limit := None; in_minSimilarity := None;
              in_category := None; in_brand := None |}
           {| query := "lamp"; limit := 10; minSimilarity := 0.5%float;
              category := None; brand := None |}).
  vm_compute. reflexivity.
Defined.

End SanitizeFacts.

Module KeywordFacts.
Import Js AiValidation Words.
Local Open Scope string_scope.

Lemma is_word_lower (c : ascii) : is_word (lower_char c) = is_word c.
Proof.
  destruct c as [b0 b1 b2 b3 b4 b5 b6 b7].
  destruct b0, b1, b2, b3, b4, b5, b6, b7; reflexivity.
Qed.

Lemma lower_word_mismatch (a b : ascii) :
  is_word a = true -> is_word b = false ->
  Ascii.eqb (lower_char a) (lower_char b) = false.
Proof.
  intros Ha Hb. destruct (Ascii.eqb_spec (lower_char a) (lower_char b)) as [E|]; [|reflexivity].
  rewrite <- (is_word_lower a), E, is_word_lower in Ha. congruence.
Qed.

(** The test of [keywordAt] for one keyword is the comparison of the
    keyword with the word at the head of the text. *)
Lemma keyword_test (kw : string) : forall s,
  wordChars kw ->
  prefix_ci kw s && negb (startsWithWord (drop (String.length kw) s))
  = eqb_ci kw (wordPrefix s).
Proof.
  unfold eqb_ci. induction kw as [|a kw IH]; intros s Hk.
  - destruct s as [|b s]; [reflexivity|]. simpl. now destruct (is_word b).
  - inversion Hk as [|? ? Ha Hk']; subst.
    destruct s as [|b s]; [reflexivity|].
    cbn [prefix_ci String.length drop wordPrefix].
    destruct (is_word b) eqn:Hb.
    + cbn [prefix_ci String.length].
      change (S (String.length (wordPrefix s)) =? S (String.length kw))%nat
        with (String.length (wordPrefix s) =? String.length kw)%nat.
      rewrite <- !andb_assoc. f_equal. now apply IH.
    + rewrite (lower_word_mismatch a b Ha Hb). reflexivity.
Qed.

Lemma eqb_ci_length (kw w : string) :
  eqb_ci kw w = true -> String.length kw = String.length w.
Proof.
  unfold eqb_ci. intros H. apply andb_prop in H as [_ H].
  apply Nat.eqb_eq in H. congruence.
Qed.

Lemma sqlKeywords_words : Forall wordChars sqlKeywords.
Proof. repeat constructor. Qed.

Lemma keywordAt_word (s : string) :
  keywordAt s
  = if isKeyword (wordPrefix s) then Some (String.length (wordPrefix s)) else None.
Proof.
  unfold keywordAt, isKeyword.
  pose proof sqlKeywords_words as Hk.
  induction Hk as [|kw kws Hkw _ IH]; [reflexivity|].
  cbn [find existsb]. rewrite (keyword_test kw s Hkw).
  destruct (eqb_ci kw (wordPrefix s)) eqn:E; [|exact IH].
  simpl. f_equal. now apply eqb_ci_length.
Qed.

Lemma removeKeywords_dropWords (s : string) :
  removeKeywords 0 false s = withoutKeywords s
  /\ removeKeywords 0 true s = dropWords true s
  /\ (forall pw, (String.length (wordPrefix s) = 0 -> pw = true) ->
                 removeKeywords (String.length (wordPrefix s)) pw s = dropWords false s).
Proof.
  unfold withoutKeywords.
  induction s as [|c s (IHa & IHb & IHc)]; [repeat split|].
  split; [|split].
  - cbn [removeKeywords]. rewrite keywordAt_word. cbn [wordPrefix dropWords].
    destruct (is_word c) eqn:Hc.
    + destruct (isKeyword (String c (wordPrefix s))); cbn [negb].
      * cbn [String.length]. rewrite Nat.sub_succ, Nat.sub_0_r. now apply IHc.
      * now rewrite IHb.
    + change (isKeyword "") with false. cbn [negb]. now rewrite IHa.
  - cbn [removeKeywords dropWords]. destruct (is_word c); now rewrite ?IHa, ?IHb.
  - intros pw Hpw. cbn [wordPrefix dropWords] in *. destruct (is_word c) eqn:Hc.
    + cbn [String.length removeKeywords]. rewrite Hc. now apply IHc.
    + cbn [String.length removeKeywords] in *. rewrite (Hpw eq_refl), Hc.
      now rewrite IHa.
Qed.

(** X14.  The keyword step of [sanitizePrompt] leaves out exactly the maximal
    runs of word characters that are one of the seven keywords, in any
    letter case, and keeps every other character: a keyword that is part
    of a longer word stays. *)
Theorem keyword_step_drops_whole_words (text : string) :
  removeKeywords 0 false text = withoutKeywords text
  /\ sanitizePrompt text
     = removeScripts 0 (withoutKeywords (collapseSpaces false (trim text))).
Proof.
  split; [apply removeKeywords_dropWords|].
  unfold sanitizePrompt. f_equal. apply removeKeywords_dropWords.
Qed.

End KeywordFacts.

(* ===================================================================== *)
(** * routes/search.ts: GET /api/search, further properties *)
(* ===================================================================== *)

Module HandlerFacts.
Import Js SearchRoute Requests Traces ArrayFacts.
Local Open Scope string_scope.

Lemma combine_length (validated : AiValidation.SemanticSearchRequest)
  (V : list (Vectorize.Scored Schema.Product)) (kw : list Schema.Product) :
  (0 <= AiValidation.limit validated)%Z ->
  (Z.of_nat (List.length (combine validated V kw)) <= AiValidation.limit validated)%Z.
Proof.
  intros H. unfold combine. rewrite slice0_nonneg by exact H.
  rewrite length_firstn. lia.
Qed.

Lemma fallback_length (env : Env) (validated : AiValidation.SemanticSearchRequest) :
  (0 <= AiValidation.limit validated)%Z ->
  total (snd (fallback env validated)) = List.length (products (snd (fallback env validated)))
  /\ (Z.of_nat (List.length (products (snd (fallback env validated))))
      <= AiValidation.limit validated)%Z.
Proof.
  intros H. unfold fallback. simpl. rewrite length_map. split; [reflexivity|].
  unfold Drizzle.selectLimit. rewrite length_firstn. lia.
Qed.

(** X15.  The handler throws only when validation fails; every response lists
    at most [limit] (hence at most 50) products and reports their number
    as [total], on the main path and on the fallback path alike. *)
Theorem handler_throws_only_on_validation
  (env : Env) (auth : option string) (q : RawQuery) :
  (forall e, snd (handler env auth q) = Throw e <->
             AiValidation.semanticSearchSchema_parse (searchInput q) = Throw e)
  /\ (forall response,
        snd (handler env auth q) = Ok response ->
        exists validated,
          AiValidation.semanticSearchSchema_parse (searchInput q) = Ok validated
          /\ total response = List.length (products response)
          /\ (Z.of_nat (List.length (products response))
              <= AiValidation.limit validated <= 50)%Z).
Proof.
  destruct (AiValidation.semanticSearchSchema_parse (searchInput q))
    as [validated|e0] eqn:Hp.
  - pose proof (SearchFacts.search_parse_inv _ _ Hp) as (_ & _ & Hlim & _).
    rewrite (SearchFacts.handler_valid _ _ _ _ Hp).
    unfold tryBlock, Gemini.generateEmbedding.
    destruct (provider env (AiValidation.query validated)) as [qv|e1].
    + destruct (Vectorize.findTopKSimilar _ _ _) as [top|e2]; simpl.
      * split; [intros e; split; discriminate|].
        intros response H. injection H as <-. exists validated. simpl.
        split; [reflexivity|]. split; [reflexivity|].
        split; [apply combine_length; lia|lia].
      * split; [intros e; split; discriminate|].
        intros response H. injection H as <-. exists validated.
        destruct (fallback_length env validated) as [H1 H2]; [lia|].
        split; [reflexivity|]. split; [exact H1|]. simpl in *. lia.
    + simpl. split; [intros e; split; discriminate|].
      intros response H. injection H as <-. exists validated.
      destruct (fallback_length env validated) as [H1 H2]; [lia|].
      split; [reflexivity|]. split; [exact H1|]. simpl in *. lia.
  - unfold handler. rewrite Hp. simpl. split.
    + intros e. split; intros H; injection H as ->; reflexivity.
    + discriminate.
Qed.

Lemma filter_logCalls (auth : option string)
  (validated : AiValidation.SemanticSearchRequest) (items : list Item) :
  filter isEmbed (logCalls auth validated items) = []
  /\ filter isLog (logCalls auth validated items) = logCalls auth validated items.
Proof. destruct auth; now split. Qed.

(** X16.  The requests that leave the handler for a valid request: exactly one
    embedding request, for the sanitized query, made first; and a log
    entry only for an authenticated caller whose search did not take the
    fallback path, naming the caller, the sanitized query and the
    identifiers of the products of the response in their order. *)
Theorem handler_embeds_once_and_logs_main_path_only
  (env : Env) (auth : option string) (q : RawQuery)
  (validated : AiValidation.SemanticSearchRequest) :
  AiValidation.semanticSearchSchema_parse (searchInput q) = Ok validated ->
  exists response,
    snd (handler env auth q) = Ok response
    /\ hd_error (fst (handler env auth q))
       = Some (EmbedContent (AiValidation.query validated))
    /\ filter isEmbed (fst (handler env auth q))
       = [EmbedContent (AiValidation.query validated)]
    /\ filter isLog (fst (handler env auth q)) = expectedLog auth validated response.
Proof.
  intros Hp. rewrite (SearchFacts.handler_valid _ _ _ _ Hp).
  unfold tryBlock, Gemini.generateEmbedding.
  destruct (provider env (AiValidation.query validated)) as [qv|e1].
  - destruct (Vectorize.findTopKSimilar _ _ _) as [top|e2]; simpl.
    + eexists. split; [reflexivity|]. split; [reflexivity|].
      destruct (filter_logCalls auth validated
                  (combine validated (filter (aboveThreshold validated) top)
                     (keywordResults validated (allProducts env validated))))
        as [-> ->].
      split; [reflexivity|]. unfold expectedLog, logCalls. simpl.
      destruct (filter (aboveThreshold validated) top), auth; reflexivity.
    + eexists. repeat split; reflexivity.
  - simpl. eexists. repeat split; reflexivity.
Qed.

Lemma handler_embeds_once_and_logs_main_path_only_witness :
  exists response,
    snd (handler {| provider := Examples.providerUp;
                    catalog := [Examples.orthogonalChair; Examples.lamp] |}
           (Some "user_1") (Examples.request "lamp" None)) = Ok response
    /\ hd_error (fst (handler {| provider := Examples.providerUp;
                                 catalog := [Examples.orthogonalChair; Examples.lamp] |}
                        (Some "user_1") (Examples.request "lamp" None)))
       = Some (EmbedContent "lamp")
    /\ filter isEmbed (fst (handler {| provider := Examples.providerUp;
                                      catalog := [Examples.orthogonalChair; Examples.lamp] |}
                             (Some "user_1") (Examples.request "lamp" None)))
       = [EmbedContent "lamp"]
    /\ filter isLog (fst (handler {| provider := Examples.providerUp;
                                    catalog := [Examples.orthogonalChair; Examples.lamp] |}
                           (Some "user_1") (Examples.request "lamp" None)))
       = expectedLog (Some "user_1") (Examples.validatedLamp 0.5%float) response.
Proof.
  apply (handler_embeds_once_and_logs_main_path_only
           {| provider := Examples.providerUp;
              catalog := [Examples.orthogonalChair; Examples.lamp] |}
           (Some "user_1") (Examples.request "lamp" None)
           (Examples.validatedLamp 0.5%float)).
  vm_compute. reflexivity.
Defined.

End HandlerFacts.

Module MainPathFacts.
Import Js SearchRoute Requests Traces ArrayFacts.
Local Open Scope string_scope.

Lemma candidateWhere_holds (validated : AiValidation.SemanticSearchRequest)
  (row : Schema.Product) :
  Drizzle.holds (candidateWhere validated) row
  = String.eqb (Schema.status row) "active"
    && accepts (AiValidation.category validated) (Schema.category row)
    && accepts (AiValidation.brand validated) (Schema.brand row).
Proof.
  unfold candidateWhere, conditions, optionalEq, accepts.
  destruct (AiValidation.category validated) as [[|c cs]|],
           (AiValidation.brand validated) as [[|b bs]|];
    unfold Drizzle.holds; simpl; rewrite ?orb_false_r, ?andb_true_r, ?andb_assoc;
    reflexivity.
Qed.

Lemma pool_row (env : Env) (validated : AiValidation.SemanticSearchRequest)
  (p : Schema.Product) :
  In p (allProducts env validated) ->
  In p (catalog env)
  /\ Schema.status p = "active"
  /\ accepts (AiValidation.category validated) (Schema.category p) = true
  /\ accepts (AiValidation.brand validated) (Schema.brand p) = true.
Proof.
  unfold allProducts, Drizzle.select. rewrite filter_In, candidateWhere_holds.
  intros [Hin H]. apply andb_prop in H as [H Hb]. apply andb_prop in H as [Hs Hc].
  apply String.eqb_eq in Hs. auto.
Qed.

(** X17.  What the main path returns.  When the response of a valid request is
    not a fallback response, the query was embedded, and every entry is a
    row of the catalog whose status is ['active'] and whose category and
    brand are the requested ones; an entry for a row with an embedding
    carries the cosine similarity of that embedding to the query vector,
    which is at least the requested threshold; an entry for a row without
    one carries 0.3, and the row has the query in one of its texts. *)
Theorem main_path_entries
  (env : Env) (auth : option string) (q : RawQuery)
  (validated : AiValidation.SemanticSearchRequest) (response : SearchData) :
  AiValidation.semanticSearchSchema_parse (searchInput q) = Ok validated ->
  snd (handler env auth q) = Ok response ->
  method response <> keyword_fallback ->
  exists queryVector,
    provider env (AiValidation.query validated) = Ok queryVector
    /\ Forall (fun i =>
         In (product i) (catalog env)
         /\ Schema.status (product i) = "active"
         /\ accepts (AiValidation.category validated) (Schema.category (product i)) = true
         /\ accepts (AiValidation.brand validated) (Schema.brand (product i)) = true
         /\ match Schema.vectorEmbedding (product i) with
            | Some v =>
                exists s, itemSimilarity i = Some s
                          /\ Vectorize.cosineSimilarity queryVector v = Ok s
                          /\ (AiValidation.minSimilarity validated <=? s)%float = true
            | None =>
                itemSimilarity i = Some keywordScore
                /\ matchesKeyword (AiValidation.query validated) (product i) = true
            end) (products response).
Proof.
  intros Hp. rewrite (SearchFacts.handler_valid _ _ _ _ Hp).
  unfold tryBlock, Gemini.generateEmbedding.
  destruct (provider env (AiValidation.query validated)) as [qv|e1];
    [|simpl; intros H; injection H as <-; simpl; congruence].
  destruct (Vectorize.findTopKSimilar _ _ _) as [top|e2] eqn:Htop;
    [|simpl; intros H; injection H as <-; simpl; congruence].
  simpl. intros H _. injection H as <-. simpl.
  exists qv. split; [reflexivity|].
  set (pool := allProducts env validated) in *.
  apply Forall_forall. intros i Hi. unfold combine in Hi.
  destruct (slice0_firstn
              (map vectorItem (filter (aboveThreshold validated) top)
               ++ map keywordItem
                    (filter (fun p => negb (has (map Vectorize.id
                                                   (filter (aboveThreshold validated) top))
                                              (Schema.id p)))
                            (keywordResults validated pool)))%list
              (AiValidation.limit validated)) as [n Hn].
  rewrite Hn in Hi. apply firstn_In in Hi. apply in_app_or in Hi as [Hi|Hi].
  - apply in_map_iff in Hi as (r & <- & Hr). apply filter_In in Hr as [Hr Habove].
    apply SearchFacts.findTopKSimilar_inv in Htop as (scored & m & Hsc & ->).
    apply firstn_In in Hr. eapply Permutation_in in Hr; [|apply sort_perm].
    destruct (SearchFacts.Forall2_In_r _ _ _ _ Hsc Hr) as (c & Hc & Hs).
    apply VectorizeFacts.score_inv in Hs as (_ & Hdata & Hcos).
    destruct (SearchFacts.productsWithVectors_spec pool) as [Hmap Hcand].
    rewrite Forall_forall in Hcand. destruct (Hcand c Hc) as [_ Hvec].
    assert (Hin : In (Vectorize.c_data c) pool).
    { assert (H : In (Vectorize.c_data c) (filter hasVector pool))
        by (rewrite <- Hmap; now apply in_map).
      apply filter_In in H. tauto. }
    simpl. rewrite Hdata.
    destruct (pool_row _ _ _ Hin) as (H1 & H2 & H3 & H4).
    repeat (split; [assumption|]). rewrite Hvec.
    exists (Vectorize.similarity r). auto.
  - apply in_map_iff in Hi as (p & <- & Hk). apply filter_In in Hk as [Hk _].
    unfold keywordResults in Hk. apply filter_In in Hk as [Hk Hm].
    apply filter_In in Hk as [Hk Hl]. simpl.
    destruct (pool_row _ _ _ Hk) as (H1 & H2 & H3 & H4).
    repeat (split; [assumption|]).
    unfold lacksVector in Hl. destruct (Schema.vectorEmbedding p); [discriminate|].
    auto.
Qed.

Lemma main_path_entries_witness :
  exists queryVector,
    Examples.providerUp "lamp" = Ok queryVector
    /\ Forall (fun i =>
         In (product i) [Examples.orthogonalChair; Examples.lamp]
         /\ Schema.status (product i) = "active"
         /\ accepts None (Schema.category (product i)) = true
         /\ accepts None (Schema.brand (product i)) = true
         /\ match Schema.vectorEmbedding (product i) with
            | Some v =>
                exists s, itemSimilarity i = Some s
                          /\ Vectorize.cosineSimilarity queryVector v = Ok s
                          /\ (0.5 <=? s)%float = true
            | None =>
                itemSimilarity i = Some keywordScore
                /\ matchesKeyword "lamp" (product i) = true
            end)
         [ {| product := Examples.lamp; itemSimilarity := Some keywordScore |} ].
Proof.
  apply (main_path_entries
           {| provider := Examples.providerUp;
              catalog := [Examples.orthogonalChair; Examples.lamp] |}
           None (Examples.request "lamp" None) (Examples.validatedLamp 0.5%float)
           {| products := [ {| product := Examples.lamp;
                               itemSimilarity := Some keywordScore |} ];
              total := 1; method := keyword |}).
  - vm_compute. reflexivity.
  - vm_compute. reflexivity.
  - discriminate.
Defined.

(** X18.  The candidate query asks for the status ['active'], which is not one
    of the statuses of the schema.  On a catalog whose rows all have a
    status of the schema's enum, a valid request whose query is embedded
    finds no candidate: the response lists nothing, with the method
    ['keyword'], whatever the query. *)
Theorem main_path_finds_nothing_in_schema_catalog
  (env : Env) (auth : option string) (q : RawQuery)
  (validated : AiValidation.SemanticSearchRequest) (queryVector : list float) :
  Forall (fun p => Schema.statusInEnum p = true) (catalog env) ->
  AiValidation.semanticSearchSchema_parse (searchInput q) = Ok validated ->
  provider env (AiValidation.query validated) = Ok queryVector ->
  allProducts env validated = []
  /\ snd (handler env auth q) = Ok {| products := []; total := 0; method := keyword |}.
Proof.
  intros Hs Hp Hq.
  exact (SearchFacts.main_path_empty env auth q validated queryVector Hs Hp Hq).
Qed.

Lemma main_path_finds_nothing_in_schema_catalog_witness :
  allProducts {| provider := Examples.providerUp; catalog := [Examples.inStockChair] |}
    (Examples.validatedLamp 0.5%float) = []
  /\ snd (handler {| provider := Examples.providerUp;
                     catalog := [Examples.inStockChair] |} None
            (Examples.request "lamp" None))
     = Ok {| products := []; total := 0; method := keyword |}.
Proof.
  apply (main_path_finds_nothing_in_schema_catalog
           {| provider := Examples.providerUp; catalog := [Examples.inStockChair] |}
           None (Examples.request "lamp" None) (Examples.validatedLamp 0.5%float)
           [1; 0]%float).
  - repeat constructor.
  - vm_compute. reflexivity.
  - reflexivity.
Defined.

End MainPathFacts.

Module PatternFacts.
Import Js SearchRoute Requests Patterns.
Local Open Scope string_scope.

Lemma like_percent (p s : string) :
  Drizzle.like (String "%" p) s
  = Drizzle.like p s
    || match s with
       | EmptyString => false
       | String _ s' => Drizzle.like (String "%" p) s'
       end.
Proof. destruct s; reflexivity. Qed.

Lemma like_literal (c : ascii) (p s : string) :
  isWildcard c = false ->
  Drizzle.like (String c p) s
  = match s with
    | EmptyString => false
    | String d s' => Ascii.eqb (lower_char c) (lower_char d) && Drizzle.like p s'
    end.
Proof.
  destruct c as [b0 b1 b2 b3 b4 b5 b6 b7].
  destruct b0, b1, b2, b3, b4, b5, b6, b7; intros H; try discriminate H; reflexivity.
Qed.

Lemma like_any (s : string) : Drizzle.like "%" s = true.
Proof.
  induction s as [|c s IH]; [reflexivity|].
  rewrite like_percent, IH. apply orb_true_r.
Qed.

Lemma prefix_cons (a b : ascii) (p s : string) :
  String.prefix (String a p) (String b s) = Ascii.eqb a b && String.prefix p s.
Proof.
  simpl. destruct (Ascii.eqb_spec a b) as [->|H].
  - destruct (ascii_dec b b); [reflexivity|contradiction].
  - destruct (ascii_dec a b); [contradiction|reflexivity].
Qed.

Lemma like_prefix (q s : string) :
  plain q = true ->
  Drizzle.like (q ++ "%") s = String.prefix (toLowerCase q) (toLowerCase s).
Proof.
  revert s. induction q as [|c q IH]; intros s Hq.
  - change ("" ++ "%") with "%". rewrite like_any.
    destruct (toLowerCase s); reflexivity.
  - simpl in Hq. apply andb_prop in Hq as [Hc Hq]. apply negb_true_iff in Hc.
    change (String c q ++ "%") with (String c (q ++ "%")).
    rewrite (like_literal _ _ _ Hc). destruct s as [|d s]; [reflexivity|].
    cbn [toLowerCase]. rewrite prefix_cons. now rewrite IH.
Qed.

Lemma like_includes (q s : string) :
  plain q = true ->
  Drizzle.like ("%" ++ q ++ "%") s = includes (toLowerCase s) (toLowerCase q).
Proof.
  intros Hq. change ("%" ++ q ++ "%") with (String "%" (q ++ "%")).
  induction s as [|d s IH]; rewrite like_percent, (like_prefix _ _ Hq).
  - simpl. now rewrite orb_false_r.
  - rewrite IH. reflexivity.
Qed.

Lemma includes_empty (s : string) : includes s "" = true.
Proof. destruct s; reflexivity. Qed.

Lemma toLowerCase_empty : toLowerCase "" = "".
Proof. reflexivity. Qed.

(** X19.  For a query without the wild cards [%] and [_], the pattern of the
    fallback query matches a text exactly when the keyword step of the
    main path finds the query in it (both ignore the case of ASCII
    letters); so a row that the fallback pattern matches passes the
    keyword test of the main path. *)
Theorem fallback_pattern_agrees_with_keyword_test
  (validated : AiValidation.SemanticSearchRequest) :
  plain (AiValidation.query validated) = true ->
  (forall text,
     Drizzle.like (keywordQuery validated) text
     = includes (toLowerCase text) (toLowerCase (AiValidation.query validated)))
  /\ (forall p, matchesPattern validated p = true ->
                matchesKeyword (AiValidation.query validated) p = true).
Proof.
  intros Hq.
  assert (H : forall text,
            Drizzle.like (keywordQuery validated) text
            = includes (toLowerCase text) (toLowerCase (AiValidation.query validated))).
  { intros text. unfold keywordQuery. now apply like_includes. }
  split; [exact H|].
  intros p. unfold matchesPattern, matchesKeyword. rewrite !H.
  intros Hm. apply orb_prop in Hm as [-> | ->]; [reflexivity|].
  now rewrite orb_true_r.
Qed.

Lemma fallback_pattern_agrees_with_keyword_test_witness :
  (forall text,
     Drizzle.like "%lamp%" text = includes (toLowerCase text) (toLowerCase "lamp"))
  /\ (forall p, matchesPattern (Examples.validatedLamp 0.5%float) p = true ->
                matchesKeyword "lamp" p = true).
Proof.
  apply (fallback_pattern_agrees_with_keyword_test (Examples.validatedLamp 0.5%float)).
  reflexivity.
Defined.

(** X20.  A request with a valid limit and threshold whose query is not
    empty (and has at most 500 characters) but is empty once sanitized
    (only blanks, or only a removed keyword) passes validation and is
    answered, and its empty query matches everything: the keyword step
    keeps every candidate without an embedding, and the fallback pattern
    matches every row. *)
Theorem emptied_query_matches_every_row (q : RawQuery) :
  orDefault (raw_query q) (fun s => s) "" <> "" ->
  String.length (orDefault (raw_query q) (fun s => s) "") <= 500 ->
  AiValidation.sanitizePrompt (orDefault (raw_query q) (fun s => s) "") = "" ->
  AiValidation.limitIssues (orDefault (raw_limit q) parseInt (Some 10%Z)) = [] ->
  AiValidation.minSimilarityIssues
    (orDefault (raw_minSimilarity q) parseFloat 0.5%float) = [] ->
  exists validated,
    AiValidation.semanticSearchSchema_parse (searchInput q) = Ok validated
    /\ AiValidation.query validated = ""
    /\ (forall env auth, exists response, snd (handler env auth q) = Ok response)
    /\ (forall env,
          keywordResults validated (allProducts env validated)
          = filter lacksVector (allProducts env validated))
    /\ (forall row, matchesPattern validated row = true).
Proof.
  intros Hne Hlen Hs Hl Hm.
  assert (Hq : AiValidation.queryIssues (orDefault (raw_query q) (fun s => s) "") = []).
  { unfold AiValidation.queryIssues.
    destruct (orDefault (raw_query q) (fun s => s) "") as [|c r] eqn:E;
      [now contradiction Hne|].
    destruct (Nat.ltb_spec 500 (String.length (String c r))); [lia|reflexivity]. }
  destruct (orDefault (raw_limit q) parseInt (Some 10%Z)) as [n|] eqn:El;
    [|discriminate Hl].
  assert (Hp : AiValidation.semanticSearchSchema_parse (searchInput q)
               = Ok {| AiValidation.query := "";
                       AiValidation.limit := n;
                       AiValidation.minSimilarity :=
                         orDefault (raw_minSimilarity q) parseFloat 0.5%float;
                       AiValidation.category := raw_category q;
                       AiValidation.brand := raw_brand q |}).
  { unfold AiValidation.semanticSearchSchema_parse, searchInput.
    cbn [AiValidation.in_query AiValidation.in_limit AiValidation.in_minSimilarity
         AiValidation.in_category AiValidation.in_brand].
    rewrite El, Hq, Hl, Hm, Hs. reflexivity. }
  eexists. split; [exact Hp|]. cbn [AiValidation.query].
  split; [reflexivity|]. split; [|split].
  - intros env auth. rewrite (SearchFacts.handler_valid _ _ _ _ Hp).
    destruct (tryBlock env auth _) as [calls [r|e]]; eexists; reflexivity.
  - intros env. unfold keywordResults. cbn [AiValidation.query].
    apply forallb_filter_id. apply forallb_forall. intros p _.
    unfold matchesKeyword. now rewrite toLowerCase_empty, includes_empty.
  - intros row. unfold matchesPattern, keywordQuery. cbn [AiValidation.query].
    change ("%" ++ "" ++ "%") with (String "%" "%").
    rewrite like_percent, like_any. reflexivity.
Qed.

Lemma emptied_query_matches_every_row_witness :
  exists validated,
    AiValidation.semanticSearchSchema_parse
      (searchInput (Examples.request " select " None)) = Ok validated
    /\ AiValidation.query validated = ""
    /\ (forall env auth,
          exists response,
            snd (handler env auth (Examples.request " select " None)) = Ok response)
    /\ (forall env,
          keywordResults validated (allProducts env validated)
          = filter lacksVector (allProducts env validated))
    /\ (forall row, matchesPattern validated row = true).
Proof.
  apply (emptied_query_matches_every_row (Examples.request " select " None)).
  - discriminate.
  - vm_compute. lia.
  - vm_compute. reflexivity.
  - reflexivity.
  - reflexivity.
Defined.

End PatternFacts.

(* ===================================================================== *)
(** * scripts/vectorize-products.ts: further properties of a run *)
(* ===================================================================== *)

Module RunFacts.
Import Js VectorizeProducts Batches Frames ArrayFacts.

Lemma chunks_concat {A : Type} (c k : nat) : forall l : list A,
  List.length l <= k * c ->
  flat_map (fun b => slice l (b * c) (b * c + c)) (seq 0 k) = l.
Proof.
  induction k as [|k IH]; intros l Hl.
  - destruct l; [reflexivity|simpl in Hl; lia].
  - rewrite <- cons_seq, <- seq_shift. cbn [flat_map].
    rewrite flat_map_concat_map, map_map, <- flat_map_concat_map.
    transitivity (firstn c l ++ skipn c l); [|apply firstn_skipn]. f_equal.
    + unfold slice. simpl. f_equal. lia.
    + transitivity (flat_map (fun b => slice (skipn c l) (b * c) (b * c + c)) (seq 0 k));
        [|apply IH; rewrite length_skipn; lia].
      apply flat_map_ext. intros b. unfold slice.
      rewrite skipn_skipn. f_equal; [lia|]. f_equal. lia.
Qed.

Lemma batches_concat (pending : list Schema.Product) :
  flat_map (batchAt pending) (batchStarts (List.length pending)) = pending.
Proof.
  unfold batchStarts, batchAt.
  rewrite flat_map_concat_map, map_map, <- flat_map_concat_map.
  apply chunks_concat. unfold batchSize.
  pose proof (Nat.div_mod_eq (List.length pending + 10 - 1) 10).
  pose proof (Nat.mod_upper_bound (List.length pending + 10 - 1) 10). lia.
Qed.

Lemma batchAt_In (pending : list Schema.Product) (i : nat) (p : Schema.Product) :
  In p (batchAt pending i) -> In p pending.
Proof.
  unfold batchAt, slice. intros H. apply firstn_In in H.
  rewrite <- (firstn_skipn i pending). apply in_or_app. now right.
Qed.

Lemma persistedCount_le (provider : Gemini.Provider) (pending : list Schema.Product)
  (starts : list nat) :
  persistedCount provider pending starts
  <= List.length (flat_map (batchAt pending) starts).
Proof.
  unfold persistedCount. induction starts as [|i starts IH]; simpl; [lia|].
  rewrite length_app. destruct (batchSucceeds provider pending i); lia.
Qed.

Lemma persisted_all (provider : Gemini.Provider) (pending : list Schema.Product)
  (starts : list nat) :
  Forall (fun p => embeds provider p = true) pending ->
  persistedCount provider pending starts
  = List.length (flat_map (batchAt pending) starts)
  /\ persistedIds provider pending starts
     = map Schema.id (flat_map (batchAt pending) starts).
Proof.
  intros Hall.
  assert (Hs : forall i, batchSucceeds provider pending i = true).
  { intros i. unfold batchSucceeds. apply forallb_forall. intros p Hp.
    rewrite Forall_forall in Hall. apply Hall. eapply batchAt_In, Hp. }
  unfold persistedCount, persistedIds.
  induction starts as [|i starts [IH1 IH2]]; simpl; [now split|].
  rewrite Hs, length_app, map_app, IH1, IH2. now split.
Qed.

Lemma persistedIds_pending (provider : Gemini.Provider) (pending : list Schema.Product)
  (starts : list nat) (i : string) :
  In i (persistedIds provider pending starts) -> In i (map Schema.id pending).
Proof.
  unfold persistedIds. rewrite in_flat_map. intros (s & _ & H).
  destruct (batchSucceeds provider pending s); [|contradiction].
  apply in_map_iff in H as (p & <- & Hp). apply in_map. eapply batchAt_In, Hp.
Qed.

(** Frames. *)
Lemma withEmbedding_id (p : Schema.Product) (v : list float) (t : string) :
  Schema.id (Schema.withEmbedding p v t) = Schema.id p.
Proof. reflexivity. Qed.

Lemma withEmbedding_again (p : Schema.Product) (v v' : list float) (t t' : string) :
  Schema.withEmbedding (Schema.withEmbedding p v t) v' t' = Schema.withEmbedding p v' t'.
Proof. reflexivity. Qed.

Lemma updated_refl (clock : Clock) (p : Schema.Product) : updated clock [] p p.
Proof. unfold updated. split; [contradiction|reflexivity]. Qed.

Lemma updated_id (clock : Clock) (ids : list string) (a b : Schema.Product) :
  updated clock ids a b -> Schema.id b = Schema.id a.
Proof.
  intros [Hin Hout].
  destruct (in_dec string_dec (Schema.id a) ids) as [H|H].
  - destruct (Hin H) as (v & n & ->). reflexivity.
  - now rewrite (Hout H).
Qed.

Lemma updated_trans (clock : Clock) (ids ids' : list string) (a b c : Schema.Product) :
  updated clock ids a b -> updated clock ids' b c -> updated clock (ids ++ ids') a c.
Proof.
  intros Hab Hbc. pose proof (updated_id _ _ _ _ Hab) as E.
  destruct Hab as [Hin Hout], Hbc as [Hin' Hout']. split.
  - intros H. destruct (in_dec string_dec (Schema.id b) ids') as [Hb|Hb].
    + destruct (Hin' Hb) as (v' & n' & ->).
      destruct (in_dec string_dec (Schema.id a) ids) as [Ha|Ha].
      * destruct (Hin Ha) as (v & n & ->). exists v', n'. apply withEmbedding_again.
      * rewrite (Hout Ha). now exists v', n'.
    + rewrite (Hout' Hb). apply Hin. apply in_app_or in H as [H|H]; [exact H|].
      rewrite E in Hb. contradiction.
  - intros H. rewrite Hout', Hout; try reflexivity.
    + intros G. apply H, in_or_app. now left.
    + rewrite E. intros G. apply H, in_or_app. now right.
Qed.

Lemma update_frame (clock : Clock) (store : list Schema.Product) (i : string)
  (v : list float) (n : nat) :
  Forall2 (updated clock [i]) store (update store i v (clock n)).
Proof.
  unfold update. induction store as [|p store IH]; simpl; constructor; [|exact IH].
  unfold updated.
  destruct (String.eqb_spec (Schema.id p) i) as [E|E].
  - split; [intros _; now exists v, n|]. intros H. exfalso. apply H. now left.
  - split; [|reflexivity]. intros [H|[]]. congruence.
Qed.

Lemma Forall2_updated_trans (clock : Clock) (ids ids' : list string)
  (l1 l2 l3 : list Schema.Product) :
  Forall2 (updated clock ids) l1 l2 -> Forall2 (updated clock ids') l2 l3 ->
  Forall2 (updated clock (ids ++ ids')) l1 l3.
Proof.
  intros H. revert l3. induction H as [|a b l1 l2 Hab _ IH]; intros l3 H3;
    inversion H3; subst; constructor.
  - eapply updated_trans; eassumption.
  - now apply IH.
Qed.

Lemma Forall2_updated_refl (clock : Clock) (l : list Schema.Product) :
  Forall2 (updated clock []) l l.
Proof. induction l; constructor; [apply updated_refl|assumption]. Qed.

Lemma persist_frame (clock : Clock) (batchProducts : list Schema.Product) :
  forall (embeddings : list (list float)) (st : Run),
    List.length embeddings = List.length batchProducts ->
    Forall2 (updated clock (map Schema.id batchProducts)) (db st)
            (db (persist clock st batchProducts embeddings)).
Proof.
  induction batchProducts as [|p ps IH]; intros [|v vs] st Hl; simpl in *;
    try discriminate.
  - apply Forall2_updated_refl.
  - change (Schema.id p :: map Schema.id ps) with ([Schema.id p] ++ map Schema.id ps).
    eapply Forall2_updated_trans; [apply update_frame|].
    apply (IH vs {| db := update (db st) (Schema.id p) v (clock (processedCount st));
                    processedCount := S (processedCount st) |}). lia.
Qed.

Lemma processBatch_frame (clock : Clock) (provider : Gemini.Provider)
  (pending : list Schema.Product) (st : Run) (i : nat) :
  Forall2 (updated clock (if batchSucceeds provider pending i
                          then map Schema.id (batchAt pending i) else []))
          (db st)
          (db (processBatch clock provider st
                 (slice (map productText pending) i (i + batchSize))
                 (slice pending i (i + batchSize)))).
Proof.
  unfold batchSucceeds, batchAt, processBatch. rewrite BatchFacts.slice_map.
  pose proof (BatchFacts.generateBatchEmbeddings_spec provider
                (slice pending i (i + batchSize))) as H.
  destruct (forallb (embeds provider) (slice pending i (i + batchSize))).
  - destruct H as (vs & -> & Hl). now apply persist_frame.
  - destruct H as (e & ->). apply Forall2_updated_refl.
Qed.

Lemma run_frame (clock : Clock) (provider : Gemini.Provider)
  (pending : list Schema.Product) (starts : list nat) : forall st : Run,
  Forall2 (updated clock (persistedIds provider pending starts)) (db st)
    (db (fold_left (fun st i =>
                      processBatch clock provider st
                        (slice (map productText pending) i (i + batchSize))
                        (slice pending i (i + batchSize)))
                   starts st)).
Proof.
  induction starts as [|i starts IH]; intros st; simpl.
  - apply Forall2_updated_refl.
  - unfold persistedIds. simpl. eapply Forall2_updated_trans; [|apply IH].
    apply processBatch_frame.
Qed.

Lemma Forall2_impl_In {A B : Type} (R S : A -> B -> Prop) (l : list A) (l' : list B) :
  (forall a b, In a l -> R a b -> S a b) -> Forall2 R l l' -> Forall2 S l l'.
Proof.
  intros H F. induction F as [|a b l l' Hab _ IH]; constructor.
  - apply H; [now left|exact Hab].
  - apply IH. intros a' b' Ha. apply H. now right.
Qed.

Lemma Forall2_right {A B : Type} (P : B -> Prop) (l : list A) (l' : list B) :
  Forall2 (fun _ b => P b) l l' -> Forall P l'.
Proof. induction 1; constructor; assumption. Qed.

Lemma filter_none (l : list Schema.Product) :
  Forall (fun p => hasEmbedding p = true) l -> filter lacksEmbedding l = [].
Proof.
  induction 1 as [|p l Hp _ IH]; [reflexivity|]. simpl.
  unfold hasEmbedding in Hp. apply negb_true_iff in Hp. now rewrite Hp.
Qed.

Lemma vectorizeProducts_frame (clock : Clock) (provider : Gemini.Provider)
  (store : list Schema.Product) :
  Forall2 (updated clock (persistedIds provider (filter lacksEmbedding store)
                            (batchStarts (List.length (filter lacksEmbedding store)))))
          store (finalDb (vectorizeProducts clock provider store)).
Proof.
  unfold vectorizeProducts. cbn [finalDb]. rewrite length_map.
  apply (run_frame clock provider (filter lacksEmbedding store)
           (batchStarts (List.length (filter lacksEmbedding store)))
           {| db := store; processedCount := 0 |}).
Qed.

Lemma vectorizeProducts_processed (clock : Clock) (provider : Gemini.Provider)
  (store : list Schema.Product) :
  processed (vectorizeProducts clock provider store)
  = persistedCount provider (filter lacksEmbedding store)
      (batchStarts (List.length (filter lacksEmbedding store))).
Proof.
  unfold vectorizeProducts. cbn [processed]. rewrite length_map.
  destruct (BatchFacts.run_spec clock provider (filter lacksEmbedding store)
              (batchStarts (List.length (filter lacksEmbedding store)))
              {| db := store; processedCount := 0 |}) as [H _].
  exact H.
Qed.

(** X21.  A run of the script keeps the rows of the store and their order.
    A row after the run is the row as it was, or the row as it was but
    for the two columns that an update writes: its embedding, and its
    [updatedAt], which holds a timestamp read from the clock.  A row that
    is still without an embedding after the run is as it was; when
    identifiers are unique, a row that had an embedding before the run is
    as it was; and the number of products reported as processed never
    exceeds the number found. *)
Theorem vectorizeProducts_writes_embedding_and_timestamp_only
  (clock : Clock) (provider : Gemini.Provider) (store : list Schema.Product) :
  Forall2 (fun old new =>
             unchangedOrEmbedded clock old new
             /\ (hasEmbedding new = false -> new = old)
             /\ (NoDup (map Schema.id store) -> hasEmbedding old = true -> new = old))
          store (finalDb (vectorizeProducts clock provider store))
  /\ processed (vectorizeProducts clock provider store)
     <= found (vectorizeProducts clock provider store).
Proof.
  split.
  - eapply Forall2_impl_In; [|apply vectorizeProducts_frame].
    intros old new Hold (Hin & Hout).
    destruct (in_dec string_dec (Schema.id old)
                (persistedIds provider (filter lacksEmbedding store)
                   (batchStarts (List.length (filter lacksEmbedding store)))))
      as [H|H].
    + destruct (Hin H) as (v & n & ->). split; [right; now exists v, n|]. split.
      * discriminate.
      * intros Hnd Hemb. exfalso.
        apply persistedIds_pending, in_map_iff in H as (p & Hid & Hp).
        apply filter_In in Hp as [Hp Hlack].
        assert (p = old) by (eapply SearchFacts.NoDup_map_inj; eassumption).
        subst p. unfold hasEmbedding in Hemb. rewrite Hlack in Hemb. discriminate.
    + rewrite (Hout H). split; [now left|]. split; reflexivity.
  - rewrite vectorizeProducts_processed. cbn [found vectorizeProducts].
    etransitivity; [apply persistedCount_le|]. now rewrite batches_concat.
Qed.

(** X22.  When the provider embeds the text of every product that lacks an
    embedding, a run processes all that it found, every row of the store
    holds an embedding afterwards, and a second run (with any provider)
    finds nothing to do and leaves the store as it is. *)
Theorem vectorizeProducts_completes_and_is_idempotent
  (clock : Clock) (provider : Gemini.Provider) (store : list Schema.Product) :
  Forall (fun p => embeds provider p = true) (filter lacksEmbedding store) ->
  processed (vectorizeProducts clock provider store)
  = found (vectorizeProducts clock provider store)
  /\ Forall (fun p => hasEmbedding p = true)
            (finalDb (vectorizeProducts clock provider store))
  /\ (forall clock' provider',
        vectorizeProducts clock' provider' (finalDb (vectorizeProducts clock provider store))
        = {| finalDb := finalDb (vectorizeProducts clock provider store);
             processed := 0; found := 0 |}).
Proof.
  intros Hall.
  destruct (persisted_all provider _
              (batchStarts (List.length (filter lacksEmbedding store))) Hall) as [Hc Hi].
  rewrite batches_concat in Hc, Hi.
  assert (Hfinal : Forall (fun p => hasEmbedding p = true)
                     (finalDb (vectorizeProducts clock provider store))).
  { pose proof (vectorizeProducts_frame clock provider store) as F. rewrite Hi in F.
    assert (G : Forall2 (fun (old new : Schema.Product) => hasEmbedding new = true)
                  store (finalDb (vectorizeProducts clock provider store))).
    { eapply Forall2_impl_In; [|exact F].
      intros old new Hold (Hin & Hout).
      destruct (in_dec string_dec (Schema.id old)
                  (map Schema.id (filter lacksEmbedding store))) as [H|H].
      - destruct (Hin H) as (v & n & ->). reflexivity.
      - rewrite (Hout H). unfold hasEmbedding.
        destruct (lacksEmbedding old) eqn:E; [|reflexivity].
        exfalso. apply H. apply in_map. apply filter_In. now split. }
    exact (Forall2_right _ _ _ G). }
  split; [|split; [exact Hfinal|]].
  - rewrite vectorizeProducts_processed. exact Hc.
  - intros clock' provider'.
    assert (Hnone : filter lacksEmbedding
                      (finalDb (vectorizeProducts clock provider store)) = []).
    { apply (filter_none _ Hfinal). }
    unfold vectorizeProducts at 1. rewrite Hnone. reflexivity.
Qed.

Lemma vectorizeProducts_completes_and_is_idempotent_witness :
  processed (vectorizeProducts Examples.clock Examples.providerUp Examples.twelve)
  = found (vectorizeProducts Examples.clock Examples.providerUp Examples.twelve)
  /\ Forall (fun p => hasEmbedding p = true)
            (finalDb (vectorizeProducts Examples.clock Examples.providerUp Examples.twelve))
  /\ (forall clock' provider',
        vectorizeProducts clock' provider'
          (finalDb (vectorizeProducts Examples.clock Examples.providerUp Examples.twelve))
        = {| finalDb := finalDb (vectorizeProducts Examples.clock Examples.providerUp
                                   Examples.twelve);
             processed := 0; found := 0 |}).
Proof.
  apply (vectorizeProducts_completes_and_is_idempotent Examples.clock
           Examples.providerUp Examples.twelve).
  repeat constructor.
Defined.

End RunFacts.

(* ===================================================================== *)
(** * routes/search.ts: POST /api/search/vectorize *)
(* ===================================================================== *)

Module VectorizeRouteFacts.
Import Js VectorizeRoute Frames.
Local Open Scope string_scope.

Section Route.
Variable uuid : string -> bool.

Lemma get_id (id : string) (table : list Schema.Product) (product : Schema.Product) :
  get id table = Some product -> Schema.id product = id /\ In product table.
Proof.
  unfold get. intros H. apply find_some in H as [Hin E].
  apply String.eqb_eq in E. now split.
Qed.

Lemma get_update (id : string) (table : list Schema.Product) (product : Schema.Product)
  (embedding : list float) (now : string) :
  get id table = Some product ->
  get id (VectorizeProducts.update table id embedding now)
  = Some (Schema.withEmbedding product embedding now).
Proof.
  unfold get, VectorizeProducts.update.
  induction table as [|p table IH]; simpl; [discriminate|].
  destruct (String.eqb (Schema.id p) id) eqn:E; simpl.
  - rewrite E. intros H. now injection H as <-.
  - rewrite E. exact IH.
Qed.

Lemma update_rows (id : string) (table : list Schema.Product)
  (embedding : list float) (now : string) :
  Forall2 (fun old new =>
             new = if String.eqb (Schema.id old) id
                   then Schema.withEmbedding old embedding now else old)
          table (VectorizeProducts.update table id embedding now).
Proof.
  unfold VectorizeProducts.update.
  induction table as [|p table IH]; simpl; constructor; [reflexivity|exact IH].
Qed.

(** X23.  What a request to vectorize a product does to the store: nothing,
    unless the response is the success of a vectorization; then the rows
    with the requested identifier are what they were but for the two
    columns that the update writes, the embedding, which is the vector
    that the provider returned for the text of the product (the response
    names its length), and [updatedAt], which is the time of the request;
    every other row is as it was.  The provider is called at most once,
    and not at all when the identifier is invalid, when no row has it
    (the handler then throws [NOT_FOUND], status 404), or when the row
    has an embedding and regeneration is not forced. *)
Theorem vectorize_route_writes_only_on_success
  (provider : Gemini.Provider) (now : string) (catalog : list Schema.Product)
  (body : VectorizeInput) :
  match response (handler uuid provider now catalog body) with
  | inr (Vectorized id vectorLength) =>
      id = in_productId body
      /\ exists product embedding,
           get id catalog = Some product
           /\ embedCalls (handler uuid provider now catalog body)
              = [VectorizeProducts.productText product]
           /\ provider (VectorizeProducts.productText product) = Ok embedding
           /\ vectorLength = List.length embedding
           /\ Forall2 (fun old new =>
                         new = if String.eqb (Schema.id old) id
                               then Schema.withEmbedding old embedding now else old)
                      catalog (store (handler uuid provider now catalog body))
           /\ get id (store (handler uuid provider now catalog body))
              = Some (Schema.withEmbedding product embedding now)
  | inr (AlreadyVectorized id) =>
      store (handler uuid provider now catalog body) = catalog
      /\ embedCalls (handler uuid provider now catalog body) = []
      /\ id = in_productId body
      /\ in_forceRegenerate body <> Some true
      /\ exists product, get id catalog = Some product
                         /\ SearchRoute.hasVector product = true
  | inl (AppThrown err) =>
      store (handler uuid provider now catalog body) = catalog
      /\ embedCalls (handler uuid provider now catalog body) = []
      /\ ErrorHandler.getStatusCode err = 404%Z
      /\ get (in_productId body) catalog = None
  | inl (Failure err) =>
      store (handler uuid provider now catalog body) = catalog
      /\ ((embedCalls (handler uuid provider now catalog body) = []
           /\ uuid (in_productId body) = false)
          \/ exists product,
               get (in_productId body) catalog = Some product
               /\ embedCalls (handler uuid provider now catalog body)
                  = [VectorizeProducts.productText product]
               /\ provider (VectorizeProducts.productText product) = Throw err)
  end.
Proof.
  unfold handler, vectorizeProductSchema_parse.
  destruct (uuid (in_productId body)) eqn:Hu; cbn [productId forceRegenerate].
  - destruct (get (in_productId body) catalog) as [product|] eqn:Hg.
    + destruct (get_id _ _ _ Hg) as [Hid _].
      destruct (SearchRoute.hasVector product) eqn:Hv;
        [destruct (in_forceRegenerate body) as [[|]|] eqn:Hf|]; cbn [andb negb];
        try (cbn [response store embedCalls]; rewrite Hid;
             repeat split; try discriminate; eauto; fail).
      * unfold Gemini.generateEmbedding.
        destruct (provider (VectorizeProducts.productText product)) as [v|e] eqn:Hp;
          cbn [response store embedCalls].
        -- rewrite Hid. split; [reflexivity|].
           exists product, v. repeat split; try assumption;
             [apply update_rows|now apply get_update].
        -- split; [reflexivity|]. right. exists product. auto.
      * unfold Gemini.generateEmbedding.
        destruct (provider (VectorizeProducts.productText product)) as [v|e] eqn:Hp;
          cbn [response store embedCalls].
        -- rewrite Hid. split; [reflexivity|].
           exists product, v. repeat split; try assumption;
             [apply update_rows|now apply get_update].
        -- split; [reflexivity|]. right. exists product. auto.
    + cbn [response store embedCalls]. repeat split.
  - cbn [response store embedCalls]. split; [reflexivity|]. left. now split.
Qed.

(** After a success, the row with the requested identifier holds an
    embedding. *)
Lemma success_leaves_embedding
  (provider : Gemini.Provider) (now : string) (catalog : list Schema.Product)
  (body : VectorizeInput) (data : VectorizeData) :
  response (handler uuid provider now catalog body) = inr data ->
  exists product,
    get (in_productId body) (store (handler uuid provider now catalog body))
    = Some product
    /\ SearchRoute.hasVector product = true
    /\ uuid (in_productId body) = true.
Proof.
  unfold handler, vectorizeProductSchema_parse.
  destruct (uuid (in_productId body)) eqn:Hu; cbn [productId forceRegenerate];
    [|discriminate].
  destruct (get (in_productId body) catalog) as [product|] eqn:Hg; [|discriminate].
  destruct (SearchRoute.hasVector product && _) eqn:Hv.
  - cbn [response store]. intros _. exists product.
    apply andb_prop in Hv as [Hv _]. auto.
  - unfold Gemini.generateEmbedding.
    destruct (provider (VectorizeProducts.productText product)) as [v|e];
      cbn [response store]; [|discriminate].
    intros _. exists (Schema.withEmbedding product v now).
    split; [now apply get_update|]. split; reflexivity.
Qed.

(** X24.  Repeating a request that succeeded, without forcing regeneration,
    changes nothing: it finds the embedding, does not call the provider
    and leaves the store as it is. *)
Theorem vectorize_route_is_idempotent
  (provider provider' : Gemini.Provider) (now now' : string)
  (catalog : list Schema.Product) (body : VectorizeInput) (data : VectorizeData) :
  response (handler uuid provider now catalog body) = inr data ->
  in_forceRegenerate body <> Some true ->
  handler uuid provider' now' (store (handler uuid provider now catalog body)) body
  = {| store := store (handler uuid provider now catalog body);
       embedCalls := [];
       response := inr (AlreadyVectorized (in_productId body)) |}.
Proof.
  intros Hr Hf.
  destruct (success_leaves_embedding provider now catalog body data Hr)
    as (product & Hg & Hv & Hu).
  unfold handler at 1, vectorizeProductSchema_parse. rewrite Hu.
  cbn [productId forceRegenerate]. rewrite Hg, Hv.
  destruct (get_id _ _ _ Hg) as [-> _].
  destruct (in_forceRegenerate body) as [[|]|]; [congruence|reflexivity|reflexivity].
Qed.

End Route.

Lemma vectorize_route_is_idempotent_witness :
  handler (fun _ => true) Examples.providerDown "2024-06-02T00:00:00.000Z"
    (store (handler (fun _ => true) Examples.providerUp "2024-06-01T00:00:00.000Z"
              [Examples.lamp]
              {| in_productId := "p2"; in_forceRegenerate := None |}))
    {| in_productId := "p2"; in_forceRegenerate := None |}
  = {| store := store (handler (fun _ => true) Examples.providerUp
                         "2024-06-01T00:00:00.000Z" [Examples.lamp]
                         {| in_productId := "p2"; in_forceRegenerate := None |});
       embedCalls := [];
       response := inr (AlreadyVectorized "p2") |}.
Proof.
  apply (vectorize_route_is_idempotent (fun _ => true) Examples.providerUp
           Examples.providerDown "2024-06-01T00:00:00.000Z" "2024-06-02T00:00:00.000Z"
           [Examples.lamp]
           {| in_productId := "p2"; in_forceRegenerate := None |}
           (Vectorized "p2" 2)).
  - reflexivity.
  - discriminate.
Defined.

End VectorizeRouteFacts.

(* ===================================================================== *)
(** * middleware/rate-limit.ts *)
(* ===================================================================== *)

Module RateLimitFacts.
Import RateLimit Windows.
Local Open Scope Z_scope.

Lemma set_same (key : string) (value : Entry) (store : Store) :
  set key value store key = Some value.
Proof. unfold set. now rewrite String.eqb_refl. Qed.

Lemma set_other (key other : string) (value : Entry) (store : Store) :
  other <> key -> set key value store other = store other.
Proof.
  intros H. unfold set. destruct (String.eqb_spec other key); [contradiction|reflexivity].
Qed.

Lemma requests_cons (store : Store) (userId : string) (config : RateLimitConfig)
  (now : Z) (times : list Z) :
  snd (requests store userId config (now :: times))
  = snd (checkRateLimit store now userId config)
    :: snd (requests (fst (checkRateLimit store now userId config)) userId config times).
Proof.
  cbn [requests]. destruct (checkRateLimit store now userId config) as [store' d].
  cbn [fst snd]. destruct (requests store' userId config times) as [final ds].
  reflexivity.
Qed.

(** Within a window that has counted [c] requests, the next requests are
    allowed until the count reaches the maximum, then refused. *)
Lemma in_window (userId : string) (config : RateLimitConfig) (r : Z) (times : list Z) :
  forall (store : Store) (c : Z),
    store userId = Some {| count := c; resetTime := r |} ->
    Forall (fun t => t <= r) times ->
    map allowed (snd (requests store userId config times))
    = (repeat true (Nat.min (List.length times) (Z.to_nat (maxRequests config - c)))
       ++ repeat false (List.length times - Z.to_nat (maxRequests config - c)))%list
    /\ Forall (fun d => (1 <= c -> 0 <= remaining d) /\ reset d = r)
              (snd (requests store userId config times)).
Proof.
  induction times as [|t times IH]; intros store c Hs Ht; [now split|].
  inversion Ht as [|? ? Hle Hrest]; subst.
  rewrite requests_cons. unfold checkRateLimit. rewrite Hs. cbn [resetTime count].
  destruct (Z.gtb_spec t r) as [G|_]; [lia|].
  destruct (Z.geb_spec c (maxRequests config)) as [G|G]; cbn [fst snd map allowed].
  - destruct (IH store c Hs Hrest) as [IH1 IH2]. rewrite IH1.
    replace (Z.to_nat (maxRequests config - c)) with 0%nat by lia.
    rewrite !Nat.min_0_r, !Nat.sub_0_r. split; [reflexivity|].
    constructor; [|exact IH2]. simpl. split; [lia|reflexivity].
  - destruct (IH (set userId {| count := c + 1; resetTime := r |} store) (c + 1))
      as [IH1 IH2]; [apply set_same|exact Hrest|].
    rewrite IH1. split.
    + replace (Z.to_nat (maxRequests config - c))
        with (S (Z.to_nat (maxRequests config - (c + 1)))) by lia.
      reflexivity.
    + constructor.
      * simpl. split; [lia|reflexivity].
      * eapply Forall_impl; [|exact IH2]. intros d [H1 H2]. split; [|exact H2].
        intros Hc. apply H1. lia.
Qed.

(** X25.  A window: from a request at [t0] that finds no entry for the key, or
    an expired one, the requests made up to [t0 + windowMs] are allowed
    until [maxRequests] of them have been (the first one always is), and
    refused after that; every answer names the end of the window, and,
    for a maximum of at least 1, a remaining quota that is not negative. *)
Theorem window_allows_maxRequests (store : Store) (userId : string)
  (config : RateLimitConfig) (t0 : Z) (times : list Z) :
  expired store userId t0 ->
  Forall (fun t => t <= t0 + windowMs config) times ->
  map allowed (snd (requests store userId config (t0 :: times)))
  = (true :: repeat true (Nat.min (List.length times)
                            (Z.to_nat (maxRequests config - 1)))
     ++ repeat false (List.length times - Z.to_nat (maxRequests config - 1)))%list
  /\ Forall (fun d => (1 <= maxRequests config -> 0 <= remaining d)
                      /\ reset d = t0 + windowMs config)
            (snd (requests store userId config (t0 :: times))).
Proof.
  intros He Ht. rewrite requests_cons.
  assert (Hnew : checkRateLimit store t0 userId config
                 = (set userId {| count := 1; resetTime := t0 + windowMs config |} store,
                    {| allowed := true; remaining := maxRequests config - 1;
                       reset := t0 + windowMs config |})).
  { unfold checkRateLimit, expired in *. destruct (store userId) as [e|]; [|reflexivity].
    destruct (Z.gtb_spec t0 (resetTime e)); [reflexivity|lia]. }
  rewrite Hnew. cbn [fst snd map allowed].
  destruct (in_window userId config (t0 + windowMs config) times
              (set userId {| count := 1; resetTime := t0 + windowMs config |} store) 1)
    as [H1 H2]; [apply set_same|exact Ht|].
  rewrite H1. split; [reflexivity|].
  constructor.
  - simpl. split; [lia|reflexivity].
  - eapply Forall_impl; [|exact H2]. intros d [G1 G2]. split; [|exact G2].
    intros _. apply G1. lia.
Qed.

Lemma window_allows_maxRequests_witness :
  map allowed (snd (requests empty "search:anonymous"
                      {| windowMs := 60000; maxRequests := 2 |} [1000; 1001; 1002; 61000]))
  = [true; true; false; false]
  /\ Forall (fun d => (1 <= 2 -> 0 <= remaining d) /\ reset d = 1000 + 60000)
            (snd (requests empty "search:anonymous"
                    {| windowMs := 60000; maxRequests := 2 |} [1000; 1001; 1002; 61000])).
Proof.
  apply (window_allows_maxRequests empty "search:anonymous"
           {| windowMs := 60000; maxRequests := 2 |} 1000 [1001; 1002; 61000]).
  - exact I.
  - repeat constructor; simpl; lia.
Defined.

Lemma checkRateLimit_agree (now t : Z) (userId : string) (config : RateLimitConfig)
  (s s' : Store) :
  now <= t -> 0 <= windowMs config -> agree now userId s s' ->
  snd (checkRateLimit s t userId config) = snd (checkRateLimit s' t userId config)
  /\ agree now userId (fst (checkRateLimit s t userId config))
                      (fst (checkRateLimit s' t userId config)).
Proof.
  intros Ht Hw [E|[E1 E2]].
  - unfold checkRateLimit. rewrite <- E.
    destruct (s userId) as [e|] eqn:Es.
    + destruct (t >? resetTime e).
      * cbn [fst snd]. split; [reflexivity|]. left. now rewrite !set_same.
      * destruct (count e >=? maxRequests config); cbn [fst snd].
        -- split; [reflexivity|]. left. congruence.
        -- split; [reflexivity|]. left. now rewrite !set_same.
    + cbn [fst snd]. split; [reflexivity|]. left. now rewrite !set_same.
  - assert (H : forall st, expired st userId now ->
                checkRateLimit st t userId config
                = (set userId {| count := 1; resetTime := t + windowMs config |} st,
                   {| allowed := true; remaining := maxRequests config - 1;
                      reset := t + windowMs config |})).
    { intros st He. unfold checkRateLimit, expired in *.
      destruct (st userId) as [e|]; [|reflexivity].
      destruct (Z.gtb_spec t (resetTime e)); [reflexivity|lia]. }
    rewrite (H s E1), (H s' E2). cbn [fst snd]. split; [reflexivity|].
    left. now rewrite !set_same.
Qed.

Lemma requests_agree (now : Z) (userId : string) (config : RateLimitConfig)
  (times : list Z) : forall s s',
  0 <= windowMs config -> Forall (fun t => now <= t) times -> agree now userId s s' ->
  snd (requests s userId config times) = snd (requests s' userId config times).
Proof.
  induction times as [|t times IH]; intros s s' Hw Ht Ha; [reflexivity|].
  inversion Ht as [|? ? Hle Hrest]; subst. rewrite !requests_cons.
  destruct (checkRateLimit_agree now t userId config s s' Hle Hw Ha) as [-> Ha'].
  f_equal. now apply IH.
Qed.

(** X26.  Keys do not interfere and the periodic cleanup is not observable: a
    call for one key leaves the entry of every other key as it is, a
    refused call leaves the store as it is, and removing the expired
    entries at [now] changes no answer to the requests made from [now]
    on. *)
Theorem cleanup_and_other_keys_change_no_answer
  (store : Store) (userId : string) (config : RateLimitConfig) (now : Z) :
  (forall other, other <> userId ->
     fst (checkRateLimit store now userId config) other = store other)
  /\ (allowed (snd (checkRateLimit store now userId config)) = false ->
      fst (checkRateLimit store now userId config) = store)
  /\ (forall times,
        0 <= windowMs config -> Forall (fun t => now <= t) times ->
        snd (requests (cleanupExpiredEntries now store) userId config times)
        = snd (requests store userId config times)).
Proof.
  split; [|split].
  - intros other Ho. unfold checkRateLimit.
    destruct (store userId) as [e|]; cbn [fst].
    + destruct (now >? resetTime e); cbn [fst]; [now apply set_other|].
      destruct (count e >=? maxRequests config); cbn [fst];
        [reflexivity|now apply set_other].
    + now apply set_other.
  - unfold checkRateLimit. destruct (store userId) as [e|]; cbn [fst snd allowed].
    + destruct (now >? resetTime e); cbn [fst snd allowed]; [discriminate|].
      destruct (count e >=? maxRequests config); cbn [fst snd allowed];
        [reflexivity|discriminate].
    + discriminate.
  - intros times Hw Ht. apply (requests_agree now); try assumption.
    unfold agree, cleanupExpiredEntries, expired.
    destruct (store userId) as [e|]; [|now left].
    destruct (Z.gtb_spec now (resetTime e)); [right; split; [exact I|lia]|now left].
Qed.

End RateLimitFacts.
